(** * S1 trading-signal engine: tick quantizer, contact-price solver,
      line calculator and alert de-duplication

    A shallow embedding of the numerical core of

      - [contact_price_calculator.py]  (module [Contact]),
      - [Trading_Signal_System_S1.py]  (module [Signal]),
      - [Real_Time_Monitor_S1.py]      (module [Monitor]),
      - [trading_day_utils.py]         (module [TradingDay]),

    followed by the properties of the specification that were checked
    against it.

    Numbers.  Python's [int] is [Z].  Python's [float] is IEEE-754 binary64;
    a finite float is modelled by the rational number it denotes ([Q]) and
    every float operation is the exact operation followed by the rounding
    [fl].  The functions are written once, over an arbitrary rounding [fl]
    (a Section variable); the program is their instance at
    [Binary64.fl] (round to nearest, ties to even, 53 significant bits,
    gradual underflow).  Infinities and NaN enter only as arguments of the
    two solvers ([pyfloat], the functions named [..._float]); everywhere
    else the values stay finite and far under the overflow threshold.

    Loops.  The two [while True] loops take an iteration budget; the outcome
    [Iterating] means that the budget ran out while the loop was still
    running. *)

From Stdlib Require Import ZArith QArith Qround Qabs Qpower Lia Lqa Bool List.
From stdpp Require Import base gmap strings.
Import ListNotations.

Local Open Scope Q_scope.

(** ** Outcomes of a Python call *)

(** A call returns a value, raises an exception (named by its class), or is
    still running when the iteration budget is used up. *)
Inductive outcome (A : Type) : Type :=
  | Returned (a : A)
  | Raised (exn : string)
  | Iterating.

Arguments Returned {A} a.
Arguments Raised {A} exn.
Arguments Iterating {A}.

(** ** Comparisons on rationals as booleans *)

Definition Qltb (x y : Q) : bool := negb (Qle_bool y x).

(** ** IEEE-754 binary64 rounding *)

Module Binary64.

(** [pow2 s] is 2^s for any integer [s]. *)
Definition pow2 (s : Z) : Q := Qpower 2 s.

(** For [x > 0], [binade x] is the exponent [e] with 2^e <= x < 2^(e+1). *)
Definition binade (x : Q) : Z :=
  let e0 := (Z.log2 (Qnum x) - Z.log2 (Zpos (Qden x)))%Z in
  if Qle_bool (pow2 e0) x then e0 else (e0 - 1)%Z.

(** Nearest integer, ties to the even one. *)
Definition round_half_even (q : Q) : Z :=
  let f := Qfloor q in
  match Qcompare (q - inject_Z f) (1 # 2) with
  | Lt => f
  | Gt => (f + 1)%Z
  | Eq => if Z.even f then f else (f + 1)%Z
  end.

(** Exponent of the unit in the last place at [x]: 53 significant bits,
    never finer than the subnormal spacing 2^-1074. *)
Definition ulp_exp (x : Q) : Z := Z.max (binade (Qabs x) - 52) (-1074).

(** Round to nearest, ties to even. *)
Definition fl (x : Q) : Q :=
  if Qeq_bool x 0 then 0
  else let s := ulp_exp x in
       inject_Z (round_half_even (x / pow2 s)) * pow2 s.

End Binary64.

(** ** Python floats, finite or not *)

(** A Python [float]: a finite binary64 value (the rational it denotes), an
    infinity or NaN. *)
Inductive pyfloat : Type :=
  | Finite (q : Q)
  | PosInf
  | NegInf
  | NaN.

(** ** Python float operations over a rounding *)

Section PyFloat.
Variable fl : Q -> Q.

(** [float(n)] for an [int] [n]. *)
Definition of_int (n : Z) : Q := fl (inject_Z n).

Definition fadd (x y : Q) : Q := fl (x + y).
Definition fsub (x y : Q) : Q := fl (x - y).
Definition fmul (x y : Q) : Q := fl (x * y).
Definition fdiv (x y : Q) : Q := fl (x / y).

(** C's [fmod]: the remainder of the division truncated toward zero; it
    has the sign of [x] and is computed without rounding error. *)
Definition Qtrunc (x : Q) : Z :=
  if Qle_bool 0 x then Qfloor x else Qceiling x.

Definition fmod (x y : Q) : Q := x - inject_Z (Qtrunc (x / y)) * y.

(** CPython's [_float_div_mod] (Objects/floatobject.c), which implements
    [//] and [%] on floats, for a divisor [wx <> 0]:
<<
    mod = fmod(vx, wx);
    div = (vx - mod) / wx;
    if (mod) { if ((wx < 0) != (mod < 0)) { mod += wx; div -= 1.0; } }
    else mod = copysign(0.0, wx);
    if (div) { floordiv = floor(div);
               if (div - floordiv > 0.5) floordiv += 1.0; }
    else floordiv = copysign(0.0, vx / wx);
>>
    The pair is (floordiv, mod). *)
Definition float_div_mod (vx wx : Q) : Q * Q :=
  let mod0 := fmod vx wx in
  let div0 := fdiv (fsub vx mod0) wx in
  let '(mod1, div1) :=
    if Qeq_bool mod0 0 then (0, div0)
    else if negb (Bool.eqb (Qltb wx 0) (Qltb mod0 0))
         then (fadd mod0 wx, fsub div0 1)
         else (mod0, div0) in
  let floordiv :=
    if Qeq_bool div1 0 then 0
    else let f := inject_Z (Qfloor div1) in
         if Qltb (1 # 2) (fsub div1 f) then fadd f 1 else f in
  (floordiv, mod1).

Definition float_floor_div (vx wx : Q) : Q := fst (float_div_mod vx wx).
Definition float_rem (vx wx : Q) : Q := snd (float_div_mod vx wx).

(** Comparisons of a float with a finite constant [c] or an [int] [n]:
    [x < c], [x <= n], [n < x] and [n == x].  Every comparison with NaN is
    false. *)
Definition pyfloat_ltb (x : pyfloat) (c : Q) : bool :=
  match x with
  | Finite q => Qltb q c
  | NegInf => true
  | PosInf | NaN => false
  end.

Definition pyfloat_le_int (x : pyfloat) (n : Z) : bool :=
  match x with
  | Finite q => Qle_bool q (inject_Z n)
  | NegInf => true
  | PosInf | NaN => false
  end.

Definition int_lt_pyfloat (n : Z) (x : pyfloat) : bool :=
  match x with
  | Finite q => Qltb (inject_Z n) q
  | PosInf => true
  | NegInf | NaN => false
  end.

Definition int_eq_pyfloat (n : Z) (x : pyfloat) : bool :=
  match x with
  | Finite q => Qeq_bool (inject_Z n) q
  | PosInf | NegInf | NaN => false
  end.

(** [x / c] for a finite [c >= 1] and [x + y] for a finite [y] of at most
    25000: an infinity and NaN stay what they are, and a finite [x] gives a
    finite result (the largest float plus 25000 rounds to the largest
    float). *)
Definition pyfloat_div (x : pyfloat) (c : Q) : pyfloat :=
  match x with
  | Finite q => Finite (fdiv q c)
  | PosInf => PosInf
  | NegInf => NegInf
  | NaN => NaN
  end.

Definition pyfloat_add (x : pyfloat) (y : Q) : pyfloat :=
  match x with
  | Finite q => Finite (fadd q y)
  | PosInf => PosInf
  | NegInf => NegInf
  | NaN => NaN
  end.

(** [x // d] for a finite [d > 0]: in [_float_div_mod], [fmod] of an
    infinity is NaN, and so are the quotient and its floor. *)
Definition pyfloat_floor_div (x : pyfloat) (d : Q) : pyfloat :=
  match x with
  | Finite q => Finite (float_floor_div q d)
  | PosInf | NegInf | NaN => NaN
  end.

(** [int(x)]: [ValueError] on NaN, [OverflowError] on an infinity. *)
Definition int_of_pyfloat (x : pyfloat) : outcome Z :=
  match x with
  | Finite q => Returned (Qtrunc q)
  | NaN => Raised "ValueError"
  | PosInf | NegInf => Raised "OverflowError"
  end.

(** [math.ceil(x)]: the same two errors. *)
Definition ceil_of_pyfloat (x : pyfloat) : outcome Z :=
  match x with
  | Finite q => Returned (Qceiling q)
  | NaN => Raised "ValueError"
  | PosInf | NegInf => Raised "OverflowError"
  end.

End PyFloat.

(** ** contact_price_calculator.py *)

Module Contact.
Section WithRounding.
Variable fl : Q -> Q.

(** [get_tick_size(p)]: the KRX tick-size table. *)
Definition get_tick_size (p : Q) : Z :=
  if Qltb p 2000 then 1
  else if Qltb p 5000 then 5
  else if Qltb p 20000 then 10
  else if Qltb p 50000 then 50
  else if Qltb p 200000 then 100
  else if Qltb p 500000 then 500
  else 1000.

(** [ceil_tick(y)]:
<<
    d = get_tick_size(y)
    q = int(y // d)
    return q * d if (q * d == y) else (q + 1) * d
>> *)
Definition ceil_tick (y : Q) : Z :=
  let d := get_tick_size y in
  let q := Qtrunc (float_floor_div fl y (of_int fl d)) in
  if Qeq_bool (inject_Z (q * d)) y then (q * d)%Z else ((q + 1) * d)%Z.

(** One pass through the body of the [while True] loop of
    [solve_contact_price]: [inl p] is [return int(p)], [inr p'] is the
    candidate of the next pass. *)
Definition solve_step (S19 x_star : Q) (p : Z) : Z + Z :=
  let d := get_tick_size (inject_Z p) in
  let upper := fdiv fl (fadd fl S19 (of_int fl (25 * d))) 24 in
  if Qle_bool x_star (inject_Z p) && Qltb (inject_Z p) upper
  then inl p
  else inr (p + d)%Z.

Fixpoint solve_loop (fuel : nat) (S19 x_star : Q) (p : Z) : outcome Z :=
  match fuel with
  | O => Iterating
  | S fuel' =>
      match solve_step S19 x_star p with
      | inl r => Returned r
      | inr p' => solve_loop fuel' S19 x_star p'
      end
  end.

(** [solve_contact_price(S19)], with at most [fuel] passes of the loop. *)
Definition solve_contact_price (fuel : nat) (S19 : Q) : outcome Z :=
  let x_star := fdiv fl S19 24 in
  let p := ceil_tick x_star in
  solve_loop fuel S19 x_star p.

(** [verify_contact_price(S19, p)]. *)
Definition verify_contact_price (S19 : Q) (p : Z) : bool :=
  let ma20 := fdiv fl (fadd fl S19 (of_int fl p)) 20 in
  let envelope := fmul fl ma20 (fl (8 # 10)) in
  let buy1 := ceil_tick envelope in
  Z.eqb p buy1.

(** The dict returned by [solve_contact_price_debug]. *)
Record debug_info : Type := {
  contact_price : Z;
  x_star : Q;
  delta : Z;
  upper : Q;
  iterations : Z
}.

(** The loop of [solve_contact_price_debug]:
<<
    while True:
        iterations += 1
        d = get_tick_size(p)
        upper = (S19 + 25 * d) / 24.0
        if x_star <= p < upper:
            return {"contact_price": int(p), "x_star": x_star, "delta": d,
                    "upper": upper, "iterations": iterations}
        p += d
>> *)
Fixpoint solve_debug_loop (fuel : nat) (S19 x_star0 : Q) (p : Z)
    (iterations0 : Z) : outcome debug_info :=
  match fuel with
  | O => Iterating
  | S fuel' =>
      let iterations1 := (iterations0 + 1)%Z in
      let d := get_tick_size (inject_Z p) in
      let upper0 := fdiv fl (fadd fl S19 (of_int fl (25 * d))) 24 in
      if Qle_bool x_star0 (inject_Z p) && Qltb (inject_Z p) upper0
      then Returned {| contact_price := p; x_star := x_star0; delta := d;
                       upper := upper0; iterations := iterations1 |}
      else solve_debug_loop fuel' S19 x_star0 (p + d)%Z iterations1
  end.

(** [solve_contact_price_debug(S19)], with at most [fuel] passes. *)
Definition solve_contact_price_debug (fuel : nat) (S19 : Q)
  : outcome debug_info :=
  let x_star0 := fdiv fl S19 24 in
  let p := ceil_tick x_star0 in
  solve_debug_loop fuel S19 x_star0 p 0.

(** The same functions on an argument that may be an infinity or NaN.
    [get_tick_size(p)] on a float: *)
Definition get_tick_size_float (p : pyfloat) : Z :=
  if pyfloat_ltb p 2000 then 1
  else if pyfloat_ltb p 5000 then 5
  else if pyfloat_ltb p 20000 then 10
  else if pyfloat_ltb p 50000 then 50
  else if pyfloat_ltb p 200000 then 100
  else if pyfloat_ltb p 500000 then 500
  else 1000.

(** [ceil_tick(y)]: [int(y // d)] raises when [y // d] is not finite. *)
Definition ceil_tick_float (y : pyfloat) : outcome Z :=
  let d := get_tick_size_float y in
  match int_of_pyfloat (pyfloat_floor_div fl y (of_int fl d)) with
  | Returned q =>
      Returned (if int_eq_pyfloat (q * d) y then (q * d)%Z else ((q + 1) * d)%Z)
  | Raised e => Raised e
  | Iterating => Iterating
  end.

Definition solve_step_float (S19 x_star : pyfloat) (p : Z) : Z + Z :=
  let d := get_tick_size (inject_Z p) in
  let upper := pyfloat_div fl (pyfloat_add fl S19 (of_int fl (25 * d))) 24 in
  if pyfloat_le_int x_star p && int_lt_pyfloat p upper
  then inl p
  else inr (p + d)%Z.

Fixpoint solve_loop_float (fuel : nat) (S19 x_star : pyfloat) (p : Z)
  : outcome Z :=
  match fuel with
  | O => Iterating
  | S fuel' =>
      match solve_step_float S19 x_star p with
      | inl r => Returned r
      | inr p' => solve_loop_float fuel' S19 x_star p'
      end
  end.

(** [solve_contact_price(S19)] for any float [S19]: [ceil_tick(x_star)] is
    evaluated, and may raise, before the loop is entered. *)
Definition solve_contact_price_float (fuel : nat) (S19 : pyfloat)
  : outcome Z :=
  let x_star := pyfloat_div fl S19 24 in
  match ceil_tick_float x_star with
  | Returned p => solve_loop_float fuel S19 x_star p
  | Raised e => Raised e
  | Iterating => Iterating
  end.

End WithRounding.
End Contact.

(** ** Trading_Signal_System_S1.py *)

Module Signal.
Section WithRounding.
Variable fl : Q -> Q.

(** [BUY_LEVEL_GAP = 10.0] and [SELL_LEVELS = [3.0, 5.0, 7.0]]. *)
Definition BUY_LEVEL_GAP : Q := 10.
Definition SELL_LEVELS : list Q := [3; 5; 7].

(** [get_tick_unit(price)]: the same table as [get_tick_size]. *)
Definition get_tick_unit (price : Q) : Z :=
  if Qltb price 2000 then 1
  else if Qltb price 5000 then 5
  else if Qltb price 20000 then 10
  else if Qltb price 50000 then 50
  else if Qltb price 200000 then 100
  else if Qltb price 500000 then 500
  else 1000.

(** [get_nearest_tick_price(price)]:
<<
    tick_unit = get_tick_unit(price)
    if price % tick_unit == 0:
        return price + tick_unit
    lower_tick = (price // tick_unit) * tick_unit
    upper_tick = lower_tick + tick_unit
    return upper_tick
>> *)
Definition get_nearest_tick_price (price : Q) : Q :=
  let tick_unit := of_int fl (get_tick_unit price) in
  if Qeq_bool (float_rem fl price tick_unit) 0
  then fadd fl price tick_unit
  else
    let lower_tick := fmul fl (float_floor_div fl price tick_unit) tick_unit in
    let upper_tick := fadd fl lower_tick tick_unit in
    upper_tick.

(** [ceil_tick(price) = math.ceil(price / delta) * delta]. *)
Definition ceil_tick (price : Q) : Z :=
  let delta := get_tick_unit price in
  (Qceiling (fdiv fl price (of_int fl delta)) * delta)%Z.

(** [floor_tick(price) = math.floor(price / delta) * delta]. *)
Definition floor_tick (price : Q) : Z :=
  let delta := get_tick_unit price in
  (Qfloor (fdiv fl price (of_int fl delta)) * delta)%Z.

(** One pass through the loop of [predict_next_day_buy_price]:
<<
    delta = get_tick_unit(p)
    upper = (S19_next + 25.0 * delta) / 24.0
    if p < upper: return int(p)
    else: p = p + delta
>> *)
Definition predict_step (S19_next : Q) (p : Z) : Z + Z :=
  let delta := get_tick_unit (inject_Z p) in
  let upper := fdiv fl (fadd fl S19_next (fmul fl 25 (of_int fl delta))) 24 in
  if Qltb (inject_Z p) upper then inl p else inr (p + delta)%Z.

Fixpoint predict_loop (fuel : nat) (S19_next : Q) (p : Z) : outcome Z :=
  match fuel with
  | O => Iterating
  | S fuel' =>
      match predict_step S19_next p with
      | inl r => Returned r
      | inr p' => predict_loop fuel' S19_next p'
      end
  end.

(** [predict_next_day_buy_price(S19_next)], with at most [fuel] passes. *)
Definition predict_next_day_buy_price (fuel : nat) (S19_next : Q) : outcome Z :=
  let x_star := fdiv fl S19_next 24 in
  let p := ceil_tick x_star in
  predict_loop fuel S19_next p.

(** The same functions on an argument that may be an infinity or NaN.
    [get_tick_unit(price)] on a float: *)
Definition get_tick_unit_float (price : pyfloat) : Z :=
  if pyfloat_ltb price 2000 then 1
  else if pyfloat_ltb price 5000 then 5
  else if pyfloat_ltb price 20000 then 10
  else if pyfloat_ltb price 50000 then 50
  else if pyfloat_ltb price 200000 then 100
  else if pyfloat_ltb price 500000 then 500
  else 1000.

(** [ceil_tick(price)]: [math.ceil(price / delta)] raises when the quotient
    is not finite. *)
Definition ceil_tick_float (price : pyfloat) : outcome Z :=
  let delta := get_tick_unit_float price in
  match ceil_of_pyfloat (pyfloat_div fl price (of_int fl delta)) with
  | Returned c => Returned (c * delta)%Z
  | Raised e => Raised e
  | Iterating => Iterating
  end.

Definition predict_step_float (S19_next : pyfloat) (p : Z) : Z + Z :=
  let delta := get_tick_unit (inject_Z p) in
  let upper :=
    pyfloat_div fl (pyfloat_add fl S19_next (fmul fl 25 (of_int fl delta))) 24 in
  if int_lt_pyfloat p upper then inl p else inr (p + delta)%Z.

Fixpoint predict_loop_float (fuel : nat) (S19_next : pyfloat) (p : Z)
  : outcome Z :=
  match fuel with
  | O => Iterating
  | S fuel' =>
      match predict_step_float S19_next p with
      | inl r => Returned r
      | inr p' => predict_loop_float fuel' S19_next p'
      end
  end.

(** [predict_next_day_buy_price(S19_next)] for any float [S19_next]. *)
Definition predict_next_day_buy_price_float (fuel : nat) (S19_next : pyfloat)
  : outcome Z :=
  let x_star := pyfloat_div fl S19_next 24 in
  match ceil_tick_float x_star with
  | Returned p => predict_loop_float fuel S19_next p
  | Raised e => Raised e
  | Iterating => Iterating
  end.

(** [calculate_buy_line_1]: [None] when the sum is missing or not positive. *)
Definition calculate_buy_line_1 (fuel : nat) (S19_next : option Q)
  : outcome (option Z) :=
  match S19_next with
  | None => Returned None
  | Some s =>
      if Qle_bool s 0 then Returned None
      else match predict_next_day_buy_price fuel s with
           | Returned p => Returned (Some p)
           | Raised e => Raised e
           | Iterating => Iterating
           end
  end.

(** [calculate_buy_line_2(buy1)]: the first line is an [int]. *)
Definition calculate_buy_line_2 (buy1 : option Z) : option Q :=
  match buy1 with
  | None => None
  | Some b =>
      let base_price :=
        fmul fl (of_int fl b) (fsub fl 1 (fdiv fl BUY_LEVEL_GAP 100)) in
      Some (get_nearest_tick_price base_price)
  end.

(** [calculate_buy_line_3(buy2)]: the second line is a [float]. *)
Definition calculate_buy_line_3 (buy2 : option Q) : option Q :=
  match buy2 with
  | None => None
  | Some b =>
      let base_price := fmul fl b (fsub fl 1 (fdiv fl BUY_LEVEL_GAP 100)) in
      Some (get_nearest_tick_price base_price)
  end.

(** *** The sums and lines computed by [analyze_stock] *)

(** [df["종가"].tail(period).mean()]: the closes are listed oldest first;
    the sum is accumulated from the left.  pandas adds the values in
    another order (pairwise); the statements below either compare two
    copies of the same sum or take integer closes, on which every order
    of summation is exact. *)
Definition tail (period : nat) (closes : list Q) : list Q :=
  skipn (length closes - period) closes.

Definition calculate_ma (closes : list Q) (period : nat) : option Q :=
  if (length closes <? period)%nat then None
  else Some (fdiv fl (fold_left (fadd fl) (tail period closes) 0)
                     (of_int fl (Z.of_nat period))).

(** [df_chart.iloc[-k]["종가"]]. *)
Definition iloc_neg (closes : list Q) (k : nat) : option Q :=
  if (length closes <? k)%nat then None
  else nth_error closes (length closes - k).

(** [S20_today = ma20_today * 20]. *)
Definition S20_today (closes : list Q) : option Q :=
  match calculate_ma closes 20 with
  | None => None
  | Some ma20_today => Some (fmul fl ma20_today 20)
  end.

(** [Close_D_20 = df_chart.iloc[-20]; S19_today = S20_today - Close_D_20]. *)
Definition S19_today (closes : list Q) : option Q :=
  match S20_today closes, iloc_neg closes 20 with
  | Some s20, Some Close_D_20 => Some (fsub fl s20 Close_D_20)
  | _, _ => None
  end.

(** [Close_D_19 = df_chart.iloc[-20]; S19_next = S20_today - Close_D_19]. *)
Definition S19_next (closes : list Q) : option Q :=
  match S20_today closes, iloc_neg closes 20 with
  | Some s20, Some Close_D_19 => Some (fsub fl s20 Close_D_19)
  | _, _ => None
  end.

(** The two first buy lines of [analyze_stock]: the one used with today's
    low to decide a fill, and the one published for the next session. *)
Definition buy1_today (fuel : nat) (closes : list Q) : outcome (option Z) :=
  calculate_buy_line_1 fuel (S19_today closes).

Definition buy1_next (fuel : nat) (closes : list Q) : outcome (option Z) :=
  calculate_buy_line_1 fuel (S19_next closes).

(** The sell lines of [analyze_stock], computed once a tranche is held:
<<
    if avg_price > 0:
        sell1 = avg_price * (1 + SELL_LEVELS[0] / 100)
        sell2 = avg_price * (1 + SELL_LEVELS[1] / 100)
        sell3 = avg_price * (1 + SELL_LEVELS[2] / 100)
    else:
        sell1 = sell2 = sell3 = 0
>> *)
Definition sell_line (avg_price : Q) (k : nat) : Q :=
  if Qltb 0 avg_price
  then fmul fl avg_price (fadd fl 1 (fdiv fl (nth k SELL_LEVELS 0) 100))
  else 0.

(** [calculate_sell_line_k(avg_buy_price)], the helper that rounds down to
    the tick.  It reads constants [SELL_LEVEL_k_GAP] that the module never
    defines; the gap is taken as the parameter [gap]. *)
Definition calculate_sell_line (gap : Q) (avg_buy_price : Q) : Z :=
  let target_price :=
    fmul fl avg_buy_price (fadd fl 1 (fdiv fl gap 100)) in
  floor_tick target_price.

(** [get_one_tick_up_price(price)]:
<<
    nearest_tick = get_nearest_tick_price(price)
    tick_unit = get_tick_unit(nearest_tick)
    return nearest_tick + tick_unit
>> *)
Definition get_one_tick_up_price (price : Q) : Q :=
  let nearest_tick := get_nearest_tick_price price in
  let tick_unit := get_tick_unit nearest_tick in
  fadd fl nearest_tick (of_int fl tick_unit).

(** [calculate_envelope_support(ma, envelope_pct)]:
    [ma * (1 + envelope_pct / 100)], [None] for a missing average. *)
Definition calculate_envelope_support (ma : option Q) (envelope_pct : Q)
  : option Q :=
  match ma with
  | None => None
  | Some a => Some (fmul fl a (fadd fl 1 (fdiv fl envelope_pct 100)))
  end.

(** [calculate_distance_pct(current, target)]:
<<
    if current is None or target is None or target == 0: return None
    distance_pct = ((current - target) / target) * 100
    if abs(distance_pct) < 1e-10: return 0.0
    return distance_pct
>> *)
Definition calculate_distance_pct (current target : option Q) : option Q :=
  match current, target with
  | Some c, Some t =>
      if Qeq_bool t 0 then None
      else
        let distance_pct := fmul fl (fdiv fl (fsub fl c t) t) 100 in
        if Qltb (Qabs distance_pct) (fl (1 # 10000000000)) then Some 0
        else Some distance_pct
  | _, _ => None
  end.

(** [check_buy_signal(low, buy_line)]: the day's low is at or below the
    line. *)
Definition check_buy_signal (low buy_line : option Q) : bool :=
  match low, buy_line with
  | Some l, Some b => Qle_bool l b
  | _, _ => false
  end.

(** [check_sell_retouch(high, close, sell_line, max_high, avg_buy_price)]:
<<
    if max_high is None or high is None or close is None \
       or sell_line is None or avg_buy_price is None: return False
    if max_high >= sell_line:
        if abs(close - avg_buy_price) / avg_buy_price < 0.01: return True
    return False
>>
    The division raises [ZeroDivisionError] on a zero average. *)
Definition check_sell_retouch
    (high close sell_line max_high avg_buy_price : option Q) : outcome bool :=
  match max_high, high, close, sell_line, avg_buy_price with
  | Some mh, Some _, Some c, Some s, Some a =>
      if Qle_bool s mh then
        if Qeq_bool a 0 then Raised "ZeroDivisionError"
        else if Qltb (fdiv fl (Qabs (fsub fl c a)) a) (fl (1 # 100))
             then Returned true
             else Returned false
      else Returned false
  | _, _, _, _, _ => Returned false
  end.

End WithRounding.

(** *** Alert status *)

(** [class BuyStatus] and [class AlertStatus]: plain strings. *)
Module BuyStatus.
Definition NONE : string := "NONE".
Definition BOUGHT_1 : string := "BOUGHT_1".
Definition BOUGHT_2 : string := "BOUGHT_2".
Definition BOUGHT_3 : string := "BOUGHT_3".
Definition SOLD : string := "SOLD".
End BuyStatus.

Module AlertStatus.
Definition WATCHING : string := "WATCHING".
Definition READY_BUY1 : string := "READY_BUY1".
Definition READY_BUY2 : string := "READY_BUY2".
Definition READY_BUY3 : string := "READY_BUY3".
Definition WAITING : string := "WAITING".
Definition READY_SELL1 : string := "READY_SELL1".
Definition READY_SELL2 : string := "READY_SELL2".
Definition READY_SELL3 : string := "READY_SELL3".
Definition COMPLETED : string := "COMPLETED".
End AlertStatus.

Section AlertMessage.

(** [format(x, ".1f")], the conversion used by the f-strings. *)
Variable format_1f : Q -> string.

(** [SELL_ALERT_THRESHOLD = 3.0], local to [determine_alert_status]. *)
Definition SELL_ALERT_THRESHOLD : Q := 3.

(** [dist is not None and 0 < dist <= threshold]. *)
Definition approaching (dist : option Q) (threshold : Q) : bool :=
  match dist with
  | Some d => Qltb 0 d && Qle_bool d threshold
  | None => false
  end.

(** [dist is not None and abs(dist) <= SELL_ALERT_THRESHOLD]. *)
Definition near_sell (dist : option Q) : bool :=
  match dist with
  | Some d => Qle_bool (Qabs d) SELL_ALERT_THRESHOLD
  | None => false
  end.

(** [return status, f"{before}{dist:.1f}{after}"]: formatting [None] with
    [.1f] raises [TypeError]. *)
Definition with_distance (status before : string) (dist : option Q)
    (after : string) : outcome (string * string) :=
  match dist with
  | Some d => Returned (status, before +:+ format_1f d +:+ after)
  | None => Raised "TypeError"
  end.

(** [determine_alert_status(buy_status, close, buy1, buy2, buy3, sell1,
    sell2, sell3, dist_buy1, dist_buy2, dist_buy3, dist_sell1, dist_sell2,
    dist_sell3, threshold)]: the alert status and its message.  The sell
    messages format [abs(dist)]. *)
Definition determine_alert_status (buy_status : string) (close : Q)
    (buy1 buy2 buy3 sell1 sell2 sell3 : option Q)
    (dist_buy1 dist_buy2 dist_buy3 dist_sell1 dist_sell2 dist_sell3 : option Q)
    (threshold : Q) : outcome (string * string) :=
  if String.eqb buy_status BuyStatus.SOLD then
    Returned (AlertStatus.COMPLETED, "매도 완료")
  else if String.eqb buy_status BuyStatus.NONE then
    if approaching dist_buy1 threshold
    then with_distance AlertStatus.READY_BUY1 "1차 매수선까지 " dist_buy1
           "% (접근 중!)"
    else with_distance AlertStatus.WATCHING "1차 매수선까지 " dist_buy1 "%"
  else if String.eqb buy_status BuyStatus.BOUGHT_1 then
    if near_sell dist_sell1
    then with_distance AlertStatus.READY_SELL1 "+3% 매도선까지 "
           (option_map Qabs dist_sell1) "%"
    else if approaching dist_buy2 threshold
    then with_distance AlertStatus.READY_BUY2 "2차 매수선까지 " dist_buy2 "%"
    else with_distance AlertStatus.WAITING "대기 중 (2차선까지 " dist_buy2
           "%)"
  else if String.eqb buy_status BuyStatus.BOUGHT_2 then
    if near_sell dist_sell2
    then with_distance AlertStatus.READY_SELL2 "+5% 매도선까지 "
           (option_map Qabs dist_sell2) "%"
    else if near_sell dist_sell1
    then with_distance AlertStatus.READY_SELL1 "+3% 매도선까지 "
           (option_map Qabs dist_sell1) "%"
    else if approaching dist_buy3 threshold
    then with_distance AlertStatus.READY_BUY3 "3차 매수선까지 " dist_buy3 "%"
    else with_distance AlertStatus.WAITING "대기 중 (3차선까지 " dist_buy3
           "%)"
  else if String.eqb buy_status BuyStatus.BOUGHT_3 then
    if near_sell dist_sell3
    then with_distance AlertStatus.READY_SELL3 "+7% 매도선까지 "
           (option_map Qabs dist_sell3) "%"
    else if near_sell dist_sell2
    then with_distance AlertStatus.READY_SELL2 "+5% 매도선까지 "
           (option_map Qabs dist_sell2) "%"
    else if near_sell dist_sell1
    then with_distance AlertStatus.READY_SELL1 "+3% 매도선까지 "
           (option_map Qabs dist_sell1) "%"
    else Returned (AlertStatus.WAITING, "대기 중")
  else Returned (AlertStatus.WATCHING, "관찰 중").

End AlertMessage.
End Signal.

(** ** Real_Time_Monitor_S1.py *)

Module Monitor.

(** The alert history kept in [alert_history.json]:
    [{"date": ..., "alerts": {ticker: {alert_key: True}}}].  The [date] is
    the epoch key; [history.get("alerts", {})] tolerates a missing entry. *)
Record history : Type := {
  date : string;
  alerts : option (gmap string (gmap string bool))
}.

(** [load_alert_history()]: a stored history of another day (or no stored
    history) is replaced by an empty one. *)
Definition load_alert_history (today : string) (file : option history)
  : history :=
  match file with
  | None => {| date := today; alerts := Some ∅ |}
  | Some h =>
      if decide (date h = today) then h
      else {| date := today; alerts := Some ∅ |}
  end.

(** What one call does to the outside world. *)
Inductive event : Type :=
  | ReadSellPrices (ticker : string)
  | SendRealtimeAlert (alert_key ticker : string)
                      (current_price target_price distance_pct : Q)
  | SaveAlertHistory (h : history).

Definition is_send (e : event) : bool :=
  match e with SendRealtimeAlert _ _ _ _ _ => true | _ => false end.

Definition is_save (e : event) : bool :=
  match e with SaveAlertHistory _ => true | _ => false end.

(** The four condition keys of one buy tier. *)
Record tier : Type := {
  executed_key : string;
  ready1_key : string;
  ready3_key : string;
  ready5_key : string
}.

Definition tier1 : tier :=
  {| executed_key := "BUY1_EXECUTED"; ready1_key := "READY_BUY1_1%";
     ready3_key := "READY_BUY1_3%"; ready5_key := "READY_BUY1_5%" |}.
Definition tier2 : tier :=
  {| executed_key := "BUY2_EXECUTED"; ready1_key := "READY_BUY2_1%";
     ready3_key := "READY_BUY2_3%"; ready5_key := "READY_BUY2_5%" |}.
Definition tier3 : tier :=
  {| executed_key := "BUY3_EXECUTED"; ready1_key := "READY_BUY3_1%";
     ready3_key := "READY_BUY3_3%"; ready5_key := "READY_BUY3_5%" |}.

(** [ticker_alerts.get(alert_key, False)]. *)
Definition fired (ticker_alerts : gmap string bool) (alert_key : string)
  : bool :=
  default false (ticker_alerts !! alert_key).

(** The condition keys recorded for [ticker] in a history. *)
Definition ticker_alerts_of (h : history) (ticker : string)
  : gmap string bool :=
  default ∅ (default ∅ (alerts h) !! ticker).

Section WithRounding.
Variable fl : Q -> Q.

(** [calculate_tick_unit(price)]: the same table once more. *)
Definition calculate_tick_unit (price : Q) : Z :=
  if Qltb price 2000 then 1
  else if Qltb price 5000 then 5
  else if Qltb price 20000 then 10
  else if Qltb price 50000 then 50
  else if Qltb price 200000 then 100
  else if Qltb price 500000 then 500
  else 1000.

(** [get_nearest_tick_price(price)] of the monitor: an on-tick price is
    returned as it is. *)
Definition get_nearest_tick_price (price : Q) : Q :=
  let tick_unit := of_int fl (calculate_tick_unit price) in
  if Qeq_bool (float_rem fl price tick_unit) 0
  then price
  else
    let lower_tick := fmul fl (float_floor_div fl price tick_unit) tick_unit in
    let upper_tick := fadd fl lower_tick tick_unit in
    upper_tick.

(** [calculate_low_price_distance(low_price, target_price)] (the second
    definition in the module, which replaces the first):
<<
    if ... or target_price == 0: return None
    distance_pct = ((low_price - target_price) / target_price) * 100
    if abs(distance_pct) < 1e-10: return 0.0
    return distance_pct
>> *)
Definition calculate_low_price_distance (low_price target_price : Q)
  : option Q :=
  if Qeq_bool target_price 0 then None
  else
    let distance_pct :=
      fmul fl (fdiv fl (fsub fl low_price target_price) target_price) 100 in
    if Qltb (Qabs distance_pct) (fl (1 # 10000000000)) then Some 0
    else Some distance_pct.

(** The block that sends an alert and records its key:
<<
    send_realtime_alert(...)
    ticker_alerts[alert_key] = True
    alerts[ticker] = ticker_alerts
    history["alerts"] = alerts
    save_alert_history(history)
    return True
>> *)
Definition send_and_mark (h : history) (ticker alert_key : string)
    (before : list event) (current_price target_price distance_pct : Q)
  : list event * history * bool :=
  let alerts0 := default ∅ (alerts h) in
  let ticker_alerts := default ∅ (alerts0 !! ticker) in
  let h' := {| date := date h;
               alerts := Some (<[ticker := <[alert_key := true]> ticker_alerts]>
                                 alerts0) |} in
  (before ++ [SendRealtimeAlert alert_key ticker current_price target_price
                distance_pct;
              SaveAlertHistory h'],
   h', true).

(** One of the three branches of [check_simplified_alert] (they differ in
    the keys, the labels and the buy line only).  The comparison
    [None <= 0] raises [TypeError]. *)
Definition check_tier (t : tier) (ticker : string)
    (current_price low_price buy_line : Q) (h : history)
  : outcome (list event * history * bool) :=
  let ticker_alerts := ticker_alerts_of h ticker in
  match calculate_low_price_distance low_price buy_line with
  | None => Raised "TypeError"
  | Some low_dist =>
      if Qle_bool low_dist 0 then
        if negb (fired ticker_alerts (executed_key t))
        then Returned (send_and_mark h ticker (executed_key t)
                         [ReadSellPrices ticker]
                         current_price buy_line low_dist)
        else Returned ([], h, false)
      else if Qltb 0 low_dist && Qle_bool low_dist 1 then
        if negb (fired ticker_alerts (ready1_key t))
        then Returned (send_and_mark h ticker (ready1_key t) []
                         current_price buy_line low_dist)
        else Returned ([], h, false)
      else if Qltb 0 low_dist && Qle_bool low_dist 3 then
        if negb (fired ticker_alerts (ready3_key t))
           && negb (fired ticker_alerts (ready1_key t))
        then Returned (send_and_mark h ticker (ready3_key t) []
                         current_price buy_line low_dist)
        else Returned ([], h, false)
      else if Qltb 0 low_dist && Qle_bool low_dist 5 then
        if negb (fired ticker_alerts (ready5_key t))
           && negb (fired ticker_alerts (ready1_key t))
           && negb (fired ticker_alerts (ready3_key t))
        then Returned (send_and_mark h ticker (ready5_key t) []
                         current_price buy_line low_dist)
        else Returned ([], h, false)
      else Returned ([], h, false)
  end.

(** The branch selected by [buy_status], with the buy line it watches. *)
Definition active_tier (buy_status : string) (b1 b2 b3 : Q)
  : option (tier * Q) :=
  if String.eqb buy_status "NONE" then Some (tier1, b1)
  else if String.eqb buy_status "BOUGHT_1" then Some (tier2, b2)
  else if String.eqb buy_status "BOUGHT_2" then Some (tier3, b3)
  else None.

(** [check_simplified_alert(ticker, stock_name, current_price, low_price,
    buy_status, buy1, buy2, buy3, history)]: the events it causes, the
    history it leaves, and the value it returns. *)
Definition check_simplified_alert (ticker stock_name : string)
    (current_price low_price : Q) (buy_status : string)
    (buy1 buy2 buy3 : option Q) (h : history)
  : outcome (list event * history * bool) :=
  match buy1, buy2, buy3 with
  | Some b1, Some b2, Some b3 =>
      match active_tier buy_status b1 b2 b3 with
      | Some (t, buy_line) =>
          check_tier t ticker current_price low_price buy_line h
      | None => Returned ([], h, false)
      end
  | _, _, _ => Returned ([], h, false)
  end.

(** [get_one_tick_up_price(price)] of the monitor. *)
Definition get_one_tick_up_price (price : Q) : Q :=
  let nearest_tick := get_nearest_tick_price price in
  let tick_unit := calculate_tick_unit nearest_tick in
  fadd fl nearest_tick (of_int fl tick_unit).

(** [calculate_monitoring_interval(current_price, envelope)], in seconds:
<<
    if current_price is None or envelope is None or envelope == 0:
        return 600
    distance_pct = ((current_price - envelope) / envelope) * 100
    if distance_pct <= 1.0: return 60
    elif distance_pct <= 3.0: return 180
    elif distance_pct <= 10.0: return 600
    else: return 1800
>> *)
Definition calculate_monitoring_interval (current_price envelope : option Q)
  : Z :=
  match current_price, envelope with
  | Some c, Some e =>
      if Qeq_bool e 0 then 600
      else
        let distance_pct := fmul fl (fdiv fl (fsub fl c e) e) 100 in
        if Qle_bool distance_pct 1 then 60
        else if Qle_bool distance_pct 3 then 180
        else if Qle_bool distance_pct 10 then 600
        else 1800
  | _, _ => 600
  end.

End WithRounding.
End Monitor.

(** ** trading_day_utils.py *)

Module TradingDay.

(** A [datetime.date] is modelled by its proleptic Gregorian ordinal
    ([date.toordinal()]): [date.min] is 1 and [date.max] is 3652059.  The
    default argument [None] of the functions stands for today's date, which
    the caller passes here. *)
Definition MINORDINAL : Z := 1.
Definition MAXORDINAL : Z := 3652059.

(** [d.weekday()]: Monday is 0, Sunday is 6. *)
Definition weekday (d : Z) : Z := ((d + 6) mod 7)%Z.

(** [(datetime.combine(d, datetime.min.time()) + timedelta(days=n)).date()]:
    [OverflowError] outside the range of dates. *)
Definition add_days (d n : Z) : outcome Z :=
  let r := (d + n)%Z in
  if ((r <? MINORDINAL) || (MAXORDINAL <? r))%Z then Raised "OverflowError"
  else Returned r.

Section WithCalendar.

(** [check_date in holidays.SouthKorea()]: the calendar of the [holidays]
    package. *)
Variable kr_holidays : Z -> bool.

(** [is_weekend(check_date)]: [check_date.weekday() >= 5]. *)
Definition is_weekend (check_date : Z) : bool := (5 <=? weekday check_date)%Z.

(** [is_holiday(check_date)]. *)
Definition is_holiday (check_date : Z) : bool := kr_holidays check_date.

(** [is_trading_day(check_date)]. *)
Definition is_trading_day (check_date : Z) : bool :=
  if is_weekend check_date then false
  else if is_holiday check_date then false
  else true.

(** The dict returned by [get_trading_day_info]. *)
Record trading_day_info : Type := {
  info_date : Z;
  info_is_trading_day : bool;
  info_is_weekend : bool;
  info_is_holiday : bool;
  info_reason : option string
}.

(** [get_trading_day_info(check_date)]. *)
Definition get_trading_day_info (check_date : Z) : trading_day_info :=
  let is_weekend_flag := is_weekend check_date in
  let is_holiday_flag := is_holiday check_date in
  let is_trading_day_flag := is_trading_day check_date in
  let reason :=
    if negb is_trading_day_flag then
      if is_weekend_flag && is_holiday_flag then Some "주말 + 공휴일"
      else if is_weekend_flag then Some "주말"
      else if is_holiday_flag then Some "공휴일"
      else None
    else None in
  {| info_date := check_date;
     info_is_trading_day := is_trading_day_flag;
     info_is_weekend := is_weekend_flag;
     info_is_holiday := is_holiday_flag;
     info_reason := reason |}.

(** The loop of [get_next_trading_day]:
<<
    while True:
        next_date = (datetime.combine(next_date, ...) + timedelta(days=1)).date()
        if is_trading_day(next_date): return next_date
>> *)
Fixpoint next_trading_day_loop (fuel : nat) (next_date : Z) : outcome Z :=
  match fuel with
  | O => Iterating
  | S fuel' =>
      match add_days next_date 1 with
      | Returned next_date' =>
          if is_trading_day next_date' then Returned next_date'
          else next_trading_day_loop fuel' next_date'
      | Raised e => Raised e
      | Iterating => Iterating
      end
  end.

(** [get_next_trading_day(start_date)], with at most [fuel] passes. *)
Definition get_next_trading_day (fuel : nat) (start_date : Z) : outcome Z :=
  next_trading_day_loop fuel start_date.

(** The loop of [get_previous_trading_day]:
<<
    while True:
        if is_trading_day(prev_date): return prev_date
        prev_date = (datetime.combine(prev_date, ...) - timedelta(days=1)).date()
        if (start_date - prev_date).days > 7: return start_date
>> *)
Fixpoint previous_trading_day_loop (fuel : nat) (start_date prev_date : Z)
  : outcome Z :=
  match fuel with
  | O => Iterating
  | S fuel' =>
      if is_trading_day prev_date then Returned prev_date
      else
        match add_days prev_date (-1) with
        | Returned prev_date' =>
            if (7 <? start_date - prev_date')%Z then Returned start_date
            else previous_trading_day_loop fuel' start_date prev_date'
        | Raised e => Raised e
        | Iterating => Iterating
        end
  end.

(** [get_previous_trading_day(start_date)], with at most [fuel] passes. *)
Definition get_previous_trading_day (fuel : nat) (start_date : Z)
  : outcome Z :=
  previous_trading_day_loop fuel start_date start_date.

End WithCalendar.
End TradingDay.

(** ** Vocabulary of the statements *)

(** [x] is (the value of) a binary64 number. *)
Definition is_float (x : Q) : Prop := Binary64.fl x == x.

(** The tick table on integers. *)
Definition tickZ (n : Z) : Z :=
  if (n <? 2000)%Z then 1
  else if (n <? 5000)%Z then 5
  else if (n <? 20000)%Z then 10
  else if (n <? 50000)%Z then 50
  else if (n <? 200000)%Z then 100
  else if (n <? 500000)%Z then 500
  else 1000.

(** [alert_key] is recorded as fired for [ticker] in the history [h]. *)
Definition marked (h : Monitor.history) (ticker alert_key : string)
  : bool :=
  Monitor.fired (Monitor.ticker_alerts_of h ticker) alert_key.

(** The envelope [((S19 + p) / 20) * 0.8] of [verify_contact_price], in
    binary64. *)
Definition envelope (S19 : Q) (p : Z) : Q :=
  fmul Binary64.fl
    (fdiv Binary64.fl (fadd Binary64.fl S19 (of_int Binary64.fl p)) 20)
    (Binary64.fl (8 # 10)).

(** The sums the solver is used on: binary64 values from 1 to 10^15. *)
Definition realistic_sum (S19 : Q) : Prop :=
  is_float S19 /\ 1 <= S19 /\ S19 <= 1000000000000000.

(** The possible results of one branch. *)
Inductive tier_result (t : Monitor.tier) (ticker : string) (h : Monitor.history)
  : outcome (list Monitor.event * Monitor.history * bool) -> Prop :=
  | tier_type_error : tier_result t ticker h (Raised "TypeError")
  | tier_quiet : tier_result t ticker h (Returned ([], h, false))
  | tier_fires key before cur tgt d :
      In key [Monitor.executed_key t; Monitor.ready1_key t;
              Monitor.ready3_key t; Monitor.ready5_key t] ->
      marked h ticker key = false ->
      (before = [] \/ before = [Monitor.ReadSellPrices ticker]) ->
      tier_result t ticker h
        (Returned (Monitor.send_and_mark h ticker key before cur tgt d)).

(** The distance in percent computed by [calculate_low_price_distance] of
    the monitor and by [calculate_distance_pct] of the signal system for a
    non-zero target, in binary64: clamped to zero below 1e-10. *)
Definition clamped_distance (c t : Q) : Q :=
  let distance_pct :=
    fmul Binary64.fl (fdiv Binary64.fl (fsub Binary64.fl c t) t) 100 in
  if Qltb (Qabs distance_pct) (Binary64.fl (1 # 10000000000)) then 0
  else distance_pct.

(** The sum of a list of integers. *)
Definition Zsum (l : list Z) : Z := fold_right Z.add 0%Z l.

(** The history [h1] is [h] with one more key recorded for [ticker], under
    the same date. *)
Definition history_marks (h h1 : Monitor.history) (ticker alert_key : string)
  : Prop :=
  Monitor.date h1 = Monitor.date h /\
  forall tk k, marked h1 tk k =
               if decide (tk = ticker /\ k = alert_key) then true
               else marked h tk k.

(** The content of [alert_history.json] after the events of a call, when it
    was [file] before: [save_alert_history] overwrites the file. *)
Definition stored_history (file : option Monitor.history)
    (evs : list Monitor.event) : option Monitor.history :=
  fold_left (fun f e => match e with
                        | Monitor.SaveAlertHistory h => Some h
                        | _ => f
                        end) evs file.

(** * Facts *)

(** ** Boolean comparisons *)

Section Comparisons.

Lemma Qltb_true x y : Qltb x y = true <-> x < y.
Proof.
  unfold Qltb. rewrite negb_true_iff. split.
  - intros H. apply Qnot_le_lt. intros C. apply Qle_bool_iff in C. congruence.
  - intros H. destruct (Qle_bool y x) eqn:E; [|reflexivity].
    apply Qle_bool_iff in E. lra.
Qed.

Lemma Qltb_false x y : Qltb x y = false <-> y <= x.
Proof. unfold Qltb. rewrite negb_false_iff. apply Qle_bool_iff. Qed.

Lemma Qle_bool_false x y : Qle_bool x y = false <-> y < x.
Proof.
  split.
  - intros H. apply Qnot_le_lt. intros C. apply Qle_bool_iff in C. congruence.
  - intros H. destruct (Qle_bool x y) eqn:E; [|reflexivity].
    apply Qle_bool_iff in E. lra.
Qed.

Lemma Qeq_bool_false x y : Qeq_bool x y = false <-> ~ x == y.
Proof.
  split.
  - intros H C. apply Qeq_eq_bool in C. congruence.
  - intros H. destruct (Qeq_bool x y) eqn:E; [|reflexivity].
    apply Qeq_bool_eq in E. contradiction.
Qed.

End Comparisons.

(** ** Binary64 rounding *)

Section Binary64Facts.
Import Binary64.

Lemma pow2_pos s : 0 < pow2 s.
Proof. unfold pow2. apply Qpower_0_lt. reflexivity. Qed.

Lemma pow2_add a b : pow2 (a + b) == pow2 a * pow2 b.
Proof. unfold pow2. apply Qpower_plus. discriminate. Qed.

Lemma pow2_sub a b : pow2 (a - b) == pow2 a / pow2 b.
Proof. unfold pow2. apply Qpower_minus. discriminate. Qed.

Lemma pow2_le a b : (a <= b)%Z -> pow2 a <= pow2 b.
Proof. intros H. unfold pow2. apply Qpower_le_compat_l; [exact H | discriminate]. Qed.

Lemma pow2_lt a b : (a < b)%Z -> pow2 a < pow2 b.
Proof. intros H. unfold pow2. apply Qpower_lt_compat_l; [exact H | reflexivity]. Qed.

Lemma pow2_lt_inv a b : pow2 a < pow2 b -> (a < b)%Z.
Proof. intros H. unfold pow2 in H. apply Qpower_lt_compat_l_inv in H; [exact H | reflexivity]. Qed.

Lemma pow2_Z s : (0 <= s)%Z -> pow2 s == inject_Z (2 ^ s).
Proof. intros H. unfold pow2. rewrite Zpower_Qpower by exact H. reflexivity. Qed.

Lemma pow2_succ s : pow2 (s + 1) == 2 * pow2 s.
Proof. rewrite pow2_add. unfold pow2 at 2. simpl. ring. Qed.

Lemma pow2_pred s : pow2 (s - 1) == pow2 s / 2.
Proof. rewrite pow2_sub. unfold pow2 at 2. simpl. reflexivity. Qed.

Lemma binade_bounds_raw (a : positive) (b : positive) :
  let e0 := (Z.log2 (Zpos a) - Z.log2 (Zpos b))%Z in
  pow2 (e0 - 1) < Zpos a # b /\ Zpos a # b < pow2 (e0 + 1).
Proof.
  intros e0.
  destruct (Z.log2_spec (Zpos a)) as [Ha1 Ha2]; [lia|].
  destruct (Z.log2_spec (Zpos b)) as [Hb1 Hb2]; [lia|].
  pose proof (Z.log2_nonneg (Zpos a)) as Hla.
  pose proof (Z.log2_nonneg (Zpos b)) as Hlb.
  set (la := Z.log2 (Zpos a)) in *. set (lb := Z.log2 (Zpos b)) in *.
  assert (Hx : Zpos a # b == inject_Z (Zpos a) / inject_Z (Zpos b)) by (apply Qmake_Qdiv).
  assert (HA : inject_Z (2 ^ la) <= inject_Z (Zpos a)) by (rewrite <- Zle_Qle; exact Ha1).
  assert (HA' : inject_Z (Zpos a) < inject_Z (2 ^ Z.succ la)) by (rewrite <- Zlt_Qlt; exact Ha2).
  assert (HB : inject_Z (2 ^ lb) <= inject_Z (Zpos b)) by (rewrite <- Zle_Qle; exact Hb1).
  assert (HB' : inject_Z (Zpos b) < inject_Z (2 ^ Z.succ lb)) by (rewrite <- Zlt_Qlt; exact Hb2).
  rewrite <- !pow2_Z in HA, HA', HB, HB' by lia.
  replace (Z.succ la) with (la + 1)%Z in * by lia.
  replace (Z.succ lb) with (lb + 1)%Z in * by lia.
  assert (Hbpos : 0 < inject_Z (Zpos b)) by (unfold Qlt; simpl; lia).
  pose proof (pow2_pos la). pose proof (pow2_pos lb).
  unfold e0.
  split.
  - replace (la - lb - 1)%Z with (la - (lb + 1))%Z by lia.
    rewrite pow2_sub, Hx.
    apply Qlt_shift_div_l; [exact Hbpos|].
    pose proof (pow2_pos (lb + 1)).
    assert (pow2 la / pow2 (lb + 1) * inject_Z (Z.pos b) == pow2 la * (inject_Z (Z.pos b) / pow2 (lb + 1))) as -> by (field; lra).
    assert (inject_Z (Z.pos b) / pow2 (lb + 1) < 1).
    { apply Qlt_shift_div_r; lra. }
    nra.
  - replace (la - lb + 1)%Z with ((la + 1) - lb)%Z by lia.
    rewrite pow2_sub, Hx.
    apply Qlt_shift_div_r; [exact Hbpos|].
    pose proof (pow2_pos (la + 1)).
    assert (pow2 (la + 1) / pow2 lb * inject_Z (Z.pos b) == pow2 (la + 1) * (inject_Z (Z.pos b) / pow2 lb)) as -> by (field; lra).
    assert (1 <= inject_Z (Z.pos b) / pow2 lb).
    { apply Qle_shift_div_l; lra. }
    nra.
Qed.

Lemma binade_spec x : 0 < x -> pow2 (binade x) <= x /\ x < pow2 (binade x + 1).
Proof.
  intros Hx. destruct x as [a b].
  assert (Ha : (0 < a)%Z) by (unfold Qlt in Hx; simpl in Hx; lia).
  destruct a as [|a|a]; try lia.
  destruct (binade_bounds_raw a b) as [H1 H2].
  unfold binade. cbn [Qnum Qden].
  set (e0 := (Z.log2 (Z.pos a) - Z.log2 (Z.pos b))%Z) in *.
  destruct (Qle_bool (pow2 e0) (Z.pos a # b)) eqn:E.
  - apply Qle_bool_iff in E. split; assumption.
  - assert (~ pow2 e0 <= Z.pos a # b) as N.
    { intros C. apply Qle_bool_iff in C. congruence. }
    apply Qnot_le_lt in N. split; [apply Qlt_le_weak; exact H1|].
    replace (e0 - 1 + 1)%Z with e0 by lia. exact N.
Qed.

Lemma binade_unique x e : pow2 e <= x -> x < pow2 (e + 1) -> binade x = e.
Proof.
  intros H1 H2.
  assert (Hx : 0 < x) by (pose proof (pow2_pos e); lra).
  destruct (binade_spec x Hx) as [B1 B2].
  assert (pow2 e < pow2 (binade x + 1)) as L1 by lra.
  assert (pow2 (binade x) < pow2 (e + 1)) as L2 by lra.
  apply pow2_lt_inv in L1, L2. lia.
Qed.

Lemma binade_comp x y : 0 < x -> x == y -> binade x = binade y.
Proof.
  intros Hx E. destruct (binade_spec x Hx) as [B1 B2].
  symmetry. apply binade_unique; rewrite <- E; assumption.
Qed.

Lemma binade_mono x y : 0 < x -> x <= y -> (binade x <= binade y)%Z.
Proof.
  intros Hx L.
  destruct (binade_spec x Hx) as [B1 B2].
  destruct (binade_spec y) as [C1 C2]; [lra|].
  assert (pow2 (binade x) < pow2 (binade y + 1)) as L1 by lra.
  apply pow2_lt_inv in L1. lia.
Qed.

Lemma round_half_even_comp q q' : q == q' -> round_half_even q = round_half_even q'.
Proof.
  intros E. unfold round_half_even.
  rewrite (Qfloor_comp _ _ E).
  assert (Qcompare (q - inject_Z (Qfloor q')) (1 # 2) = Qcompare (q' - inject_Z (Qfloor q')) (1 # 2)) as ->.
  { apply Qcompare_comp; [rewrite E; reflexivity | reflexivity]. }
  reflexivity.
Qed.

Lemma round_half_even_error q :
  Qabs (inject_Z (round_half_even q) - q) <= 1 # 2.
Proof.
  unfold round_half_even.
  pose proof (Qfloor_le q) as F1. pose proof (Qlt_floor q) as F2.
  set (f := Qfloor q) in *.
  rewrite inject_Z_plus in F2. change (inject_Z 1) with 1 in F2.
  apply Qabs_Qle_condition.
  destruct (Qcompare (q - inject_Z f) (1 # 2)) eqn:C.
  - apply (proj2 (Qeq_alt _ _)) in C.
    destruct (Z.even f); rewrite ?inject_Z_plus; change (inject_Z 1) with 1; lra.
  - apply (proj2 (Qlt_alt _ _)) in C. lra.
  - apply (proj2 (Qgt_alt _ _)) in C. rewrite inject_Z_plus. change (inject_Z 1) with 1. lra.
Qed.

Lemma round_half_even_le q (M : Z) : q <= inject_Z M -> (round_half_even q <= M)%Z.
Proof.
  intros H. unfold round_half_even.
  pose proof (Qfloor_le q) as F1.
  generalize dependent (Qfloor q). intros f F1.
  assert (Hf : (f <= M)%Z) by (rewrite Zle_Qle; lra).
  destruct (Z.eq_dec f M) as [E|Hne].
  - subst f.
    assert (Qcompare (q - inject_Z M) (1 # 2) = Lt) as -> by (apply (proj1 (Qlt_alt _ _)); lra). lia.
  - destruct (Qcompare (q - inject_Z f) (1 # 2)); [destruct (Z.even f)| |]; lia.
Qed.

Lemma round_half_even_ge q (M : Z) : inject_Z M <= q -> (M <= round_half_even q)%Z.
Proof.
  intros H. unfold round_half_even.
  assert (Hf : (M <= Qfloor q)%Z).
  { rewrite <- (Qfloor_Z M). apply Qfloor_resp_le. exact H. }
  set (f := Qfloor q) in *.
  destruct (Qcompare (q - inject_Z f) (1 # 2)); [destruct (Z.even f)| |]; lia.
Qed.

Lemma round_half_even_Z (M : Z) : round_half_even (inject_Z M) = M.
Proof.
  apply Z.le_antisymm; [apply round_half_even_le | apply round_half_even_ge]; lra.
Qed.

Lemma round_half_even_near_above q (M : Z) :
  inject_Z M <= q -> q < inject_Z M + (1 # 2) -> round_half_even q = M.
Proof.
  intros H1 H2. unfold round_half_even.
  assert (Hf : Qfloor q = M).
  { apply Z.le_antisymm.
    - assert (Qfloor q < M + 1)%Z; [|lia].
      rewrite Zlt_Qlt, inject_Z_plus. pose proof (Qfloor_le q). change (inject_Z 1) with 1. lra.
    - rewrite <- (Qfloor_Z M). apply Qfloor_resp_le. exact H1. }
  rewrite Hf.
  assert (Qcompare (q - inject_Z M) (1 # 2) = Lt) as -> by (apply (proj1 (Qlt_alt _ _)); lra).
  reflexivity.
Qed.

(** *** The rounding itself *)

Lemma Qabs_pos_eq x : 0 < x -> Qabs x = x.
Proof.
  intros H. destruct x as [a b]. unfold Qlt in H. simpl in H.
  unfold Qabs. f_equal. lia.
Qed.

Lemma fl_pos_unfold x : 0 < x ->
  fl x = inject_Z (round_half_even (x / pow2 (ulp_exp x))) * pow2 (ulp_exp x).
Proof.
  intros H. unfold fl.
  destruct (Qeq_bool x 0) eqn:E; [|reflexivity].
  apply Qeq_bool_eq in E. lra.
Qed.

Lemma ulp_exp_pos x : 0 < x -> ulp_exp x = Z.max (binade x - 52) (-1074).
Proof. intros H. unfold ulp_exp. rewrite Qabs_pos_eq by exact H. reflexivity. Qed.

Lemma ulp_exp_comp x y : 0 < x -> x == y -> ulp_exp x = ulp_exp y.
Proof.
  intros H E. rewrite !ulp_exp_pos by lra. rewrite (binade_comp x y H E). reflexivity.
Qed.

Lemma ulp_exp_mono x y : 0 < x -> x <= y -> (ulp_exp x <= ulp_exp y)%Z.
Proof.
  intros H L. rewrite !ulp_exp_pos by lra. pose proof (binade_mono x y H L). lia.
Qed.

Lemma Qabs_pos_nz x : ~ x == 0 -> 0 < Qabs x.
Proof.
  destruct x as [a b]. unfold Qeq, Qlt, Qabs. simpl. lia.
Qed.

Lemma fl_comp x y : x == y -> fl x == fl y.
Proof.
  intros E. unfold fl.
  destruct (Qeq_bool x 0) eqn:X0; destruct (Qeq_bool y 0) eqn:Y0.
  - reflexivity.
  - apply Qeq_bool_eq in X0. assert (y == 0) as C by (rewrite <- E; exact X0).
    apply Qeq_eq_bool in C. congruence.
  - apply Qeq_bool_eq in Y0. assert (x == 0) as C by (rewrite E; exact Y0).
    apply Qeq_eq_bool in C. congruence.
  - assert (Hne : ~ x == 0) by (intros C; apply Qeq_eq_bool in C; congruence).
    assert (Hs : ulp_exp x = ulp_exp y).
    { unfold ulp_exp. f_equal. f_equal.
      apply binade_comp; [apply Qabs_pos_nz; exact Hne | rewrite E; reflexivity]. }
    rewrite Hs.
    rewrite (round_half_even_comp (x / pow2 (ulp_exp y)) (y / pow2 (ulp_exp y)))
      by (rewrite E; reflexivity).
    reflexivity.
Qed.

Lemma fl_0 : fl 0 = 0.
Proof. reflexivity. Qed.

(** Half an ulp bounds the rounding error. *)
Lemma fl_error x : 0 < x -> Qabs (fl x - x) <= pow2 (ulp_exp x - 1).
Proof.
  intros H. rewrite fl_pos_unfold by exact H.
  set (s := ulp_exp x).
  pose proof (pow2_pos s) as Hs.
  pose proof (round_half_even_error (x / pow2 s)) as R.
  apply Qabs_Qle_condition in R. apply Qabs_Qle_condition.
  set (r := inject_Z (round_half_even (x / pow2 s))) in *.
  rewrite pow2_pred.
  assert (Hx : x == x / pow2 s * pow2 s) by (field; lra).
  set (q := x / pow2 s) in *.
  assert (Hh : pow2 s / 2 == (1 # 2) * pow2 s) by field.
  rewrite Hh. clear Hh.
  destruct R as [R1 R2]. split; nra.
Qed.

(** In the normal range the relative error is at most 2^-53. *)
Lemma fl_rel_error x : pow2 (-1022) <= x -> Qabs (fl x - x) <= x * pow2 (-53).
Proof.
  intros H.
  assert (Hx : 0 < x) by (pose proof (pow2_pos (-1022)); lra).
  eapply Qle_trans; [apply fl_error; exact Hx|].
  destruct (binade_spec x Hx) as [B1 B2].
  assert (Hb : (-1022 <= binade x)%Z).
  { assert (pow2 (-1022) < pow2 (binade x + 1)) as L by lra.
    apply pow2_lt_inv in L. lia. }
  rewrite ulp_exp_pos by exact Hx.
  replace (Z.max (binade x - 52) (-1074) - 1)%Z with (binade x + -53)%Z by lia.
  rewrite pow2_add. pose proof (pow2_pos (-53)). nra.
Qed.

(** Values m * 2^s with |m| < 2^53 and s >= -1074 are floats. *)
Lemma fl_repr_exact (m s : Z) :
  (0 < m < 2 ^ 53)%Z -> (-1074 <= s)%Z ->
  fl (inject_Z m * pow2 s) == inject_Z m * pow2 s.
Proof.
  intros Hm Hs.
  set (x := inject_Z m * pow2 s).
  pose proof (pow2_pos s) as Ps.
  assert (Hm1 : 1 <= inject_Z m) by (change 1 with (inject_Z 1); rewrite <- Zle_Qle; lia).
  assert (Hm2 : inject_Z m < pow2 53).
  { rewrite pow2_Z by lia. rewrite <- Zlt_Qlt. lia. }
  assert (Hx : 0 < x) by (unfold x; nra).
  rewrite fl_pos_unfold by exact Hx.
  destruct (binade_spec x Hx) as [B1 B2].
  assert (Hb : (binade x < 53 + s)%Z).
  { assert (pow2 (binade x) < pow2 (53 + s)) as L.
    { rewrite (pow2_add 53 s).
      assert (x < pow2 53 * pow2 s) as Lx.
      { unfold x. apply Qmult_lt_compat_r; assumption. }
      lra. }
    apply pow2_lt_inv in L. exact L. }
  assert (Hu : (ulp_exp x <= s)%Z) by (rewrite ulp_exp_pos by exact Hx; lia).
  set (u := ulp_exp x) in *.
  assert (Hq : x / pow2 u == inject_Z (m * 2 ^ (s - u))).
  { unfold x. rewrite inject_Z_mult, <- pow2_Z by lia.
    rewrite pow2_sub. pose proof (pow2_pos u). field. lra. }
  rewrite (round_half_even_comp _ _ Hq), round_half_even_Z.
  rewrite inject_Z_mult, <- pow2_Z by lia.
  rewrite pow2_sub. pose proof (pow2_pos u). unfold x. field. lra.
Qed.

Lemma fl_int_exact (n : Z) : (0 <= n < 2 ^ 53)%Z -> fl (inject_Z n) == inject_Z n.
Proof.
  intros H. destruct (Z.eq_dec n 0%Z) as [->|Hn]; [reflexivity|].
  assert (E : inject_Z n == inject_Z n * pow2 0) by (unfold pow2; simpl; ring).
  rewrite (fl_comp _ _ E). rewrite fl_repr_exact by lia. symmetry. exact E.
Qed.

Lemma fl_grid x : 0 < x -> fl x == x ->
  exists m : Z, x == inject_Z m * pow2 (ulp_exp x).
Proof.
  intros H E. rewrite fl_pos_unfold in E by exact H.
  eexists. symmetry. exact E.
Qed.

(** Rounding never crosses a float: upper bounds. *)
Lemma fl_le_repr x c : 0 < x -> x <= c -> fl c == c -> fl x <= c.
Proof.
  intros Hx L Hc.
  assert (Hc0 : 0 < c) by lra.
  destruct (fl_grid c Hc0 Hc) as [mc Emc].
  pose proof (ulp_exp_mono x c Hx L) as Hs.
  rewrite fl_pos_unfold by exact Hx.
  set (s := ulp_exp x) in *. set (sc := ulp_exp c) in *.
  pose proof (pow2_pos s) as Ps.
  assert (Ec : c == inject_Z (mc * 2 ^ (sc - s)) * pow2 s).
  { rewrite Emc, inject_Z_mult, <- pow2_Z by lia. rewrite pow2_sub. field. lra. }
  assert (Hq : x / pow2 s <= inject_Z (mc * 2 ^ (sc - s))).
  { apply Qle_shift_div_r; [exact Ps|]. rewrite <- Ec. exact L. }
  apply round_half_even_le in Hq. rewrite Zle_Qle in Hq.
  rewrite Ec. apply Qmult_le_compat_r; [exact Hq | lra].
Qed.

(** Rounding never crosses a float: lower bounds. *)
Lemma fl_ge_repr x c : 0 < c -> c <= x -> fl c == c -> c <= fl x.
Proof.
  intros Hc0 L Hc.
  assert (Hx : 0 < x) by lra.
  destruct (fl_grid c Hc0 Hc) as [mc Emc].
  pose proof (ulp_exp_mono c x Hc0 L) as Hs.
  pose proof (binade_mono c x Hc0 L) as Hb.
  rewrite fl_pos_unfold by exact Hx.
  destruct (binade_spec x Hx) as [X1 X2].
  destruct (binade_spec c Hc0) as [C1 C2].
  rewrite ulp_exp_pos in * by assumption.
  set (ex := binade x) in *. set (ec := binade c) in *.
  set (s := Z.max (ex - 52) (-1074)) in *.
  pose proof (pow2_pos s) as Ps.
  destruct (Z.eq_dec (Z.max (ec - 52) (-1074)) s) as [Es|Ns].
  - rewrite Es in Emc.
    assert (Hq : inject_Z mc <= x / pow2 s).
    { apply Qle_shift_div_l; [exact Ps|]. rewrite <- Emc. exact L. }
    apply round_half_even_ge in Hq. rewrite Zle_Qle in Hq.
    rewrite Emc. apply Qmult_le_compat_r; [exact Hq | lra].
  - assert (Hlt : (ec < ex)%Z) by lia.
    assert (Hsx : s = (ex - 52)%Z) by lia.
    assert (Hq : inject_Z (2 ^ 52) <= x / pow2 s).
    { apply Qle_shift_div_l; [exact Ps|].
      rewrite <- pow2_Z by lia. rewrite <- pow2_add.
      replace (52 + s)%Z with ex by lia. exact X1. }
    apply round_half_even_ge in Hq. rewrite Zle_Qle in Hq.
    assert (c < pow2 ex) as Lc.
    { eapply Qlt_le_trans; [exact C2|]. apply pow2_le. lia. }
    assert (pow2 ex == inject_Z (2 ^ 52) * pow2 s) as E52.
    { rewrite <- pow2_Z by lia. rewrite <- pow2_add. replace (52 + s)%Z with ex by lia. reflexivity. }
    apply Qlt_le_weak. eapply Qlt_le_trans; [exact Lc|].
    rewrite E52. apply Qmult_le_compat_r; [exact Hq | lra].
Qed.

Lemma fl_nonneg x : 0 <= x -> 0 <= fl x.
Proof.
  intros H. destruct (Qeq_dec x 0) as [E|N].
  - rewrite (fl_comp _ _ E). rewrite fl_0. lra.
  - assert (Hx : 0 < x) by (destruct (Qlt_le_dec 0 x); [assumption | exfalso; apply N; lra]).
    rewrite fl_pos_unfold by exact Hx.
    pose proof (pow2_pos (ulp_exp x)) as Ps.
    assert (Hq : inject_Z 0 <= x / pow2 (ulp_exp x)).
    { apply Qle_shift_div_l; [exact Ps|]. change (inject_Z 0) with 0. lra. }
    apply round_half_even_ge in Hq. rewrite Zle_Qle in Hq. change (inject_Z 0) with 0 in Hq.
    apply Qmult_le_0_compat; lra.
Qed.

(** An integer absorbs a relative excess of 2^-54. *)
Lemma fl_le_int_slack (P : Z) y :
  (0 < P < 2 ^ 52)%Z -> 0 < y -> y <= inject_Z P * (1 + pow2 (-54)) ->
  fl y <= inject_Z P.
Proof.
  intros HP Hy L.
  destruct (Qlt_le_dec (inject_Z P) y) as [G|G].
  2:{ apply fl_le_repr; [exact Hy | exact G | apply fl_int_exact; lia]. }
  assert (HP0 : 0 < inject_Z P) by (change 0 with (inject_Z 0); rewrite <- Zlt_Qlt; lia).
  destruct (Z.log2_spec P) as [E1 E2]; [lia|].
  pose proof (Z.log2_nonneg P) as E0.
  set (e := Z.log2 P) in *.
  assert (He : (e < 52)%Z).
  { destruct (Z_lt_le_dec e 52) as [l|l]; [exact l|].
    pose proof (Z.pow_le_mono_r 2 52 e ltac:(lia) l). lia. }
  assert (Hsm : inject_Z P * pow2 (-54) < 1).
  { assert (inject_Z P < pow2 54) as L54.
    { rewrite pow2_Z by lia. rewrite <- Zlt_Qlt. lia. }
    assert (pow2 54 * pow2 (-54) == 1) as E54 by (rewrite <- pow2_add; reflexivity).
    pose proof (pow2_pos (-54)). nra. }
  assert (Hy2 : y < pow2 (e + 1)).
  { rewrite pow2_Z by lia.
    assert (inject_Z (P + 1) <= inject_Z (2 ^ (e + 1))) as L1.
    { rewrite <- Zle_Qle. replace (e + 1)%Z with (Z.succ e) by lia. lia. }
    rewrite inject_Z_plus in L1. change (inject_Z 1) with 1 in L1. lra. }
  assert (Hy1 : pow2 e <= y).
  { rewrite pow2_Z by lia. apply Qlt_le_weak. eapply Qle_lt_trans; [|exact G].
    rewrite <- Zle_Qle. exact E1. }
  pose proof (binade_unique y e Hy1 Hy2) as Hb.
  rewrite fl_pos_unfold by exact Hy.
  rewrite ulp_exp_pos by exact Hy. rewrite Hb.
  replace (Z.max (e - 52) (-1074)) with (e - 52)%Z by lia.
  set (s := (e - 52)%Z).
  pose proof (pow2_pos s) as Ps.
  assert (EP : inject_Z P == inject_Z (P * 2 ^ (52 - e)) * pow2 s).
  { rewrite inject_Z_mult, <- pow2_Z by lia. unfold s.
    setoid_rewrite <- Qmult_assoc. rewrite <- pow2_add.
    replace (52 - e + (e - 52))%Z with 0%Z by lia. unfold pow2 at 1. simpl. ring. }
  set (M := (P * 2 ^ (52 - e))%Z) in *.
  assert (HM : inject_Z M < pow2 53).
  { assert (inject_Z M == inject_Z P * pow2 (52 - e)) as ->.
    { unfold M. rewrite inject_Z_mult, <- pow2_Z by lia. reflexivity. }
    assert (inject_Z P < pow2 (e + 1)) as LP.
    { rewrite pow2_Z by lia. rewrite <- Zlt_Qlt. replace (e + 1)%Z with (Z.succ e) by lia. exact E2. }
    assert (pow2 53 == pow2 (e + 1) * pow2 (52 - e)) as ->.
    { rewrite <- pow2_add. replace (e + 1 + (52 - e))%Z with 53%Z by lia. reflexivity. }
    apply Qmult_lt_compat_r; [apply pow2_pos | exact LP]. }
  assert (Hq : round_half_even (y / pow2 s) = M).
  { apply round_half_even_near_above.
    - apply Qle_shift_div_l; [exact Ps|]. rewrite <- EP. lra.
    - apply Qlt_shift_div_r; [exact Ps|].
      assert (pow2 53 * pow2 (-54) == 1 # 2) as E54 by (rewrite <- pow2_add; reflexivity).
      pose proof (pow2_pos (-54)) as P54.
      assert (inject_Z M * pow2 (-54) < 1 # 2) as Hh by nra.
      assert (y <= inject_Z M * pow2 s * (1 + pow2 (-54))) as Ly by (rewrite <- EP; exact L).
      nra. }
  rewrite Hq, <- EP. lra.
Qed.

#[global] Instance fl_Proper : Proper (Qeq ==> Qeq) fl.
Proof. intros x y E. apply fl_comp. exact E. Qed.

Lemma fl_idem x : 0 <= x -> fl (fl x) == fl x.
Proof.
  intros H0. destruct (Qeq_dec x 0) as [E|N].
  { rewrite E. reflexivity. }
  assert (Hx : 0 < x) by (destruct (Qlt_le_dec 0 x); [assumption | exfalso; apply N; lra]).
  rewrite (fl_pos_unfold x Hx).
  destruct (binade_spec x Hx) as [B1 B2].
  pose proof (ulp_exp_pos x Hx) as Hs.
  set (s := ulp_exp x) in *.
  pose proof (pow2_pos s) as Ps.
  assert (Hq1 : inject_Z 0 <= x / pow2 s).
  { apply Qle_shift_div_l; [exact Ps|]. change (inject_Z 0) with 0. lra. }
  assert (Hq2 : x / pow2 s <= inject_Z (2 ^ 53)).
  { apply Qle_shift_div_r; [exact Ps|].
    rewrite <- pow2_Z by lia. rewrite <- pow2_add.
    apply Qlt_le_weak. eapply Qlt_le_trans; [exact B2|]. apply pow2_le. lia. }
  apply round_half_even_ge in Hq1. apply round_half_even_le in Hq2.
  set (r := round_half_even (x / pow2 s)) in *.
  destruct (Z.eq_dec r 0%Z) as [R0|R0].
  { rewrite R0. assert (inject_Z 0 * pow2 s == 0) as E0 by ring.
    rewrite E0. reflexivity. }
  destruct (Z.eq_dec r (2 ^ 53)%Z) as [R1|R1].
  { rewrite R1.
    assert (inject_Z (2 ^ 53) * pow2 s == inject_Z (2 ^ 52) * pow2 (s + 1)) as E1.
    { rewrite pow2_succ. rewrite <- !pow2_Z by lia.
      assert (pow2 53 == 2 * pow2 52) as -> by (rewrite <- pow2_succ; reflexivity). ring. }
    rewrite E1. apply fl_repr_exact; lia. }
  apply fl_repr_exact; lia.
Qed.

Lemma is_float_fl x : 0 <= x -> is_float (fl x).
Proof. apply fl_idem. Qed.

Lemma is_float_int (n : Z) : (0 <= n < 2 ^ 53)%Z -> is_float (inject_Z n).
Proof. apply fl_int_exact. Qed.

(** A float in [1, 2^53) and a different integer are more than half an ulp
    of the float apart. *)
Lemma float_int_gap p (k : Z) :
  is_float p -> 1 <= p -> p < pow2 53 -> ~ inject_Z k == p ->
  p * pow2 (-53) < Qabs (inject_Z k - p).
Proof.
  intros Fp H1 H2 Hne.
  assert (Hp : 0 < p) by lra.
  destruct (fl_grid p Hp Fp) as [m Em].
  destruct (binade_spec p Hp) as [B1 B2].
  assert (He0 : (0 <= binade p)%Z).
  { assert (pow2 0 < pow2 (binade p + 1)) as L by (unfold pow2 at 1; simpl; lra).
    apply pow2_lt_inv in L. lia. }
  assert (He1 : (binade p < 53)%Z).
  { assert (pow2 (binade p) < pow2 53) as L by lra.
    apply pow2_lt_inv in L. exact L. }
  rewrite ulp_exp_pos in Em by exact Hp.
  replace (Z.max (binade p - 52) (-1074)) with (binade p - 52)%Z in Em by lia.
  set (e := binade p) in *. set (s := (e - 52)%Z) in *.
  pose proof (pow2_pos s) as Ps.
  assert (Ek : inject_Z k == inject_Z (k * 2 ^ (- s)) * pow2 s).
  { rewrite inject_Z_mult, <- pow2_Z by lia.
    setoid_rewrite <- Qmult_assoc. rewrite <- pow2_add.
    replace (- s + s)%Z with 0%Z by lia. unfold pow2 at 1. simpl. ring. }
  set (K := (k * 2 ^ (- s))%Z) in *.
  assert (HKm : K <> m).
  { intros C. apply Hne. rewrite Ek, Em, C. reflexivity. }
  assert (Hd : 1 <= Qabs (inject_Z K - inject_Z m)).
  { destruct (Z_lt_le_dec K m) as [l|l].
    - assert (inject_Z (K + 1) <= inject_Z m) as L1 by (rewrite <- Zle_Qle; lia).
      rewrite inject_Z_plus in L1. change (inject_Z 1) with 1 in L1.
      rewrite Qabs_neg by lra. lra.
    - assert (inject_Z (m + 1) <= inject_Z K) as L1 by (rewrite <- Zle_Qle; lia).
      rewrite inject_Z_plus in L1. change (inject_Z 1) with 1 in L1.
      rewrite Qabs_pos by lra. lra. }
  assert (Hab : Qabs (inject_Z k - p) == Qabs (inject_Z K - inject_Z m) * pow2 s).
  { rewrite Ek, Em.
    assert (inject_Z K * pow2 s - inject_Z m * pow2 s == (inject_Z K - inject_Z m) * pow2 s) as -> by ring.
    rewrite Qabs_Qmult. rewrite (Qabs_pos (pow2 s)) by lra. reflexivity. }
  rewrite Hab.
  assert (p * pow2 (-53) < pow2 s) as Lp.
  { assert (pow2 s == pow2 (e + 1) * pow2 (-53)) as ->.
    { rewrite <- pow2_add. unfold s. f_equiv. lia. }
    apply Qmult_lt_compat_r; [apply pow2_pos | exact B2]. }
  nra.
Qed.

(** Dividing a float by a small positive integer and rounding does not reach
    an integer from below or from above. *)
Lemma fl_div_lt_int p (d N : Z) :
  is_float p -> 1 <= p -> p < pow2 53 -> (1 <= d <= 1024)%Z ->
  p < inject_Z (N * d) -> fl (p / inject_Z d) < inject_Z N.
Proof.
  intros Fp H1 H2 Hd L.
  assert (Hd1 : 1 <= inject_Z d) by (change 1 with (inject_Z 1); rewrite <- Zle_Qle; lia).
  assert (Hd2 : inject_Z d <= 1024) by (change 1024 with (inject_Z 1024); rewrite <- Zle_Qle; lia).
  set (x := p / inject_Z d).
  assert (Hxd : x * inject_Z d == p) by (unfold x; field; lra).
  assert (Hx : pow2 (-1022) <= x).
  { apply Qle_trans with (pow2 (-10)); [apply pow2_le; lia|].
    unfold x. apply Qle_shift_div_l; [lra|].
    assert (pow2 (-10) == 1 # 1024) as -> by reflexivity. lra. }
  pose proof (fl_rel_error x Hx) as R. apply Qabs_Qle_condition in R.
  assert (Hne : ~ inject_Z (N * d) == p) by lra.
  pose proof (float_int_gap p (N * d) Fp H1 H2 Hne) as G.
  rewrite Qabs_pos in G by lra.
  rewrite inject_Z_mult in G, L.
  pose proof (pow2_pos (-53)) as P53.
  assert (0 < x) by (pose proof (pow2_pos (-1022)); lra).
  destruct (Qlt_le_dec (fl x) (inject_Z N)) as [l|l]; [exact l|exfalso].
  assert (x * pow2 (-53) * inject_Z d < (inject_Z N - x) * inject_Z d) by nra.
  nra.
Qed.

Lemma fl_div_gt_int p (d N : Z) :
  is_float p -> 1 <= p -> p < pow2 53 -> (1 <= d <= 1024)%Z ->
  inject_Z (N * d) < p -> inject_Z N < fl (p / inject_Z d).
Proof.
  intros Fp H1 H2 Hd L.
  assert (Hd1 : 1 <= inject_Z d) by (change 1 with (inject_Z 1); rewrite <- Zle_Qle; lia).
  assert (Hd2 : inject_Z d <= 1024) by (change 1024 with (inject_Z 1024); rewrite <- Zle_Qle; lia).
  set (x := p / inject_Z d).
  assert (Hxd : x * inject_Z d == p) by (unfold x; field; lra).
  assert (Hx : pow2 (-1022) <= x).
  { apply Qle_trans with (pow2 (-10)); [apply pow2_le; lia|].
    unfold x. apply Qle_shift_div_l; [lra|].
    assert (pow2 (-10) == 1 # 1024) as -> by reflexivity. lra. }
  pose proof (fl_rel_error x Hx) as R. apply Qabs_Qle_condition in R.
  assert (Hne : ~ inject_Z (N * d) == p) by lra.
  pose proof (float_int_gap p (N * d) Fp H1 H2 Hne) as G.
  rewrite Qabs_neg in G by lra.
  rewrite inject_Z_mult in G, L.
  pose proof (pow2_pos (-53)) as P53.
  assert (0 < x) by (pose proof (pow2_pos (-1022)); lra).
  destruct (Qlt_le_dec (inject_Z N) (fl x)) as [l|l]; [exact l|exfalso].
  assert (x * pow2 (-53) * inject_Z d < (x - inject_Z N) * inject_Z d) by nra.
  nra.
Qed.

End Binary64Facts.

(** ** Python float operations in binary64 *)

Section PyFloatFacts.
Import Binary64.

Lemma Qtrunc_nonneg x : 0 <= x -> Qtrunc x = Qfloor x.
Proof. intros H. unfold Qtrunc. apply Qle_bool_iff in H. rewrite H. reflexivity. Qed.

Lemma inject_Z_pos (n : Z) : (0 < n)%Z -> 0 < inject_Z n.
Proof. intros H. change 0 with (inject_Z 0). rewrite <- Zlt_Qlt. exact H. Qed.

Lemma inject_Z_nonneg (n : Z) : (0 <= n)%Z -> 0 <= inject_Z n.
Proof. intros H. change 0 with (inject_Z 0). rewrite <- Zle_Qle. exact H. Qed.

Lemma Qfloor_div_bounds y (d : Z) : (0 < d)%Z ->
  inject_Z (Qfloor (y / inject_Z d) * d) <= y /\
  y < inject_Z ((Qfloor (y / inject_Z d) + 1) * d).
Proof.
  intros Hd. pose proof (inject_Z_pos d Hd) as Pd.
  pose proof (Qfloor_le (y / inject_Z d)) as F1.
  pose proof (Qlt_floor (y / inject_Z d)) as F2.
  rewrite !inject_Z_mult. rewrite inject_Z_plus in F2 |- *.
  change (inject_Z 1) with 1 in *.
  assert (E : y == y / inject_Z d * inject_Z d) by (field; lra).
  set (q := y / inject_Z d) in *.
  set (k := inject_Z (Qfloor q)) in *.
  split; nra.
Qed.

(** On non-negative values below 2^52, [//] by a tick is the exact floor of
    the quotient. *)
Lemma float_floor_div_exact y wx (d : Z) :
  0 <= y -> y < pow2 52 -> (1 <= d <= 1024)%Z -> wx == inject_Z d ->
  float_floor_div fl y wx == inject_Z (Qfloor (y / inject_Z d)).
Proof.
  intros Hy0 Hy1 Hd Hwx.
  assert (Pd : 0 < inject_Z d) by (apply inject_Z_pos; lia).
  destruct (Qfloor_div_bounds y d ltac:(lia)) as [K1 K2].
  set (k := Qfloor (y / inject_Z d)) in *.
  assert (Hk0 : (0 <= k)%Z).
  { unfold k. change 0%Z with (Qfloor 0). apply Qfloor_resp_le.
    apply Qle_shift_div_l; lra. }
  assert (Hkd : (0 <= k * d < 2 ^ 53)%Z).
  { split; [nia|]. rewrite Zlt_Qlt.
    eapply Qle_lt_trans; [exact K1|]. rewrite <- pow2_Z by lia.
    eapply Qlt_trans; [exact Hy1|]. apply pow2_lt. lia. }
  assert (Hk1 : (0 <= k < 2 ^ 53)%Z) by nia.
  assert (Ht : Qtrunc (y / wx) = k).
  { rewrite Qtrunc_nonneg by (rewrite Hwx; apply Qle_shift_div_l; lra).
    unfold k. apply Qfloor_comp. rewrite Hwx. reflexivity. }
  assert (Hmod : fmod y wx == y - inject_Z (k * d)).
  { unfold fmod. rewrite Ht, Hwx, inject_Z_mult. reflexivity. }
  assert (Hmod0 : 0 <= fmod y wx) by (rewrite Hmod; lra).
  assert (Hsub : fsub fl y (fmod y wx) == inject_Z (k * d)).
  { unfold fsub. rewrite Hmod.
    assert (y - (y - inject_Z (k * d)) == inject_Z (k * d)) as -> by ring.
    apply fl_int_exact. exact Hkd. }
  assert (Hdiv : fdiv fl (fsub fl y (fmod y wx)) wx == inject_Z k).
  { unfold fdiv. rewrite Hsub, Hwx, inject_Z_mult.
    assert (inject_Z k * inject_Z d / inject_Z d == inject_Z k) as -> by (field; lra).
    apply fl_int_exact. exact Hk1. }
  unfold float_floor_div, float_div_mod.
  set (div0 := fdiv fl (fsub fl y (fmod y wx)) wx) in *.
  assert (Hsel : (if Qeq_bool (fmod y wx) 0 then (0, div0)
                  else if negb (Bool.eqb (Qltb wx 0) (Qltb (fmod y wx) 0))
                       then (fadd fl (fmod y wx) wx, fsub fl div0 1)
                       else (fmod y wx, div0)) =
                 (if Qeq_bool (fmod y wx) 0 then 0 else fmod y wx, div0)).
  { destruct (Qeq_bool (fmod y wx) 0); [reflexivity|].
    assert (Qltb wx 0 = false) as -> by (apply Qltb_false; rewrite Hwx; lra).
    assert (Qltb (fmod y wx) 0 = false) as -> by (apply Qltb_false; exact Hmod0).
    reflexivity. }
  rewrite Hsel. cbn [fst].
  destruct (Qeq_bool div0 0) eqn:E0.
  - apply Qeq_bool_eq in E0. rewrite <- Hdiv, E0. reflexivity.
  - assert (Hf : Qfloor div0 = k).
    { rewrite (Qfloor_comp _ _ Hdiv). apply Qfloor_Z. }
    rewrite Hf.
    assert (Qltb (1 # 2) (fsub fl div0 (inject_Z k)) = false) as ->.
    { apply Qltb_false. unfold fsub.
      assert (div0 - inject_Z k == 0) as -> by (rewrite Hdiv; ring).
      rewrite fl_0. lra. }
    reflexivity.
Qed.

End PyFloatFacts.

(** ** The tick table *)

Section TickFacts.
Import Binary64.

Lemma get_tick_unit_eq y : Signal.get_tick_unit y = Contact.get_tick_size y.
Proof. reflexivity. Qed.

Lemma calculate_tick_unit_eq y : Monitor.calculate_tick_unit y = Contact.get_tick_size y.
Proof. reflexivity. Qed.

Lemma Qltb_inject_Z (a b : Z) : Qltb (inject_Z a) (inject_Z b) = (a <? b)%Z.
Proof.
  destruct (a <? b)%Z eqn:E.
  - apply Qltb_true. rewrite <- Zlt_Qlt. lia.
  - apply Qltb_false. rewrite <- Zle_Qle. lia.
Qed.

Lemma Qltb_floor y (t : Z) : Qltb y (inject_Z t) = (Qfloor y <? t)%Z.
Proof.
  pose proof (Qfloor_le y) as F1. pose proof (Qlt_floor y) as F2.
  destruct (Qfloor y <? t)%Z eqn:E.
  - apply Qltb_true.
    assert (inject_Z (Qfloor y + 1) <= inject_Z t) by (rewrite <- Zle_Qle; lia). lra.
  - apply Qltb_false.
    assert (inject_Z t <= inject_Z (Qfloor y)) by (rewrite <- Zle_Qle; lia). lra.
Qed.

Lemma get_tick_size_floor y : Contact.get_tick_size y = tickZ (Qfloor y).
Proof.
  unfold Contact.get_tick_size, tickZ.
  change 2000 with (inject_Z 2000). change 5000 with (inject_Z 5000).
  change 20000 with (inject_Z 20000). change 50000 with (inject_Z 50000).
  change 200000 with (inject_Z 200000). change 500000 with (inject_Z 500000).
  rewrite !Qltb_floor. reflexivity.
Qed.

Lemma get_tick_size_inject n : Contact.get_tick_size (inject_Z n) = tickZ n.
Proof. rewrite get_tick_size_floor, Qfloor_Z. reflexivity. Qed.

Lemma get_tick_size_comp x y : x == y -> Contact.get_tick_size x = Contact.get_tick_size y.
Proof. intros E. rewrite !get_tick_size_floor, (Qfloor_comp _ _ E). reflexivity. Qed.

Lemma tickZ_range n : (1 <= tickZ n <= 1000)%Z.
Proof. unfold tickZ. repeat destruct (_ <? _)%Z; lia. Qed.

Lemma tickZ_mono a b : (a <= b)%Z -> (tickZ a <= tickZ b)%Z.
Proof.
  intros H. unfold tickZ.
  repeat match goal with |- context [(?u <? ?v)%Z] => destruct (Z.ltb_spec u v) end; lia.
Qed.

(** The least multiple of the tick at or above a value stays on the grid of
    the bucket it lands in. *)
Lemma tickZ_ceil_on_grid (n P k : Z) :
  (0 <= n)%Z -> P = (k * tickZ n)%Z -> (n <= P <= n + tickZ n)%Z ->
  (P mod tickZ P = 0)%Z.
Proof.
  intros Hn -> HP. revert HP. unfold tickZ.
  repeat match goal with |- context [(?u <? ?v)%Z] => destruct (Z.ltb_spec u v) end;
    intros; try lia; Z.div_mod_to_equations; lia.
Qed.

(** Rounding down to the tick stays in the bucket. *)
Lemma tickZ_floor_same (n P k : Z) :
  (0 <= n)%Z -> P = (k * tickZ n)%Z -> (n - tickZ n < P <= n)%Z ->
  tickZ P = tickZ n.
Proof.
  intros Hn -> HP. revert HP. unfold tickZ.
  repeat match goal with |- context [(?u <? ?v)%Z] => destruct (Z.ltb_spec u v) end;
    intros; try lia.
Qed.
End TickFacts.
(** ** The quantizers in binary64 *)

Section QuantizerFacts.
Import Binary64.

Lemma Qtrunc_comp x y : x == y -> Qtrunc x = Qtrunc y.
Proof.
  intros E. unfold Qtrunc. rewrite E at 1.
  rewrite (Qfloor_comp _ _ E), (Qceiling_comp _ _ E). reflexivity.
Qed.

Lemma Qtrunc_Z (n : Z) : Qtrunc (inject_Z n) = n.
Proof. unfold Qtrunc. rewrite Qfloor_Z, Qceiling_Z. destruct (Qle_bool 0 (inject_Z n)); reflexivity. Qed.

Lemma Qfloor_unique v (N : Z) : inject_Z N <= v -> v < inject_Z N + 1 -> Qfloor v = N.
Proof.
  intros H1 H2. pose proof (Qfloor_le v) as F1. pose proof (Qlt_floor v) as F2.
  rewrite inject_Z_plus in F2. change (inject_Z 1) with 1 in F2.
  assert (inject_Z (Qfloor v) < inject_Z (N + 1)) as A
    by (rewrite inject_Z_plus; change (inject_Z 1) with 1; lra).
  assert (inject_Z N < inject_Z (Qfloor v + 1)) as B
    by (rewrite inject_Z_plus; change (inject_Z 1) with 1; lra).
  rewrite <- Zlt_Qlt in A, B. lia.
Qed.

Lemma Qceiling_unique v (N : Z) : inject_Z N - 1 < v -> v <= inject_Z N -> Qceiling v = N.
Proof.
  intros H1 H2. unfold Qceiling.
  rewrite (Qfloor_unique (- v) (- N)); [lia | |]; rewrite inject_Z_opp; lra.
Qed.

Lemma inject_Z_minus (a b : Z) : inject_Z (a - b) == inject_Z a - inject_Z b.
Proof. unfold Z.sub. rewrite inject_Z_plus, inject_Z_opp. reflexivity. Qed.

Lemma of_int_exact (n : Z) : (0 <= n < 2 ^ 53)%Z -> of_int fl n == inject_Z n.
Proof. apply fl_int_exact. Qed.

Lemma get_tick_size_range y : (1 <= Contact.get_tick_size y <= 1000)%Z.
Proof. rewrite get_tick_size_floor. apply tickZ_range. Qed.

(** [ceil_tick] of the calculator is the exact ceiling to the tick of its
    argument. *)
Lemma contact_ceil_tick_spec y :
  0 <= y -> y < pow2 52 ->
  (exists k : Z, Contact.ceil_tick fl y = k * Contact.get_tick_size y)%Z /\
  inject_Z (Contact.ceil_tick fl y) - inject_Z (Contact.get_tick_size y) < y /\
  y <= inject_Z (Contact.ceil_tick fl y).
Proof.
  intros H0 H1. unfold Contact.ceil_tick.
  pose proof (get_tick_size_range y) as Hd.
  set (d := Contact.get_tick_size y) in *.
  assert (Hw : of_int fl d == inject_Z d) by (apply of_int_exact; lia).
  pose proof (float_floor_div_exact y (of_int fl d) d H0 H1 ltac:(lia) Hw) as Hq.
  rewrite (Qtrunc_comp _ _ Hq), Qtrunc_Z.
  destruct (Qfloor_div_bounds y d ltac:(lia)) as [K1 K2].
  set (k := Qfloor (y / inject_Z d)) in *.
  assert (Pd : 0 < inject_Z d) by (apply inject_Z_pos; lia).
  destruct (Qeq_bool (inject_Z (k * d)) y) eqn:E.
  - apply Qeq_bool_eq in E. split; [exists k; reflexivity|]. lra.
  - apply Qeq_bool_false in E. split; [exists (k + 1)%Z; reflexivity|].
    rewrite inject_Z_mult, inject_Z_plus in *. change (inject_Z 1) with 1 in *.
    split; [|lra].
    assert (inject_Z k * inject_Z d < y); [|lra].
    destruct (Qlt_le_dec (inject_Z k * inject_Z d) y) as [l|l]; [exact l|].
    exfalso. apply E. lra.
Qed.

(** Two multiples of [d] that are both the ceiling of [y] coincide. *)
Lemma ceil_unique (d P P' : Z) y :
  (0 < d)%Z -> (exists k, P = k * d)%Z -> (exists k', P' = k' * d)%Z ->
  inject_Z P - inject_Z d < y -> y <= inject_Z P ->
  inject_Z P' - inject_Z d < y -> y <= inject_Z P' ->
  P = P'.
Proof.
  intros Hd [k ->] [k' ->] A1 A2 B1 B2.
  assert (inject_Z (k * d - d) < inject_Z (k' * d)) as L1
    by (rewrite inject_Z_minus; lra).
  assert (inject_Z (k' * d - d) < inject_Z (k * d)) as L2
    by (rewrite inject_Z_minus; lra).
  rewrite <- Zlt_Qlt in L1, L2.
  assert (k = k') by nia. subst. reflexivity.
Qed.

(** Dividing a float by its tick and rounding keeps floor and ceiling. *)
Lemma fdiv_tick_floor_ceiling y :
  is_float y -> 0 <= y -> y < pow2 52 ->
  Qfloor (fdiv fl y (of_int fl (Contact.get_tick_size y)))
  = Qfloor (y / inject_Z (Contact.get_tick_size y)) /\
  Qceiling (fdiv fl y (of_int fl (Contact.get_tick_size y)))
  = Qceiling (y / inject_Z (Contact.get_tick_size y)).
Proof.
  intros Fy H0 H1.
  pose proof (get_tick_size_range y) as Hd.
  pose proof (get_tick_size_floor y) as Ht.
  set (d := Contact.get_tick_size y) in *.
  assert (Hw : of_int fl d == inject_Z d) by (apply of_int_exact; lia).
  assert (Pd : 0 < inject_Z d) by (apply inject_Z_pos; lia).
  assert (E : fdiv fl y (of_int fl d) == fl (y / inject_Z d)).
  { unfold fdiv. rewrite Hw. reflexivity. }
  rewrite (Qfloor_comp _ _ E), (Qceiling_comp _ _ E).
  destruct (Z.eq_dec d 1%Z) as [D1|D1].
  - assert (y / inject_Z d == y) as Ey by (rewrite D1; field).
    assert (fl (y / inject_Z d) == y / inject_Z d) as Ef by (rewrite Ey; exact Fy).
    rewrite (Qfloor_comp _ _ Ef), (Qceiling_comp _ _ Ef). split; reflexivity.
  - assert (Hy : 1 <= y).
    { pose proof (Qfloor_le y) as F.
      assert (2000 <= Qfloor y)%Z as G.
      { unfold tickZ in Ht. destruct (Z.ltb_spec (Qfloor y) 2000); lia. }
      assert (inject_Z 2000 <= inject_Z (Qfloor y)) by (rewrite <- Zle_Qle; exact G).
      change (inject_Z 2000) with 2000 in *. lra. }
    assert (H53 : y < pow2 53) by (eapply Qlt_trans; [exact H1 | apply pow2_lt; lia]).
    destruct (Qfloor_div_bounds y d ltac:(lia)) as [K1 K2].
    set (N := Qfloor (y / inject_Z d)) in *.
    assert (HN0 : (0 <= N)%Z).
    { unfold N. change 0%Z with (Qfloor 0). apply Qfloor_resp_le. apply Qle_shift_div_l; lra. }
    destruct (Qeq_dec (inject_Z (N * d)) y) as [Eq|Ne].
    + assert (y / inject_Z d == inject_Z N) as Ey.
      { rewrite <- Eq, inject_Z_mult. field. lra. }
      assert (HN1 : (N < 2 ^ 53)%Z).
      { assert (inject_Z N < pow2 53) as L.
        { rewrite <- Ey. apply Qlt_shift_div_r; [exact Pd|].
          assert (1 <= inject_Z d) by (change 1 with (inject_Z 1); rewrite <- Zle_Qle; lia).
          pose proof (pow2_pos 53). nra. }
        rewrite pow2_Z in L by lia. rewrite <- Zlt_Qlt in L. exact L. }
      assert (fl (y / inject_Z d) == inject_Z N) as Ef.
      { rewrite Ey. apply fl_int_exact. lia. }
      rewrite (Qfloor_comp _ _ Ef), (Qceiling_comp _ _ Ef), (Qceiling_comp _ _ Ey).
      rewrite Qfloor_Z, Qceiling_Z. split; reflexivity.
    + assert (inject_Z (N * d) < y) as G1.
      { destruct (Qlt_le_dec (inject_Z (N * d)) y) as [l|l]; [exact l|]. exfalso. apply Ne. lra. }
      pose proof (fl_div_gt_int y d N Fy Hy H53 ltac:(lia) G1) as A.
      pose proof (fl_div_lt_int y d (N + 1) Fy Hy H53 ltac:(lia) K2) as B.
      rewrite inject_Z_plus in B. change (inject_Z 1) with 1 in B.
      rewrite inject_Z_mult in G1. rewrite inject_Z_mult, inject_Z_plus in K2.
      change (inject_Z 1) with 1 in K2.
      split.
      * apply Qfloor_unique; lra.
      * rewrite (Qceiling_unique (fl (y / inject_Z d)) (N + 1)),
                (Qceiling_unique (y / inject_Z d) (N + 1)); try reflexivity;
          rewrite ?inject_Z_plus; change (inject_Z 1) with 1; try lra.
        -- assert (inject_Z N < y / inject_Z d); [|lra].
           apply Qlt_shift_div_l; lra.
        -- apply Qle_shift_div_r; lra.
Qed.

End QuantizerFacts.

(** ** The envelope of the verifier *)

Section EnvelopeFacts.
Import Binary64.

Lemma is_float_comp x y : x == y -> is_float x -> is_float y.
Proof. unfold is_float. intros E H. rewrite <- E. exact H. Qed.

Lemma is_float_dyadic (m s : Z) :
  (0 < m < 2 ^ 53)%Z -> (-1074 <= s)%Z -> is_float (inject_Z m * pow2 s).
Proof. apply fl_repr_exact. Qed.

Lemma is_float_quarters (c : Z) : (0 < c < 2 ^ 50)%Z -> is_float (inject_Z (5 * c) / 4).
Proof.
  intros H. apply (is_float_comp (inject_Z (5 * c) * pow2 (-2))).
  - assert (pow2 (-2) == 1 # 4) as -> by reflexivity. field.
  - apply is_float_dyadic; lia.
Qed.

Lemma is_float_plus_32nd (c : Z) : (0 <= c < 2 ^ 47)%Z -> is_float (inject_Z c + (1 # 32)).
Proof.
  intros H. apply (is_float_comp (inject_Z (32 * c + 1) * pow2 (-5))).
  - assert (pow2 (-5) == 1 # 32) as -> by reflexivity.
    rewrite inject_Z_plus, inject_Z_mult. change (inject_Z 32) with 32. change (inject_Z 1) with 1. field.
  - apply is_float_dyadic; lia.
Qed.

Lemma is_float_plus_64th (c : Z) : (0 <= c < 2 ^ 47)%Z -> is_float (inject_Z c + (1 # 64)).
Proof.
  intros H. apply (is_float_comp (inject_Z (64 * c + 1) * pow2 (-6))).
  - assert (pow2 (-6) == 1 # 64) as -> by reflexivity.
    rewrite inject_Z_plus, inject_Z_mult. change (inject_Z 64) with 64. change (inject_Z 1) with 1. field.
  - apply is_float_dyadic; lia.
Qed.

Lemma is_float_quarters_plus_32nd (c : Z) :
  (0 <= c < 2 ^ 47)%Z -> is_float (inject_Z (5 * c) / 4 + (1 # 32)).
Proof.
  intros H. apply (is_float_comp (inject_Z (40 * c + 1) * pow2 (-5))).
  - assert (pow2 (-5) == 1 # 32) as -> by reflexivity.
    rewrite inject_Z_plus, !inject_Z_mult. change (inject_Z 40) with 40.
    change (inject_Z 5) with 5. change (inject_Z 1) with 1. field.
  - apply is_float_dyadic; lia.
Qed.

(** The literal [0.8]. *)
Lemma fl_08 : fl (8 # 10) == (4 # 5) * (1 + pow2 (-54)).
Proof. apply Qeq_bool_eq. vm_compute. reflexivity. Qed.

Lemma envelope_chain S19 p :
  1 <= S19 + inject_Z p -> (0 <= p < 2 ^ 53)%Z ->
  let t := fadd fl S19 (of_int fl p) in
  let ma := fdiv fl t 20 in
  t == fl (S19 + inject_Z p) /\ 1 <= t /\ (1 # 32) <= ma.
Proof.
  intros H Hp t ma.
  assert (Et : t == fl (S19 + inject_Z p)).
  { unfold t, fadd. rewrite of_int_exact by exact Hp. reflexivity. }
  assert (Ht : 1 <= t).
  { rewrite Et. apply fl_ge_repr; [lra | exact H | apply (is_float_int 1); lia]. }
  split; [exact Et|]. split; [exact Ht|].
  unfold ma, fdiv. apply fl_ge_repr; [lra | |].
  - apply Qle_shift_div_l; lra.
  - apply (is_float_comp (inject_Z 1 * pow2 (-5))); [reflexivity|].
    apply is_float_dyadic; lia.
Qed.

Lemma envelope_le S19 p (c : Z) :
  1 <= S19 + inject_Z p -> (0 <= p < 2 ^ 53)%Z -> (0 < c < 2 ^ 48)%Z ->
  S19 + inject_Z p <= inject_Z (25 * c) -> envelope S19 p <= inject_Z c.
Proof.
  intros H Hp Hc L. unfold envelope.
  destruct (envelope_chain S19 p H Hp) as (Et & Ht & Hma).
  set (t := fadd fl S19 (of_int fl p)) in *.
  set (ma := fdiv fl t 20) in *.
  assert (Lt : t <= inject_Z (25 * c)).
  { rewrite Et. apply fl_le_repr; [lra | exact L | apply is_float_int; lia]. }
  assert (Lma : ma <= inject_Z (5 * c) / 4).
  { unfold ma, fdiv. apply fl_le_repr.
    - apply Qlt_shift_div_l; lra.
    - rewrite inject_Z_mult in Lt |- *. change (inject_Z 25) with 25 in Lt.
      change (inject_Z 5) with 5. apply Qle_shift_div_r; [lra|].
      assert (5 * inject_Z c / 4 * 20 == 25 * inject_Z c) as -> by field. exact Lt.
    - apply is_float_quarters; lia. }
  unfold fmul. apply fl_le_int_slack; [lia | |].
  - rewrite fl_08. pose proof (pow2_pos (-54)). nra.
  - rewrite fl_08. rewrite inject_Z_mult in Lma. change (inject_Z 5) with 5 in Lma.
    pose proof (pow2_pos (-54)).
    assert (Pc : 0 < inject_Z c) by (apply inject_Z_pos; lia).
    assert (ma * ((4 # 5) * (1 + pow2 (-54))) <= 5 * inject_Z c / 4 * ((4 # 5) * (1 + pow2 (-54)))) as L1.
    { apply Qmult_le_compat_r; [exact Lma | nra]. }
    eapply Qle_trans; [exact L1|]. apply Qle_lteq. right. field.
Qed.

Lemma envelope_ge S19 p (c : Z) :
  1 <= S19 + inject_Z p -> (0 <= p < 2 ^ 53)%Z -> (0 < c < 2 ^ 48)%Z ->
  inject_Z (25 * c) <= S19 + inject_Z p -> inject_Z c <= envelope S19 p.
Proof.
  intros H Hp Hc L. unfold envelope.
  destruct (envelope_chain S19 p H Hp) as (Et & Ht & Hma).
  set (t := fadd fl S19 (of_int fl p)) in *.
  set (ma := fdiv fl t 20) in *.
  assert (Pc : 0 < inject_Z c) by (apply inject_Z_pos; lia).
  assert (Lt : inject_Z (25 * c) <= t).
  { rewrite Et. apply fl_ge_repr; [apply inject_Z_pos; lia | exact L | apply is_float_int; lia]. }
  assert (Lma : inject_Z (5 * c) / 4 <= ma).
  { unfold ma, fdiv. apply fl_ge_repr.
    - rewrite inject_Z_mult. change (inject_Z 5) with 5. apply Qlt_shift_div_l; lra.
    - rewrite inject_Z_mult in Lt |- *. change (inject_Z 25) with 25 in Lt.
      change (inject_Z 5) with 5. apply Qle_shift_div_l; [lra|].
      assert (5 * inject_Z c / 4 * 20 == 25 * inject_Z c) as -> by field. exact Lt.
    - apply is_float_quarters; lia. }
  unfold fmul. apply fl_ge_repr; [exact Pc | | apply is_float_int; lia].
  rewrite fl_08. rewrite inject_Z_mult in Lma. change (inject_Z 5) with 5 in Lma.
  assert (5 * inject_Z c / 4 == (5 # 4) * inject_Z c) as E54 by field.
  rewrite E54 in Lma.
  pose proof (pow2_pos (-54)) as P54.
  assert (0 <= ma * pow2 (-54)) as Hm by (apply Qmult_le_0_compat; lra).
  assert (ma * ((4 # 5) * (1 + pow2 (-54))) == (4 # 5) * ma + (4 # 5) * (ma * pow2 (-54))) as -> by ring.
  lra.
Qed.

Lemma envelope_gt S19 p (c : Z) :
  1 <= S19 + inject_Z p -> (0 <= p < 2 ^ 53)%Z -> (0 <= c < 2 ^ 47)%Z ->
  inject_Z (25 * c + 1) <= S19 + inject_Z p -> inject_Z c < envelope S19 p.
Proof.
  intros H Hp Hc L. unfold envelope.
  destruct (envelope_chain S19 p H Hp) as (Et & Ht & Hma).
  set (t := fadd fl S19 (of_int fl p)) in *.
  set (ma := fdiv fl t 20) in *.
  assert (Pc : 0 <= inject_Z c) by (apply inject_Z_nonneg; lia).
  assert (Lt : inject_Z (25 * c + 1) <= t).
  { rewrite Et. apply fl_ge_repr; [apply inject_Z_pos; lia | exact L | apply is_float_int; lia]. }
  rewrite inject_Z_plus, inject_Z_mult in Lt. change (inject_Z 25) with 25 in Lt.
  change (inject_Z 1) with 1 in Lt.
  assert (Lma : (5 # 4) * inject_Z c + (1 # 32) <= ma).
  { unfold ma, fdiv. apply fl_ge_repr.
    - lra.
    - apply Qle_shift_div_l; [lra|]. lra.
    - apply (is_float_comp (inject_Z (5 * c) / 4 + (1 # 32))).
      + rewrite inject_Z_mult. change (inject_Z 5) with 5. field.
      + apply is_float_quarters_plus_32nd. lia. }
  apply Qlt_le_trans with (inject_Z c + (1 # 64)); [lra|].
  unfold fmul. apply fl_ge_repr; [lra | | apply is_float_plus_64th; lia].
  rewrite fl_08. pose proof (pow2_pos (-54)) as P54.
  assert (0 <= ma * pow2 (-54)) as Hm by (apply Qmult_le_0_compat; lra).
  assert (ma * ((4 # 5) * (1 + pow2 (-54))) == (4 # 5) * ma + (4 # 5) * (ma * pow2 (-54))) as -> by ring.
  lra.
Qed.

End EnvelopeFacts.

(** ** The solver on realistic sums *)

Section SolverFacts.
Import Binary64.

Lemma is_float_32nd : is_float (1 # 32).
Proof.
  apply (is_float_comp (inject_Z 1 * pow2 (-5))); [reflexivity|].
  apply is_float_dyadic; lia.
Qed.

Lemma x_star_facts S19 :
  realistic_sum S19 ->
  let x_star := fdiv fl S19 24 in
  (1 # 32) <= x_star /\ x_star <= pow2 46 /\ is_float x_star /\
  (forall N : Z, inject_Z N <= x_star -> inject_Z (24 * N) <= S19) /\
  (forall N : Z, x_star <= inject_Z N -> S19 <= inject_Z (24 * N)).
Proof.
  intros (Fs & H1 & H2) x_star. unfold x_star, fdiv.
  assert (H53 : S19 < pow2 53).
  { eapply Qle_lt_trans; [exact H2|]. rewrite pow2_Z by lia. 
    change 1000000000000000 with (inject_Z 1000000000000000). rewrite <- Zlt_Qlt. reflexivity. }
  assert (Hq0 : 0 < S19 / 24) by (apply Qlt_shift_div_l; lra).
  split; [|split; [|split; [|split]]].
  - apply fl_ge_repr; [reflexivity | | exact is_float_32nd].
    apply Qle_shift_div_l; lra.
  - apply fl_le_repr; [exact Hq0 | |].
    + apply Qle_shift_div_r; [lra|]. rewrite pow2_Z by lia.
      eapply Qle_trans; [exact H2|]. 
      assert (inject_Z (2 ^ 46) * 24 == inject_Z (2 ^ 46 * 24)) as -> by (rewrite inject_Z_mult; reflexivity).
      change 1000000000000000 with (inject_Z 1000000000000000). rewrite <- Zle_Qle. discriminate.
    + apply (is_float_comp (inject_Z (2 ^ 46))); [symmetry; apply pow2_Z; lia|].
      apply is_float_int. lia.
  - apply is_float_fl. lra.
  - intros N HN.
    destruct (Qlt_le_dec S19 (inject_Z (24 * N))) as [l|l]; [exfalso|exact l].
    replace (24 * N)%Z with (N * 24)%Z in l by lia.
    pose proof (fl_div_lt_int S19 24 N Fs H1 H53 ltac:(lia) l) as C.
    change (inject_Z 24) with 24 in C. lra.
  - intros N HN.
    destruct (Qlt_le_dec (inject_Z (24 * N)) S19) as [l|l]; [exfalso|exact l].
    replace (24 * N)%Z with (N * 24)%Z in l by lia.
    pose proof (fl_div_gt_int S19 24 N Fs H1 H53 ltac:(lia) l) as C.
    change (inject_Z 24) with 24 in C. lra.
Qed.

(** The first candidate of the solver. *)
Lemma candidate_facts S19 :
  realistic_sum S19 ->
  let x_star := fdiv fl S19 24 in
  let d := Contact.get_tick_size x_star in
  let P := Contact.ceil_tick fl x_star in
  (exists k : Z, P = k * d)%Z /\ (1 <= d <= 1000)%Z /\ (1 <= P < 2 ^ 47)%Z /\
  inject_Z P - inject_Z d < x_star /\ x_star <= inject_Z P /\
  inject_Z (24 * (P - d)) < S19 /\ S19 <= inject_Z (24 * P) /\
  (Qfloor x_star <= P <= Qfloor x_star + d)%Z.
Proof.
  intros HS x_star d P.
  destruct (x_star_facts S19 HS) as (X1 & X2 & X3 & X4 & X5).
  fold x_star in X1, X2, X3, X4, X5.
  destruct HS as (Fs & H1 & H2).
  assert (X52 : x_star < pow2 52) by (eapply Qle_lt_trans; [exact X2 | apply pow2_lt; lia]).
  destruct (contact_ceil_tick_spec x_star ltac:(lra) X52) as (Hk & A & B).
  fold d P in Hk, A, B.
  pose proof (get_tick_size_range x_star) as Hd. fold d in Hd.
  assert (HP1 : (1 <= P)%Z).
  { assert (inject_Z 0 < inject_Z P) as L by (change (inject_Z 0) with 0; lra).
    rewrite <- Zlt_Qlt in L. lia. }
  assert (HP2 : (P < 2 ^ 47)%Z).
  { assert (inject_Z P < inject_Z (2 ^ 47)) as L.
    { rewrite <- pow2_Z by lia.
      assert (inject_Z d <= 1000) by (change 1000 with (inject_Z 1000); rewrite <- Zle_Qle; lia).
      assert (pow2 46 + 1000 < pow2 47) by (apply Qlt_alt; reflexivity). lra. }
    rewrite <- Zlt_Qlt in L. exact L. }
  split; [exact Hk|]. split; [exact Hd|]. split; [lia|].
  split; [exact A|]. split; [exact B|].
  split; [|split; [apply X5; exact B|]].
  - destruct (Qlt_le_dec (inject_Z (24 * (P - d))) S19) as [l|l]; [exact l|exfalso].
    destruct (Z_le_gt_dec (P - d) 0) as [z|z].
    + assert (inject_Z (24 * (P - d)) <= inject_Z 0) by (rewrite <- Zle_Qle; lia).
      change (inject_Z 0) with 0 in *. lra.
    + assert (x_star <= inject_Z (P - d)) as C.
      { unfold x_star, fdiv. apply fl_le_repr.
        - apply Qlt_shift_div_l; lra.
        - apply Qle_shift_div_r; [lra|].
          rewrite inject_Z_mult in l. change (inject_Z 24) with 24 in l. lra.
        - apply is_float_int. lia. }
      rewrite inject_Z_minus in C. lra.
  - pose proof (Qfloor_le x_star) as F1. pose proof (Qlt_floor x_star) as F2.
    split.
    + rewrite Zle_Qle. lra.
    + assert (inject_Z (P - d) < inject_Z (Qfloor x_star + 1)) as L
        by (rewrite inject_Z_minus; lra).
      rewrite <- Zlt_Qlt in L. lia.
Qed.

(** The upper bound of the acceptance test lies above the first candidate. *)
Lemma upper_above_candidate S19 w :
  realistic_sum S19 ->
  let P := Contact.ceil_tick fl (fdiv fl S19 24) in
  w == inject_Z (25 * tickZ P) ->
  inject_Z P < fdiv fl (fadd fl S19 w) 24.
Proof.
  intros HS P Hw.
  destruct (candidate_facts S19 HS) as (Hk & Hd & HP & A & B & L1 & L2 & Hn).
  set (x_star := fdiv fl S19 24) in *.
  set (d := Contact.get_tick_size x_star) in *. fold P in Hk, HP, A, B, L1, L2, Hn.
  destruct HS as (Fs & H1 & H2).
  assert (Hdd : (d <= tickZ P)%Z).
  { unfold d. rewrite get_tick_size_floor. apply tickZ_mono. lia. }
  pose proof (tickZ_range P) as Hd'.
  set (d' := tickZ P) in *.
  assert (Ld : inject_Z (24 * P + 1) <= S19 + inject_Z (25 * d')).
  { rewrite inject_Z_mult in L1. rewrite inject_Z_minus in L1.
    rewrite inject_Z_plus, !inject_Z_mult.
    change (inject_Z 24) with 24 in *. change (inject_Z 25) with 25. change (inject_Z 1) with 1.
    assert (inject_Z d <= inject_Z d') by (rewrite <- Zle_Qle; exact Hdd).
    assert (1 <= inject_Z d') by (change 1 with (inject_Z 1); rewrite <- Zle_Qle; lia).
    lra. }
  assert (Lt : inject_Z (24 * P + 1) <= fadd fl S19 w).
  { unfold fadd. rewrite Hw.
    apply fl_ge_repr; [apply inject_Z_pos; lia | exact Ld | apply is_float_int; lia]. }
  apply Qlt_le_trans with (inject_Z P + (1 # 32)); [lra|].
  unfold fdiv. apply fl_ge_repr.
  - assert (0 < inject_Z P) by (apply inject_Z_pos; lia). lra.
  - apply Qle_shift_div_l; [lra|].
    rewrite inject_Z_plus, inject_Z_mult in Lt.
    change (inject_Z 24) with 24 in Lt. change (inject_Z 1) with 1 in Lt. lra.
  - apply is_float_plus_32nd. lia.
Qed.

(** The loop of the solver accepts the first candidate. *)
Lemma solve_step_first S19 :
  realistic_sum S19 ->
  let x_star := fdiv fl S19 24 in
  Contact.solve_step fl S19 x_star (Contact.ceil_tick fl x_star) = inl (Contact.ceil_tick fl x_star).
Proof.
  intros HS x_star.
  destruct (candidate_facts S19 HS) as (Hk & Hd & HP & A & B & L1 & L2 & Hn).
  fold x_star in Hk, Hd, HP, A, B, L1, L2, Hn.
  unfold Contact.solve_step. rewrite get_tick_size_inject.
  assert (C1 : Qle_bool x_star (inject_Z (Contact.ceil_tick fl x_star)) = true)
    by (apply Qle_bool_iff; exact B).
  rewrite C1. cbn [andb].
  pose proof (tickZ_range (Contact.ceil_tick fl x_star)) as Hd'.
  assert (C2 : Qltb (inject_Z (Contact.ceil_tick fl x_star))
                 (fdiv fl (fadd fl S19
                    (of_int fl (25 * tickZ (Contact.ceil_tick fl x_star)))) 24) = true).
  { apply Qltb_true. apply (upper_above_candidate S19 _ HS).
    apply of_int_exact. fold x_star. lia. }
  rewrite C2. reflexivity.
Qed.

Lemma solve_contact_price_first S19 fuel :
  realistic_sum S19 ->
  Contact.solve_contact_price fl (S fuel) S19 = Returned (Contact.ceil_tick fl (fdiv fl S19 24)).
Proof.
  intros HS. unfold Contact.solve_contact_price. cbn [Contact.solve_loop].
  rewrite (solve_step_first S19 HS). reflexivity.
Qed.


(** The copy of [ceil_tick] in the signal system agrees with the one of the
    calculator on floats. *)
Lemma trading_ceil_tick_spec y :
  is_float y -> 0 <= y -> y < pow2 52 ->
  Signal.ceil_tick fl y = (Qceiling (y / inject_Z (Contact.get_tick_size y)) * Contact.get_tick_size y)%Z.
Proof.
  intros Fy H0 H1. unfold Signal.ceil_tick.
  change (Signal.get_tick_unit y) with (Contact.get_tick_size y).
  destruct (fdiv_tick_floor_ceiling y Fy H0 H1) as [_ ->]. reflexivity.
Qed.

Lemma trading_floor_tick_spec y :
  is_float y -> 0 <= y -> y < pow2 52 ->
  Signal.floor_tick fl y = (Qfloor (y / inject_Z (Contact.get_tick_size y)) * Contact.get_tick_size y)%Z.
Proof.
  intros Fy H0 H1. unfold Signal.floor_tick.
  change (Signal.get_tick_unit y) with (Contact.get_tick_size y).
  destruct (fdiv_tick_floor_ceiling y Fy H0 H1) as [-> _]. reflexivity.
Qed.

Lemma Qceiling_div_bounds y (d : Z) : (0 < d)%Z ->
  inject_Z (Qceiling (y / inject_Z d) * d) - inject_Z d < y /\
  y <= inject_Z (Qceiling (y / inject_Z d) * d).
Proof.
  intros Hd. pose proof (inject_Z_pos d Hd) as Pd.
  pose proof (Qle_ceiling (y / inject_Z d)) as F1.
  pose proof (Qceiling_lt (y / inject_Z d)) as F2.
  rewrite !inject_Z_mult. rewrite inject_Z_minus in F2.
  change (inject_Z 1) with 1 in *.
  assert (E : y == y / inject_Z d * inject_Z d) by (field; lra).
  set (q := y / inject_Z d) in *.
  set (k := inject_Z (Qceiling q)) in *.
  split; nra.
Qed.

Lemma trading_ceil_tick_eq y :
  is_float y -> 0 <= y -> y < pow2 52 -> Signal.ceil_tick fl y = Contact.ceil_tick fl y.
Proof.
  intros Fy H0 H1. rewrite (trading_ceil_tick_spec y Fy H0 H1).
  pose proof (get_tick_size_range y) as Hd.
  destruct (contact_ceil_tick_spec y H0 H1) as (Hk & A & B).
  destruct (Qceiling_div_bounds y (Contact.get_tick_size y) ltac:(lia)) as [A' B'].
  apply (ceil_unique (Contact.get_tick_size y) _ _ y); try assumption; [lia|].
  eexists. reflexivity.
Qed.

(** The loop of the predictor accepts the same first candidate. *)
Lemma predict_step_first S19 :
  realistic_sum S19 ->
  Signal.predict_step fl S19 (Contact.ceil_tick fl (fdiv fl S19 24))
  = inl (Contact.ceil_tick fl (fdiv fl S19 24)).
Proof.
  intros HS.
  destruct (candidate_facts S19 HS) as (Hk & Hd & HP & _).
  unfold Signal.predict_step.
  change (Signal.get_tick_unit (inject_Z (Contact.ceil_tick fl (fdiv fl S19 24))))
    with (Contact.get_tick_size (inject_Z (Contact.ceil_tick fl (fdiv fl S19 24)))).
  rewrite get_tick_size_inject.
  pose proof (tickZ_range (Contact.ceil_tick fl (fdiv fl S19 24))) as Hd'.
  assert (C2 : Qltb (inject_Z (Contact.ceil_tick fl (fdiv fl S19 24)))
                 (fdiv fl (fadd fl S19
                    (fmul fl 25 (of_int fl (tickZ (Contact.ceil_tick fl (fdiv fl S19 24)))))) 24) = true).
  { apply Qltb_true. apply (upper_above_candidate S19 _ HS).
    unfold fmul. rewrite of_int_exact by lia.
    assert (25 * inject_Z (tickZ (Contact.ceil_tick fl (fdiv fl S19 24)))
            == inject_Z (25 * tickZ (Contact.ceil_tick fl (fdiv fl S19 24)))) as ->
      by (rewrite inject_Z_mult; reflexivity).
    apply fl_int_exact. lia. }
  rewrite C2. reflexivity.
Qed.

Lemma predict_first S19 fuel :
  realistic_sum S19 ->
  Signal.predict_next_day_buy_price fl (S fuel) S19
  = Returned (Contact.ceil_tick fl (fdiv fl S19 24)).
Proof.
  intros HS. unfold Signal.predict_next_day_buy_price.
  destruct (x_star_facts S19 HS) as (X1 & X2 & X3 & _).
  rewrite trading_ceil_tick_eq;
    [| exact X3 | lra | eapply Qle_lt_trans; [exact X2 | apply pow2_lt; lia]].
  cbn [Signal.predict_loop]. rewrite (predict_step_first S19 HS). reflexivity.
Qed.

(** Between the candidate and the tick below it the tick size is that of
    the bucket of [x_star]. *)
Lemma tickZ_between (n P k m : Z) :
  (0 <= n)%Z -> P = (k * tickZ n)%Z -> (n < P <= n + tickZ n)%Z ->
  (P - tickZ n <= m < P)%Z -> tickZ m = tickZ n.
Proof.
  intros Hn -> HP Hm. revert HP Hm. unfold tickZ.
  repeat match goal with |- context [(?u <? ?v)%Z] => destruct (Z.ltb_spec u v) end;
    intros; lia.
Qed.

(** The verifier accepts the first candidate. *)
Lemma verify_first S19 :
  realistic_sum S19 ->
  Contact.verify_contact_price fl S19 (Contact.ceil_tick fl (fdiv fl S19 24)) = true.
Proof.
  intros HS.
  destruct (candidate_facts S19 HS) as (Hk & Hd & HP & A & B & L1 & L2 & Hn).
  destruct (x_star_facts S19 HS) as (X1 & X2 & X3 & X4 & X5).
  set (x_star := fdiv fl S19 24) in *.
  set (d := Contact.get_tick_size x_star) in *.
  set (P := Contact.ceil_tick fl x_star) in *.
  destruct HS as (Fs & H1 & H2).
  unfold Contact.verify_contact_price. fold (envelope S19 P).
  apply Z.eqb_eq.
  assert (HPq : 1 <= inject_Z P) by (change 1 with (inject_Z 1); rewrite <- Zle_Qle; lia).
  assert (HSP : 1 <= S19 + inject_Z P) by lra.
  assert (HdP : (d <= P)%Z).
  { destruct Hk as [k Hk]. destruct (Z_le_gt_dec k 0) as [z|z].
    - assert (k * d <= 0)%Z by (apply Z.mul_nonpos_nonneg; lia). lia.
    - assert (1 * d <= k * d)%Z by (apply Z.mul_le_mono_nonneg_r; lia). lia. }
  assert (E1 : envelope S19 P <= inject_Z P).
  { apply envelope_le; [exact HSP | lia | lia |].
    rewrite inject_Z_mult in L2 |- *. change (inject_Z 24) with 24 in L2.
    change (inject_Z 25) with 25. lra. }
  assert (E2 : inject_Z (P - d) < envelope S19 P).
  { apply envelope_gt; [exact HSP | lia | lia |].
    rewrite inject_Z_mult in L1. rewrite inject_Z_plus, inject_Z_mult.
    rewrite inject_Z_minus in L1 |- *.
    change (inject_Z 24) with 24 in L1. change (inject_Z 25) with 25.
    change (inject_Z 1) with 1.
    assert (1 <= inject_Z d) by (change 1 with (inject_Z 1); rewrite <- Zle_Qle; lia).
    lra. }
  set (env := envelope S19 P) in *.
  assert (He0 : 0 <= env).
  { assert (0 <= inject_Z (P - d)) by (apply inject_Z_nonneg; lia). lra. }
  assert (He1 : env < pow2 52).
  { eapply Qle_lt_trans; [exact E1|]. rewrite pow2_Z by lia. rewrite <- Zlt_Qlt. lia. }
  destruct (contact_ceil_tick_spec env He0 He1) as (Hk' & A' & B').
  pose proof (get_tick_size_range env) as Hde.
  assert (Hnn : (0 <= Qfloor x_star)%Z).
  { change 0%Z with (Qfloor 0). apply Qfloor_resp_le. lra. }
  rewrite inject_Z_minus in E2.
  destruct (Qeq_dec env (inject_Z P)) as [Ee|Ne].
  - assert (Hte : Contact.get_tick_size env = tickZ P).
    { rewrite (get_tick_size_comp _ _ Ee). apply get_tick_size_inject. }
    rewrite Hte in *.
    assert (Pt : 0 < inject_Z (tickZ P)) by (apply inject_Z_pos; lia).
    assert (Hg : exists k' : Z, P = (k' * tickZ P)%Z).
    { destruct Hk as [k Hk].
      pose proof (tickZ_ceil_on_grid (Qfloor x_star) P k Hnn) as G.
      unfold d in Hk. rewrite get_tick_size_floor in Hk.
      unfold d in Hn. rewrite get_tick_size_floor in Hn.
      specialize (G Hk Hn).
      exists (P / tickZ P)%Z. rewrite Z.mul_comm.
      apply Z.div_exact; [lia | exact G]. }
    apply (ceil_unique (tickZ P) _ _ env); try assumption; try lia; lra.
  - assert (Lt : env < inject_Z P).
    { destruct (Qlt_le_dec env (inject_Z P)) as [l|l]; [exact l|]. exfalso. apply Ne. lra. }
    assert (Lx : x_star < inject_Z P).
    { destruct (Qlt_le_dec x_star (inject_Z P)) as [l|l]; [exact l|exfalso].
      pose proof (X4 P l) as G.
      assert (inject_Z P <= env); [|lra].
      apply envelope_ge; [exact HSP | lia | lia |].
      rewrite inject_Z_mult in G |- *. change (inject_Z 24) with 24 in G.
      change (inject_Z 25) with 25. lra. }
    assert (Hte : Contact.get_tick_size env = d).
    { rewrite get_tick_size_floor. unfold d. rewrite get_tick_size_floor.
      destruct Hk as [k Hk]. unfold d in Hk, Hn, E2. rewrite get_tick_size_floor in Hk, Hn, E2.
      apply (tickZ_between (Qfloor x_star) P k); [exact Hnn | exact Hk | |].
      - split; [|lia].
        assert (inject_Z (Qfloor x_star) < inject_Z P) as L
          by (pose proof (Qfloor_le x_star); lra).
        rewrite <- Zlt_Qlt in L. exact L.
      - pose proof (Qfloor_le env) as F1. pose proof (Qlt_floor env) as F2.
        split.
        + assert (inject_Z (P - tickZ (Qfloor x_star)) < inject_Z (Qfloor env + 1)) as L
            by (rewrite inject_Z_minus; lra).
          rewrite <- Zlt_Qlt in L. lia.
        + assert (inject_Z (Qfloor env) < inject_Z P) as L by lra.
          rewrite <- Zlt_Qlt in L. exact L. }
    rewrite Hte in *.
    apply (ceil_unique d _ _ env); try assumption; try lia; lra.
Qed.

End SolverFacts.

(** ** Sums beyond the reach of binary64 *)

Section LargeSums.
Import Binary64.

(** At 10^21 adding [25 * d] to the sum is absorbed by the rounding, so the
    upper bound of the acceptance test is [x_star] itself. *)
Lemma upper_absorbed_1e21 (p : Z) :
  fdiv fl (fadd fl (inject_Z (10 ^ 21)) (of_int fl (25 * tickZ p))) 24
  == fdiv fl (inject_Z (10 ^ 21)) 24.
Proof.
  unfold tickZ. repeat destruct (_ <? _)%Z; apply Qeq_bool_eq; vm_compute; reflexivity.
Qed.

Lemma solve_loop_stuck_1e21 (fuel : nat) (p : Z) :
  Contact.solve_loop fl fuel (inject_Z (10 ^ 21)) (fdiv fl (inject_Z (10 ^ 21)) 24) p
  = Iterating.
Proof.
  revert p. induction fuel as [|fuel IH]; intros p; [reflexivity|].
  cbn [Contact.solve_loop].
  assert (Hs : Contact.solve_step fl (inject_Z (10 ^ 21)) (fdiv fl (inject_Z (10 ^ 21)) 24) p
               = inr (p + tickZ p)%Z).
  { unfold Contact.solve_step. rewrite get_tick_size_inject.
    pose proof (upper_absorbed_1e21 p) as U.
    set (upper := fdiv fl (fadd fl (inject_Z (10 ^ 21)) (of_int fl (25 * tickZ p))) 24) in *.
    set (x_star := fdiv fl (inject_Z (10 ^ 21)) 24) in *.
    destruct (Qle_bool x_star (inject_Z p)) eqn:E1; [|reflexivity].
    apply Qle_bool_iff in E1.
    assert (Qltb (inject_Z p) upper = false) as -> by (apply Qltb_false; rewrite U; exact E1).
    reflexivity. }
  rewrite Hs. apply IH.
Qed.

Lemma solve_contact_price_stuck_1e21 (fuel : nat) :
  Contact.solve_contact_price fl fuel (inject_Z (10 ^ 21)) = Iterating.
Proof. unfold Contact.solve_contact_price. apply solve_loop_stuck_1e21. Qed.

Lemma predict_loop_stuck_1e21 (fuel : nat) (p : Z) :
  (Signal.ceil_tick fl (fdiv fl (inject_Z (10 ^ 21)) 24) <= p)%Z ->
  Signal.predict_loop fl fuel (inject_Z (10 ^ 21)) p = Iterating.
Proof.
  revert p. induction fuel as [|fuel IH]; intros p Hp; [reflexivity|].
  cbn [Signal.predict_loop].
  assert (Hp0 : (500000 <= Signal.ceil_tick fl (fdiv fl (inject_Z (10 ^ 21)) 24))%Z)
    by (vm_compute; discriminate).
  assert (Ht : tickZ p = 1000%Z).
  { unfold tickZ. repeat match goal with |- context [(?u <? ?v)%Z] => destruct (Z.ltb_spec u v) end; lia. }
  assert (Hs : Signal.predict_step fl (inject_Z (10 ^ 21)) p = inr (p + 1000)%Z).
  { unfold Signal.predict_step.
    change (Signal.get_tick_unit (inject_Z p)) with (Contact.get_tick_size (inject_Z p)).
    rewrite get_tick_size_inject, Ht.
    assert (U : fdiv fl (fadd fl (inject_Z (10 ^ 21)) (fmul fl 25 (of_int fl 1000))) 24
                <= inject_Z (Signal.ceil_tick fl (fdiv fl (inject_Z (10 ^ 21)) 24)))
      by (apply Qle_bool_iff; vm_compute; reflexivity).
    assert (Qltb (inject_Z p)
              (fdiv fl (fadd fl (inject_Z (10 ^ 21)) (fmul fl 25 (of_int fl 1000))) 24)
            = false) as ->.
    { apply Qltb_false. eapply Qle_trans; [exact U|]. rewrite <- Zle_Qle. exact Hp. }
    reflexivity. }
  rewrite Hs. apply IH. lia.
Qed.

Lemma predict_stuck_1e21 (fuel : nat) :
  Signal.predict_next_day_buy_price fl fuel (inject_Z (10 ^ 21)) = Iterating.
Proof. unfold Signal.predict_next_day_buy_price. apply predict_loop_stuck_1e21. lia. Qed.

(** Neither loop has a branch that raises. *)
Lemma solve_loop_never_raises fuel S19 x_star p exn :
  Contact.solve_loop fl fuel S19 x_star p <> Raised exn.
Proof.
  revert p. induction fuel as [|fuel IH]; intros p; cbn [Contact.solve_loop]; [discriminate|].
  destruct (Contact.solve_step fl S19 x_star p); [discriminate | apply IH].
Qed.

Lemma predict_loop_never_raises fuel S19 p exn :
  Signal.predict_loop fl fuel S19 p <> Raised exn.
Proof.
  revert p. induction fuel as [|fuel IH]; intros p; cbn [Signal.predict_loop]; [discriminate|].
  destruct (Signal.predict_step fl S19 p); [discriminate | apply IH].
Qed.

End LargeSums.

(** ** Arguments that are not finite *)

Section FloatArguments.
Variable rnd : Q -> Q.

(** On a finite argument the functions on [pyfloat] are the functions on
    [Q]. *)
Lemma contact_ceil_tick_float_finite y :
  Contact.ceil_tick_float rnd (Finite y) = Returned (Contact.ceil_tick rnd y).
Proof. reflexivity. Qed.

Lemma signal_ceil_tick_float_finite y :
  Signal.ceil_tick_float rnd (Finite y) = Returned (Signal.ceil_tick rnd y).
Proof. reflexivity. Qed.

Lemma solve_loop_float_finite fuel S19 x_star p :
  Contact.solve_loop_float rnd fuel (Finite S19) (Finite x_star) p
  = Contact.solve_loop rnd fuel S19 x_star p.
Proof.
  revert p. induction fuel as [|fuel IH]; intros p; [reflexivity|].
  cbn [Contact.solve_loop_float Contact.solve_loop].
  change (Contact.solve_step_float rnd (Finite S19) (Finite x_star) p)
    with (Contact.solve_step rnd S19 x_star p).
  destruct (Contact.solve_step rnd S19 x_star p); [reflexivity | apply IH].
Qed.

Lemma predict_loop_float_finite fuel S19 p :
  Signal.predict_loop_float rnd fuel (Finite S19) p
  = Signal.predict_loop rnd fuel S19 p.
Proof.
  revert p. induction fuel as [|fuel IH]; intros p; [reflexivity|].
  cbn [Signal.predict_loop_float Signal.predict_loop].
  change (Signal.predict_step_float rnd (Finite S19) p)
    with (Signal.predict_step rnd S19 p).
  destruct (Signal.predict_step rnd S19 p); [reflexivity | apply IH].
Qed.

Lemma solve_contact_price_float_finite fuel S19 :
  Contact.solve_contact_price_float rnd fuel (Finite S19)
  = Contact.solve_contact_price rnd fuel S19.
Proof.
  unfold Contact.solve_contact_price_float, Contact.solve_contact_price.
  cbn [pyfloat_div]. rewrite contact_ceil_tick_float_finite.
  apply solve_loop_float_finite.
Qed.

Lemma predict_next_day_buy_price_float_finite fuel S19 :
  Signal.predict_next_day_buy_price_float rnd fuel (Finite S19)
  = Signal.predict_next_day_buy_price rnd fuel S19.
Proof.
  unfold Signal.predict_next_day_buy_price_float, Signal.predict_next_day_buy_price.
  cbn [pyfloat_div]. rewrite signal_ceil_tick_float_finite.
  apply predict_loop_float_finite.
Qed.

End FloatArguments.

(** ** The alert check *)

Section AlertFacts.
Import Monitor.

Lemma marked_send_and_mark h ticker key before cur tgt d t k :
  marked (snd (fst (send_and_mark h ticker key before cur tgt d))) t k =
  if decide (t = ticker /\ k = key) then true else marked h t k.
Proof.
  unfold marked, send_and_mark, ticker_alerts_of, fired. cbn [fst snd alerts default from_option id].
  destruct (decide (t = ticker)) as [->|Ht].
  - rewrite lookup_insert_eq. cbn [default from_option id].
    destruct (decide (k = key)) as [->|Hk].
    + rewrite lookup_insert_eq. rewrite decide_True by done. reflexivity.
    + rewrite lookup_insert_ne by done. rewrite decide_False by (intros [_ ?]; done). reflexivity.
  - rewrite lookup_insert_ne by done. rewrite decide_False by (intros [? _]; done). reflexivity.
Qed.

Variable fl : Q -> Q.


Lemma check_tier_result t ticker cur low line h :
  tier_result t ticker h (check_tier fl t ticker cur low line h).
Proof.
  unfold check_tier.
  destruct (calculate_low_price_distance fl low line) as [d|]; [|constructor].
  fold (marked h ticker (executed_key t)) (marked h ticker (ready1_key t))
       (marked h ticker (ready3_key t)) (marked h ticker (ready5_key t)).
  repeat match goal with
  | |- context [if ?b then _ else _] => destruct b eqn:?
  end; try constructor;
  repeat match goal with
  | H : negb _ = true |- _ => apply negb_true_iff in H
  | H : _ && _ = true |- _ => apply andb_true_iff in H; destruct H
  end; simpl; auto 6.
Qed.

Lemma Returned_inj {A} (a b : A) : Returned a = Returned b -> a = b.
Proof. intros E. injection E as E. exact E. Qed.

Lemma marked_after_fire h ticker key before cur tgt d evs h1 r :
  send_and_mark h ticker key before cur tgt d = (evs, h1, r) ->
  marked h1 ticker key = true.
Proof.
  intros E. assert (h1 = snd (fst (send_and_mark h ticker key before cur tgt d))) as ->
    by (rewrite E; reflexivity).
  rewrite marked_send_and_mark. rewrite decide_True by done. reflexivity.
Qed.

Lemma check_tier_again t ticker cur low line h evs h1 r :
  check_tier fl t ticker cur low line h = Returned (evs, h1, r) ->
  check_tier fl t ticker cur low line h1 = Returned ([], h1, false).
Proof.
  unfold check_tier.
  destruct (calculate_low_price_distance fl low line) as [d|]; [|discriminate].
  fold (marked h ticker (executed_key t)) (marked h ticker (ready1_key t))
       (marked h ticker (ready3_key t)) (marked h ticker (ready5_key t))
       (marked h1 ticker (executed_key t)) (marked h1 ticker (ready1_key t))
       (marked h1 ticker (ready3_key t)) (marked h1 ticker (ready5_key t)).
  destruct (Qle_bool d 0);
    [|destruct (Qltb 0 d && Qle_bool d 1);
      [|destruct (Qltb 0 d && Qle_bool d 3);
        [|destruct (Qltb 0 d && Qle_bool d 5)]]].
  all: match goal with
       | |- (if ?c then _ else _) = _ -> _ => destruct c eqn:C
       | |- _ => idtac
       end.
  all: intros E; apply Returned_inj in E.
  all: try (apply marked_after_fire in E; rewrite E; reflexivity).
  all: injection E as <- <- <-; try reflexivity; rewrite C; reflexivity.
Qed.

(** A call that returns [False] causes nothing; a call that returns [True]
    sends one alert, saves once and marks one key that was not marked. *)
Lemma check_tier_frame t ticker cur low line h evs h1 r :
  check_tier fl t ticker cur low line h = Returned (evs, h1, r) ->
  (r = false /\ h1 = h /\ evs = []) \/
  (r = true /\ date h1 = date h /\
   length (List.filter is_send evs) = 1%nat /\
   List.filter is_save evs = [SaveAlertHistory h1] /\
   exists key,
     In key [executed_key t; ready1_key t; ready3_key t; ready5_key t] /\
     marked h ticker key = false /\
     forall tk k, marked h1 tk k =
                  if decide (tk = ticker /\ k = key) then true else marked h tk k).
Proof.
  intros E. pose proof (check_tier_result t ticker cur low line h) as R.
  rewrite E in R. inversion R as [ | | key before c g d Hin Hm Hb Heq]; subst.
  - left. auto.
  - right. split; [reflexivity|]. split; [reflexivity|].
    split; [destruct Hb as [-> | ->]; reflexivity|].
    split; [destruct Hb as [-> | ->]; reflexivity|].
    exists key. split; [exact Hin|]. split; [exact Hm|].
    intros tk k. apply (marked_send_and_mark h ticker key before c g d tk k).
Qed.
End AlertFacts.

(** ** Exact matches *)

Section ExactMatch.
Import Binary64.

(** [%] by the tick is zero on a multiple of the tick, for any rounding. *)
Lemma float_rem_multiple (rnd : Q -> Q) y wx (k d : Z) :
  (0 < d)%Z -> wx == inject_Z d -> y == inject_Z (k * d) ->
  float_rem rnd y wx == 0.
Proof.
  intros Hd Hw Hy.
  assert (Pd : 0 < inject_Z d) by (apply inject_Z_pos; exact Hd).
  assert (Hm : fmod y wx == 0).
  { unfold fmod.
    assert (E : y / wx == inject_Z k).
    { rewrite Hy, Hw, inject_Z_mult. field. lra. }
    rewrite (Qtrunc_comp _ _ E), Qtrunc_Z, Hy, Hw, inject_Z_mult. ring. }
  unfold float_rem, float_div_mod.
  apply Qeq_eq_bool in Hm. rewrite Hm. cbn [snd]. reflexivity.
Qed.

Lemma on_tick_multiple (n : Z) :
  (n mod tickZ n = 0)%Z -> n = (n / tickZ n * tickZ n)%Z.
Proof.
  intros H. pose proof (tickZ_range n). rewrite Z.mul_comm.
  apply Z.div_exact; [lia | exact H].
Qed.

Lemma contact_ceil_tick_on_tick (n : Z) :
  (0 <= n <= 10 ^ 15)%Z -> (n mod tickZ n = 0)%Z ->
  Contact.ceil_tick fl (inject_Z n) = n.
Proof.
  intros Hn Hm.
  assert (H0 : 0 <= inject_Z n) by (apply inject_Z_nonneg; lia).
  assert (H1 : inject_Z n < pow2 52).
  { rewrite pow2_Z by lia. rewrite <- Zlt_Qlt. lia. }
  destruct (contact_ceil_tick_spec (inject_Z n) H0 H1) as (Hk & A & B).
  rewrite get_tick_size_inject in *.
  pose proof (tickZ_range n) as Hd.
  assert (Pd : 0 < inject_Z (tickZ n)) by (apply inject_Z_pos; lia).
  symmetry.
  apply (ceil_unique (tickZ n) _ _ (inject_Z n)); try assumption; try lia; try lra.
  eexists. apply on_tick_multiple. exact Hm.
Qed.

End ExactMatch.

(** ** The alert check as a whole *)

Section AlertCheckFacts.
Import Monitor.
Variable rnd : Q -> Q.

Lemma check_simplified_alert_tier ticker name cur low st b1 b2 b3 h t line :
  active_tier st b1 b2 b3 = Some (t, line) ->
  check_simplified_alert rnd ticker name cur low st (Some b1) (Some b2) (Some b3) h
  = check_tier rnd t ticker cur low line h.
Proof. intros E. unfold check_simplified_alert. rewrite E. reflexivity. Qed.

(** A call is quiet, or it is the branch of one of the three tiers. *)
Lemma check_simplified_alert_cases ticker name cur low st b1 b2 b3 h :
  check_simplified_alert rnd ticker name cur low st b1 b2 b3 h
  = Returned ([], h, false) \/
  exists t line,
    check_simplified_alert rnd ticker name cur low st b1 b2 b3 h
    = check_tier rnd t ticker cur low line h.
Proof.
  unfold check_simplified_alert.
  destruct b1 as [b1|]; [|left; reflexivity].
  destruct b2 as [b2|]; [|left; reflexivity].
  destruct b3 as [b3|]; [|left; reflexivity].
  destruct (active_tier st b1 b2 b3) as [[t line]|]; [|left; reflexivity].
  right. exists t, line. reflexivity.
Qed.

End AlertCheckFacts.

(** * The claims *)

(** ** C1: the solver and its verifier *)

(** C1, refuted as stated.  The sum 10^21 is a float, and on it the solver
    never returns: adding [25 * d] no longer changes the sum, so the
    acceptance test [x_star <= p < upper] compares [p] with the same number
    on both sides.  At the other end, on the subnormal sum 12 * 2^-1074 the
    solver returns 0, which the verifier rejects. *)
Lemma solve_contact_price_fails_outside_range :
  (is_float (inject_Z (10 ^ 21)) /\ 0 < inject_Z (10 ^ 21) /\
   forall fuel : nat,
     Contact.solve_contact_price Binary64.fl fuel (inject_Z (10 ^ 21)) = Iterating) /\
  (is_float (12 * Binary64.pow2 (-1074)) /\ 0 < 12 * Binary64.pow2 (-1074) /\
   Contact.solve_contact_price Binary64.fl 1 (12 * Binary64.pow2 (-1074)) = Returned 0%Z /\
   Contact.verify_contact_price Binary64.fl (12 * Binary64.pow2 (-1074)) 0 = false).
Proof.
  split; [split; [|split]|split; [|split; [|split]]].
  - apply Qeq_bool_eq. vm_compute. reflexivity.
  - reflexivity.
  - exact solve_contact_price_stuck_1e21.
  - apply Qeq_bool_eq. vm_compute. reflexivity.
  - reflexivity.
  - vm_compute. reflexivity.
  - vm_compute. reflexivity.
Qed.

(** C1, amended.  For every binary64 sum S19 with 1 <= S19 <= 10^15 the
    solver returns on the first pass of its loop, and the price p it returns
    satisfies the verifier: quantizing 0.8 * (S19 + p) / 20 up gives p. *)
Theorem solve_contact_price_verified (S19 : Q) (fuel : nat) :
  realistic_sum S19 ->
  exists p : Z,
    Contact.solve_contact_price Binary64.fl (S fuel) S19 = Returned p /\
    Contact.verify_contact_price Binary64.fl S19 p = true.
Proof.
  intros HS. exists (Contact.ceil_tick Binary64.fl (fdiv Binary64.fl S19 24)).
  split; [apply solve_contact_price_first | apply verify_first]; exact HS.
Qed.

Lemma realistic_sum_1653800 : realistic_sum 1653800.
Proof.
  split; [|split].
  - apply Qeq_bool_eq. vm_compute. reflexivity.
  - unfold Qle. simpl. lia.
  - unfold Qle. simpl. lia.
Defined.

Lemma solve_contact_price_verified_witness :
  realistic_sum 1653800 /\
  exists p : Z,
    Contact.solve_contact_price Binary64.fl 1 1653800 = Returned p /\
    Contact.verify_contact_price Binary64.fl 1653800 p = true.
Proof.
  split; [exact realistic_sum_1653800|].
  exact (solve_contact_price_verified 1653800 0 realistic_sum_1653800).
Defined.

(** ** C2: the exact-match policy *)

(** C2, refuted as stated.  The price 1000 is on-tick.  The rounding used
    for the second and third buy line ([get_nearest_tick_price] of the
    signal system) does not return it: it returns 1001.  The candidate
    generation of the solver ([ceil_tick]) does not step to the next tick:
    it returns 1000. *)
Lemma exact_match_policy_is_the_reverse :
  (1000 mod tickZ 1000 = 0)%Z /\
  ~ Signal.get_nearest_tick_price Binary64.fl 1000 == 1000 /\
  Signal.get_nearest_tick_price Binary64.fl 1000 == 1001 /\
  Contact.ceil_tick Binary64.fl 1000 <> 1001%Z /\
  Contact.ceil_tick Binary64.fl 1000 = 1000%Z.
Proof.
  split; [reflexivity|]. split; [|split; [|split]].
  - apply Qeq_bool_false. vm_compute. reflexivity.
  - apply Qeq_bool_eq. vm_compute. reflexivity.
  - vm_compute. discriminate.
  - vm_compute. reflexivity.
Qed.

(** C2, amended.  For every on-tick price n (an integer from 0 to 10^15
    that is a multiple of its tick size): the rounding used for the second
    and third buy line escalates it to n plus one tick; the candidate
    generation of the solver, in both copies of [ceil_tick], returns n
    unchanged; so does [get_nearest_tick_price] of the monitor. *)
Theorem exact_match_policy (n : Z) :
  (0 <= n <= 10 ^ 15)%Z -> (n mod tickZ n = 0)%Z ->
  Signal.get_nearest_tick_price Binary64.fl (inject_Z n) == inject_Z (n + tickZ n) /\
  Contact.ceil_tick Binary64.fl (inject_Z n) = n /\
  Signal.ceil_tick Binary64.fl (inject_Z n) = n /\
  Monitor.get_nearest_tick_price Binary64.fl (inject_Z n) == inject_Z n.
Proof.
  intros Hn Hm.
  pose proof (tickZ_range n) as Hd.
  assert (Hw : of_int Binary64.fl (tickZ n) == inject_Z (tickZ n))
    by (apply of_int_exact; lia).
  assert (Hr : float_rem Binary64.fl (inject_Z n) (of_int Binary64.fl (tickZ n)) == 0).
  { apply (float_rem_multiple Binary64.fl _ _ (n / tickZ n) (tickZ n)); [lia | exact Hw |].
    rewrite <- on_tick_multiple by exact Hm. reflexivity. }
  apply Qeq_eq_bool in Hr.
  split; [|split; [|split]].
  - unfold Signal.get_nearest_tick_price.
    change (Signal.get_tick_unit (inject_Z n)) with (Contact.get_tick_size (inject_Z n)).
    rewrite get_tick_size_inject, Hr.
    unfold fadd. rewrite Hw, <- inject_Z_plus. apply fl_int_exact. lia.
  - apply contact_ceil_tick_on_tick; assumption.
  - rewrite trading_ceil_tick_eq.
    + apply contact_ceil_tick_on_tick; assumption.
    + apply is_float_int. lia.
    + apply inject_Z_nonneg. lia.
    + rewrite pow2_Z by lia. rewrite <- Zlt_Qlt. lia.
  - unfold Monitor.get_nearest_tick_price.
    change (Monitor.calculate_tick_unit (inject_Z n)) with (Contact.get_tick_size (inject_Z n)).
    rewrite get_tick_size_inject, Hr. reflexivity.
Qed.

Lemma exact_match_policy_witness :
  (0 <= 45000 <= 10 ^ 15)%Z /\ (45000 mod tickZ 45000 = 0)%Z /\
  Signal.get_nearest_tick_price Binary64.fl (inject_Z 45000) == inject_Z (45000 + tickZ 45000) /\
  Contact.ceil_tick Binary64.fl (inject_Z 45000) = 45000%Z /\
  Signal.ceil_tick Binary64.fl (inject_Z 45000) = 45000%Z /\
  Monitor.get_nearest_tick_price Binary64.fl (inject_Z 45000) == inject_Z 45000.
Proof.
  assert (A : (0 <= 45000 <= 10 ^ 15)%Z) by lia.
  assert (B : (45000 mod tickZ 45000 = 0)%Z) by reflexivity.
  split; [exact A|]. split; [exact B|].
  exact (exact_match_policy 45000 A B).
Defined.

(** ** C3: the two 19-close sums *)

(** C3, as the code has it.  For every series of closes the sum used for
    today's fill and the sum used for the next session are the same value:
    both are [S20_today] minus the close at [iloc[-20]].  The two first buy
    lines computed from them coincide as well. *)
Theorem S19_today_is_S19_next (rnd : Q -> Q) (closes : list Q) :
  Signal.S19_today rnd closes = Signal.S19_next rnd closes /\
  forall fuel : nat, Signal.buy1_today rnd fuel closes = Signal.buy1_next rnd fuel closes.
Proof. split; [reflexivity | intros fuel; reflexivity]. Qed.

(** The sums on the closes 1000, 1010, ..., 1190 (oldest first): both are
    the sum of the last nineteen closes, 1010 + ... + 1190 = 20900; the sum
    of the nineteen closes before today's would be 20710. *)
Lemma S19_example :
  let closes := map (fun k => inject_Z (1000 + 10 * Z.of_nat k)) (seq 0 20) in
  (exists s, Signal.S19_today Binary64.fl closes = Some s /\ s == 20900) /\
  (exists s, Signal.S19_next Binary64.fl closes = Some s /\ s == 20900).
Proof.
  split; eexists; (split; [vm_compute; reflexivity | reflexivity]).
Qed.

(** ** C4: the sell lines *)

(** C4, as the code has it.  With an average entry price of 10010 the first
    sell line of [analyze_stock] is 10010 * 1.03 without any rounding to the
    tick: it lies strictly between 10310, which is what rounding down to the
    tick gives, and 10311. *)
Theorem sell_lines_are_not_quantized :
  Signal.calculate_sell_line Binary64.fl 3 10010 = 10310%Z /\
  ~ Signal.sell_line Binary64.fl 10010 0 == inject_Z (Signal.calculate_sell_line Binary64.fl 3 10010) /\
  10310 < Signal.sell_line Binary64.fl 10010 0 /\ Signal.sell_line Binary64.fl 10010 0 < 10311.
Proof.
  split; [vm_compute; reflexivity|]. split; [|split].
  - apply Qeq_bool_false. vm_compute. reflexivity.
  - apply Qltb_true. vm_compute. reflexivity.
  - apply Qltb_true. vm_compute. reflexivity.
Qed.

(** ** C5: iteration cap and error *)

(** C5, refuted as stated.  Whatever the cap, on the sum 10^21 the solver
    and the predictor have neither returned nor raised after that many
    passes: the loops have no cap and no error exit. *)
Lemma solver_loops_have_no_cap :
  is_float (inject_Z (10 ^ 21)) /\ 0 < inject_Z (10 ^ 21) /\
  forall cap : nat,
    Contact.solve_contact_price Binary64.fl cap (inject_Z (10 ^ 21)) = Iterating /\
    Signal.predict_next_day_buy_price Binary64.fl cap (inject_Z (10 ^ 21)) = Iterating.
Proof.
  split; [|split].
  - apply Qeq_bool_eq. vm_compute. reflexivity.
  - reflexivity.
  - intros cap.
    split; [apply solve_contact_price_stuck_1e21 | apply predict_stuck_1e21].
Qed.

(** C5, amended.  Neither loop carries a cap, and no error of the name
    ContactPriceUnsolvedError exists.  On a float argument: NaN or an
    infinity makes [ceil_tick] raise before the loop is entered (the solver
    raises ValueError; the predictor ValueError on NaN and OverflowError on
    an infinity); on a finite argument, whatever the number of passes, a
    call has returned or is still iterating and has not raised.  On every
    binary64 sum from 1 to 10^15 both loops return on their first pass. *)
Theorem solver_loops_return_or_iterate :
  (forall (fuel : nat) (S19 : Q),
     Contact.solve_contact_price_float Binary64.fl fuel (Finite S19)
     = Contact.solve_contact_price Binary64.fl fuel S19 /\
     Signal.predict_next_day_buy_price_float Binary64.fl fuel (Finite S19)
     = Signal.predict_next_day_buy_price Binary64.fl fuel S19 /\
     forall exn : string,
       Contact.solve_contact_price_float Binary64.fl fuel (Finite S19) <> Raised exn /\
       Signal.predict_next_day_buy_price_float Binary64.fl fuel (Finite S19)
       <> Raised exn) /\
  (forall fuel : nat,
     Contact.solve_contact_price_float Binary64.fl fuel NaN = Raised "ValueError" /\
     Contact.solve_contact_price_float Binary64.fl fuel PosInf = Raised "ValueError" /\
     Contact.solve_contact_price_float Binary64.fl fuel NegInf = Raised "ValueError" /\
     Signal.predict_next_day_buy_price_float Binary64.fl fuel NaN
     = Raised "ValueError" /\
     Signal.predict_next_day_buy_price_float Binary64.fl fuel PosInf
     = Raised "OverflowError" /\
     Signal.predict_next_day_buy_price_float Binary64.fl fuel NegInf
     = Raised "OverflowError") /\
  (forall S19 : Q, realistic_sum S19 ->
     (exists p, Contact.solve_contact_price_float Binary64.fl 1 (Finite S19)
                = Returned p) /\
     (exists p, Signal.predict_next_day_buy_price_float Binary64.fl 1 (Finite S19)
                = Returned p)).
Proof.
  split; [|split].
  - intros fuel S19.
    rewrite solve_contact_price_float_finite, predict_next_day_buy_price_float_finite.
    split; [reflexivity|]. split; [reflexivity|].
    intros exn. split.
    + apply solve_loop_never_raises.
    + apply predict_loop_never_raises.
  - intros fuel. repeat split; reflexivity.
  - intros S19 HS.
    rewrite solve_contact_price_float_finite, predict_next_day_buy_price_float_finite.
    split; eexists.
    + apply solve_contact_price_first. exact HS.
    + apply predict_first. exact HS.
Qed.

Lemma realistic_sum_479880 : realistic_sum 479880.
Proof.
  split; [|split].
  - apply Qeq_bool_eq. vm_compute. reflexivity.
  - unfold Qle. simpl. lia.
  - unfold Qle. simpl. lia.
Defined.

Lemma solver_loops_return_or_iterate_witness :
  realistic_sum 479880 /\
  (exists p, Contact.solve_contact_price_float Binary64.fl 1 (Finite 479880)
             = Returned p) /\
  (exists p, Signal.predict_next_day_buy_price_float Binary64.fl 1 (Finite 479880)
             = Returned p).
Proof.
  split; [exact realistic_sum_479880|].
  exact (proj2 (proj2 solver_loops_return_or_iterate) 479880 realistic_sum_479880).
Defined.

(** ** C6: the predictor and the solver *)

(** C6, refuted as stated.  On the float 2^63 + 2^14 both functions return
    at once, with different prices: the predictor starts from
    [math.ceil(x_star / 1000) * 1000], where the rounded quotient is already
    an integer below [x_star / 1000], and accepts that candidate although it
    lies below [x_star]; the solver rejects such a candidate. *)
Lemma predictor_differs_from_solver :
  is_float (inject_Z (2 ^ 63 + 2 ^ 14)) /\ 0 < inject_Z (2 ^ 63 + 2 ^ 14) /\
  Contact.solve_contact_price Binary64.fl 1 (inject_Z (2 ^ 63 + 2 ^ 14))
  = Returned 384307168202284000%Z /\
  Signal.predict_next_day_buy_price Binary64.fl 1 (inject_Z (2 ^ 63 + 2 ^ 14))
  = Returned 384307168202283000%Z.
Proof.
  split; [|split; [|split]].
  - apply Qeq_bool_eq. vm_compute. reflexivity.
  - reflexivity.
  - vm_compute. reflexivity.
  - vm_compute. reflexivity.
Qed.

(** C6, amended.  For every binary64 sum S19 with 1 <= S19 <= 10^15 and
    every number of passes, the predictor used for buy1 returns what the
    solver of the calculator returns. *)
Theorem predict_next_day_buy_price_is_solve_contact_price
    (S19 : Q) (fuel : nat) :
  realistic_sum S19 ->
  Signal.predict_next_day_buy_price Binary64.fl fuel S19
  = Contact.solve_contact_price Binary64.fl fuel S19.
Proof.
  intros HS. destruct fuel as [|fuel]; [reflexivity|].
  rewrite predict_first, solve_contact_price_first by exact HS. reflexivity.
Qed.

Lemma realistic_sum_12000000 : realistic_sum 12000000.
Proof.
  split; [|split].
  - apply Qeq_bool_eq. vm_compute. reflexivity.
  - unfold Qle. simpl. lia.
  - unfold Qle. simpl. lia.
Defined.

Lemma predict_next_day_buy_price_is_solve_contact_price_witness :
  realistic_sum 12000000 /\
  Signal.predict_next_day_buy_price Binary64.fl 3 12000000
  = Contact.solve_contact_price Binary64.fl 3 12000000.
Proof.
  split; [exact realistic_sum_12000000|].
  exact (predict_next_day_buy_price_is_solve_contact_price 12000000 3
           realistic_sum_12000000).
Defined.

(** ** C7: the quantizers *)

(** C7, refuted as stated.  Both prices are floats.  On 2^62 + 2^10 the
    quotient by the tick rounds up to the next integer, and [floor_tick]
    returns a price above its argument; on 2^64 - 2^11 the floor division
    of [ceil_tick] loses two units, and [ceil_tick] returns a price below
    its argument. *)
Lemma quantizers_miss_on_large_prices :
  (is_float (inject_Z (2 ^ 62 + 2 ^ 10)) /\ 0 <= inject_Z (2 ^ 62 + 2 ^ 10) /\
   inject_Z (2 ^ 62 + 2 ^ 10)
   < inject_Z (Signal.floor_tick Binary64.fl (inject_Z (2 ^ 62 + 2 ^ 10)))) /\
  (is_float (inject_Z (2 ^ 64 - 2 ^ 11)) /\ 0 <= inject_Z (2 ^ 64 - 2 ^ 11) /\
   inject_Z (Contact.ceil_tick Binary64.fl (inject_Z (2 ^ 64 - 2 ^ 11)))
   < inject_Z (2 ^ 64 - 2 ^ 11)).
Proof.
  split; (split; [|split]).
  - apply Qeq_bool_eq. vm_compute. reflexivity.
  - discriminate.
  - vm_compute. reflexivity.
  - apply Qeq_bool_eq. vm_compute. reflexivity.
  - discriminate.
  - vm_compute. reflexivity.
Qed.

(** C7, amended.  For every binary64 price p with 0 <= p <= 10^15:
    [ceil_tick] (both copies, which agree) returns a price at or above p
    that is a multiple of the tick size at the returned price, and
    [floor_tick] returns a price at or below p that is a multiple of the
    tick size at the returned price. *)
Theorem quantizers_bound_and_on_tick (p : Q) :
  is_float p -> 0 <= p -> p <= 1000000000000000 ->
  let up := Contact.ceil_tick Binary64.fl p in
  let down := Signal.floor_tick Binary64.fl p in
  (p <= inject_Z up /\ (up mod Contact.get_tick_size (inject_Z up) = 0)%Z) /\
  Signal.ceil_tick Binary64.fl p = up /\
  (inject_Z down <= p /\ (down mod Signal.get_tick_unit (inject_Z down) = 0)%Z).
Proof.
  intros Fp H0 H1 up down.
  assert (H52 : p < Binary64.pow2 52).
  { eapply Qle_lt_trans; [exact H1|]. apply Qlt_alt. reflexivity. }
  pose proof (get_tick_size_range p) as Hd.
  pose proof (Qfloor_le p) as F1. pose proof (Qlt_floor p) as F2.
  assert (Hn : (0 <= Qfloor p)%Z).
  { change 0%Z with (Qfloor 0). apply Qfloor_resp_le. exact H0. }
  split; [|split].
  - destruct (contact_ceil_tick_spec p H0 H52) as ([k Hk] & A & B).
    fold up in Hk, A, B. split; [exact B|].
    rewrite get_tick_size_inject.
    rewrite get_tick_size_floor in Hk, A.
    apply (tickZ_ceil_on_grid (Qfloor p) up k Hn Hk).
    split.
    + rewrite Zle_Qle. lra.
    + assert (inject_Z (up - tickZ (Qfloor p)) < inject_Z (Qfloor p + 1)) as L
        by (rewrite inject_Z_minus; lra).
      rewrite <- Zlt_Qlt in L. lia.
  - apply trading_ceil_tick_eq; assumption.
  - unfold down. rewrite (trading_floor_tick_spec p Fp H0 H52).
    destruct (Qfloor_div_bounds p (Contact.get_tick_size p) ltac:(lia)) as [K1 K2].
    set (k := Qfloor (p / inject_Z (Contact.get_tick_size p))) in *.
    split; [exact K1|].
    change (Signal.get_tick_unit (inject_Z (k * Contact.get_tick_size p)))
      with (Contact.get_tick_size (inject_Z (k * Contact.get_tick_size p))).
    rewrite get_tick_size_inject.
    rewrite get_tick_size_floor in *.
    rewrite (tickZ_floor_same (Qfloor p) (k * tickZ (Qfloor p)) k Hn eq_refl).
    + apply Z.mod_mul. lia.
    + split.
      * assert (inject_Z (Qfloor p) < inject_Z ((k + 1) * tickZ (Qfloor p))) as L by lra.
        rewrite <- Zlt_Qlt in L. lia.
      * assert (inject_Z (k * tickZ (Qfloor p)) < inject_Z (Qfloor p + 1)) as L by lra.
        rewrite <- Zlt_Qlt in L. lia.
Qed.

Lemma quantizers_bound_and_on_tick_witness :
  is_float (3999 # 2) /\ 0 <= 3999 # 2 /\ 3999 # 2 <= 1000000000000000 /\
  (3999 # 2 <= inject_Z (Contact.ceil_tick Binary64.fl (3999 # 2)) /\
   (Contact.ceil_tick Binary64.fl (3999 # 2)
    mod Contact.get_tick_size (inject_Z (Contact.ceil_tick Binary64.fl (3999 # 2))) = 0)%Z) /\
  Signal.ceil_tick Binary64.fl (3999 # 2) = Contact.ceil_tick Binary64.fl (3999 # 2) /\
  (inject_Z (Signal.floor_tick Binary64.fl (3999 # 2)) <= 3999 # 2 /\
   (Signal.floor_tick Binary64.fl (3999 # 2)
    mod Signal.get_tick_unit (inject_Z (Signal.floor_tick Binary64.fl (3999 # 2))) = 0)%Z).
Proof.
  assert (F : is_float (3999 # 2)) by (apply Qeq_bool_eq; vm_compute; reflexivity).
  assert (A : 0 <= 3999 # 2) by (unfold Qle; simpl; lia).
  assert (B : 3999 # 2 <= 1000000000000000) by (unfold Qle; simpl; lia).
  split; [exact F|]. split; [exact A|]. split; [exact B|].
  exact (quantizers_bound_and_on_tick (3999 # 2) F A B).
Defined.

(** ** C8: idempotence of the alert decision *)

(** C8.  Whatever the instrument, the inputs and the history of the epoch:
    if an evaluation returns (with events [evs], history [h1] and decision
    [r]), the epoch key of [h1] is that of [h], the stored [h1] is what a
    reload under the same epoch key gives back, and a second evaluation with
    the same inputs on [h1] sends nothing, leaves [h1] as it is and returns
    false; when the first decision was true, the key it fired is marked in
    [h1]. *)
Theorem check_simplified_alert_idempotent
    (rnd : Q -> Q) (ticker stock_name : string) (current_price low_price : Q)
    (buy_status : string) (buy1 buy2 buy3 : option Q)
    (h h1 : Monitor.history) (evs : list Monitor.event) (r : bool) :
  Monitor.check_simplified_alert rnd ticker stock_name current_price low_price
    buy_status buy1 buy2 buy3 h = Returned (evs, h1, r) ->
  Monitor.check_simplified_alert rnd ticker stock_name current_price low_price
    buy_status buy1 buy2 buy3 h1 = Returned ([], h1, false) /\
  Monitor.date h1 = Monitor.date h /\
  Monitor.load_alert_history (Monitor.date h) (Some h1) = h1 /\
  (r = true ->
   exists alert_key, marked h ticker alert_key = false /\
                     marked h1 ticker alert_key = true).
Proof.
  intros E.
  assert (Hd : Monitor.date h1 = Monitor.date h /\
               (r = true -> exists alert_key, marked h ticker alert_key = false /\
                                              marked h1 ticker alert_key = true)).
  { destruct (check_simplified_alert_cases rnd ticker stock_name current_price
                low_price buy_status buy1 buy2 buy3 h) as [Q | (t & line & Q)];
      rewrite Q in E.
    - apply Returned_inj in E. injection E as <- <- <-. split; [reflexivity | discriminate].
    - destruct (check_tier_frame rnd t ticker current_price low_price line h evs h1 r E)
        as [(-> & -> & ->) | (-> & Hdate & _ & _ & key & _ & Hm & Hall)].
      + split; [reflexivity | discriminate].
      + split; [exact Hdate|]. intros _. exists key. split; [exact Hm|].
        rewrite Hall. rewrite decide_True by done. reflexivity. }
  destruct Hd as [Hdate Hkey].
  split; [|split; [exact Hdate|split; [|exact Hkey]]].
  - revert E. unfold Monitor.check_simplified_alert.
    destruct buy1 as [b1|]; [|intros E; apply Returned_inj in E; injection E as <- <- <-; reflexivity].
    destruct buy2 as [b2|]; [|intros E; apply Returned_inj in E; injection E as <- <- <-; reflexivity].
    destruct buy3 as [b3|]; [|intros E; apply Returned_inj in E; injection E as <- <- <-; reflexivity].
    destruct (Monitor.active_tier buy_status b1 b2 b3) as [[t line]|];
      [|intros E; apply Returned_inj in E; injection E as <- <- <-; reflexivity].
    apply check_tier_again.
  - unfold Monitor.load_alert_history. rewrite Hdate. rewrite decide_True by reflexivity.
    reflexivity.
Qed.

Lemma check_simplified_alert_idempotent_witness :
  exists (evs : list Monitor.event) (h1 : Monitor.history),
    Monitor.check_simplified_alert Binary64.fl "005930" "Samsung" 70000 70000 "NONE"
      (Some 70000) (Some 63000) (Some 56700)
      {| Monitor.date := "2025-10-14"; Monitor.alerts := Some ∅ |}
    = Returned (evs, h1, true) /\
    Monitor.check_simplified_alert Binary64.fl "005930" "Samsung" 70000 70000 "NONE"
      (Some 70000) (Some 63000) (Some 56700) h1
    = Returned ([], h1, false) /\
    marked h1 "005930" "BUY1_EXECUTED" = true.
Proof.
  eexists. eexists.
  match goal with |- ?A /\ _ => assert (E : A) by (vm_compute; reflexivity) end.
  split; [exact E|]. split.
  - exact (proj1 (check_simplified_alert_idempotent _ _ _ _ _ _ _ _ _ _ _ _ _ E)).
  - reflexivity.
Defined.

(** ** C9: escalation between thresholds *)

(** C9.  Take the tier selected by the buy status and let the low price lie
    within 5% above its buy line.  If the 1% key of that tier has fired in
    this epoch, the call sends nothing, changes nothing and returns false,
    in the 3% band and in the 5% band alike; if the 3% key has fired, the
    same holds in the 5% band.  The inverse is not suppressed: if the 1% key
    has not fired and the low price lies within 1%, the call sends exactly
    the 1% alert, saves the history with the 1% key added and returns true,
    whether or not the 3% and 5% keys have fired before; and between 1% and
    3% it sends exactly the 3% alert when neither the 1% nor the 3% key has
    fired, whether or not the 5% key has. *)
Theorem closer_alert_suppresses_farther
    (rnd : Q -> Q) (ticker stock_name : string) (current_price low_price : Q)
    (buy_status : string) (b1 b2 b3 : Q) (h : Monitor.history)
    (t : Monitor.tier) (buy_line d : Q) :
  Monitor.active_tier buy_status b1 b2 b3 = Some (t, buy_line) ->
  Monitor.calculate_low_price_distance rnd low_price buy_line = Some d ->
  0 < d -> d <= 5 ->
  (marked h ticker (Monitor.ready1_key t) = true ->
   Monitor.check_simplified_alert rnd ticker stock_name current_price low_price
     buy_status (Some b1) (Some b2) (Some b3) h
   = Returned ([], h, false)) /\
  (marked h ticker (Monitor.ready3_key t) = true -> 3 < d ->
   Monitor.check_simplified_alert rnd ticker stock_name current_price low_price
     buy_status (Some b1) (Some b2) (Some b3) h
   = Returned ([], h, false)) /\
  (marked h ticker (Monitor.ready1_key t) = false -> d <= 1 ->
   exists h1 : Monitor.history,
     Monitor.check_simplified_alert rnd ticker stock_name current_price low_price
       buy_status (Some b1) (Some b2) (Some b3) h
     = Returned ([Monitor.SendRealtimeAlert (Monitor.ready1_key t) ticker
                    current_price buy_line d;
                  Monitor.SaveAlertHistory h1], h1, true) /\
     Monitor.date h1 = Monitor.date h /\
     forall tk k, marked h1 tk k =
                  if decide (tk = ticker /\ k = Monitor.ready1_key t) then true
                  else marked h tk k) /\
  (marked h ticker (Monitor.ready1_key t) = false ->
   marked h ticker (Monitor.ready3_key t) = false -> 1 < d -> d <= 3 ->
   exists h1 : Monitor.history,
     Monitor.check_simplified_alert rnd ticker stock_name current_price low_price
       buy_status (Some b1) (Some b2) (Some b3) h
     = Returned ([Monitor.SendRealtimeAlert (Monitor.ready3_key t) ticker
                    current_price buy_line d;
                  Monitor.SaveAlertHistory h1], h1, true) /\
     Monitor.date h1 = Monitor.date h /\
     forall tk k, marked h1 tk k =
                  if decide (tk = ticker /\ k = Monitor.ready3_key t) then true
                  else marked h tk k).
Proof.
  intros Ht Hd H0 H5.
  rewrite (check_simplified_alert_tier rnd ticker stock_name current_price
             low_price buy_status b1 b2 b3 h t buy_line Ht).
  unfold Monitor.check_tier. rewrite Hd.
  fold (marked h ticker (Monitor.executed_key t)) (marked h ticker (Monitor.ready1_key t))
       (marked h ticker (Monitor.ready3_key t)) (marked h ticker (Monitor.ready5_key t)).
  assert (Qle_bool d 0 = false) as -> by (apply Qle_bool_false; exact H0).
  assert (Qltb 0 d = true) as -> by (apply Qltb_true; exact H0).
  assert (Qle_bool d 5 = true) as -> by (apply Qle_bool_iff; exact H5).
  cbn [andb].
  split; [|split; [|split]].
  - intros ->. cbn [negb andb].
    destruct (Qle_bool d 1); [reflexivity|].
    destruct (Qle_bool d 3); [|rewrite andb_false_r];
      destruct (negb (marked h ticker (Monitor.ready3_key t)));
      destruct (negb (marked h ticker (Monitor.ready5_key t))); reflexivity.
  - intros -> H3.
    assert (Qle_bool d 1 = false) as -> by (apply Qle_bool_false; lra).
    assert (Qle_bool d 3 = false) as -> by (apply Qle_bool_false; exact H3).
    cbn [negb]. rewrite andb_false_r. reflexivity.
  - intros -> H1.
    assert (Qle_bool d 1 = true) as -> by (apply Qle_bool_iff; exact H1).
    cbn [negb]. eexists. split; [reflexivity|]. split; [reflexivity|].
    intros tk k.
    exact (marked_send_and_mark h ticker (Monitor.ready1_key t) []
             current_price buy_line d tk k).
  - intros -> -> H1 H3.
    assert (Qle_bool d 1 = false) as -> by (apply Qle_bool_false; exact H1).
    assert (Qle_bool d 3 = true) as -> by (apply Qle_bool_iff; exact H3).
    cbn [negb andb]. eexists. split; [reflexivity|]. split; [reflexivity|].
    intros tk k.
    exact (marked_send_and_mark h ticker (Monitor.ready3_key t) []
             current_price buy_line d tk k).
Qed.

Lemma closer_alert_suppresses_farther_witness :
  exists d3 d5 d1 : Q,
    (Monitor.calculate_low_price_distance Binary64.fl 13100 12800 = Some d3 /\
     1 < d3 /\ d3 <= 3) /\
    (Monitor.calculate_low_price_distance Binary64.fl 13400 12800 = Some d5 /\
     3 < d5 /\ d5 <= 5) /\
    (Monitor.calculate_low_price_distance Binary64.fl 12900 12800 = Some d1 /\
     0 < d1 /\ d1 <= 1) /\
    Monitor.check_simplified_alert Binary64.fl "005930" "Samsung" 13150 13100 "NONE"
      (Some 12800) (Some 11520) (Some 10370)
      {| Monitor.date := "2025-10-14";
         Monitor.alerts := Some {[ "005930" := {[ "READY_BUY1_1%" := true ]} ]} |}
    = Returned ([], {| Monitor.date := "2025-10-14";
                       Monitor.alerts := Some {[ "005930" := {[ "READY_BUY1_1%" := true ]} ]} |},
                false) /\
    Monitor.check_simplified_alert Binary64.fl "005930" "Samsung" 13450 13400 "NONE"
      (Some 12800) (Some 11520) (Some 10370)
      {| Monitor.date := "2025-10-14";
         Monitor.alerts := Some {[ "005930" := {[ "READY_BUY1_3%" := true ]} ]} |}
    = Returned ([], {| Monitor.date := "2025-10-14";
                       Monitor.alerts := Some {[ "005930" := {[ "READY_BUY1_3%" := true ]} ]} |},
                false) /\
    exists h1 : Monitor.history,
      Monitor.check_simplified_alert Binary64.fl "005930" "Samsung" 12950 12900 "NONE"
        (Some 12800) (Some 11520) (Some 10370)
        {| Monitor.date := "2025-10-14";
           Monitor.alerts := Some {[ "005930" := {[ "READY_BUY1_5%" := true ]} ]} |}
      = Returned ([Monitor.SendRealtimeAlert "READY_BUY1_1%" "005930" 12950 12800 d1;
                   Monitor.SaveAlertHistory h1], h1, true) /\
      marked h1 "005930" "READY_BUY1_1%" = true /\
      marked h1 "005930" "READY_BUY1_5%" = true.
Proof.
  eexists. eexists. eexists.
  match goal with |- (?A /\ _) /\ _ => assert (E3 : A) by (vm_compute; reflexivity) end.
  match goal with |- _ /\ (?A /\ _) /\ _ => assert (E5 : A) by (vm_compute; reflexivity) end.
  match goal with |- _ /\ _ /\ (?A /\ _) /\ _ =>
    assert (E1 : A) by (vm_compute; reflexivity) end.
  match type of E3 with _ = Some ?d =>
    assert (A3 : 1 < d) by reflexivity; assert (B3 : d <= 3) by discriminate;
    assert (P3 : 0 < d) by reflexivity; assert (Q3 : d <= 5) by discriminate end.
  match type of E5 with _ = Some ?d =>
    assert (A5 : 3 < d) by reflexivity; assert (B5 : d <= 5) by discriminate;
    assert (P5 : 0 < d) by reflexivity end.
  match type of E1 with _ = Some ?d =>
    assert (A1 : 0 < d) by reflexivity; assert (B1 : d <= 1) by discriminate;
    assert (Q1 : d <= 5) by discriminate end.
  split; [split; [exact E3|split; [exact A3|exact B3]]|].
  split; [split; [exact E5|split; [exact A5|exact B5]]|].
  split; [split; [exact E1|split; [exact A1|exact B1]]|].
  split.
  { exact (proj1 (closer_alert_suppresses_farther Binary64.fl "005930" "Samsung"
             13150 13100 "NONE" 12800 11520 10370
             {| Monitor.date := "2025-10-14";
                Monitor.alerts := Some {[ "005930" := {[ "READY_BUY1_1%" := true ]} ]} |}
             Monitor.tier1 12800 _ eq_refl E3 P3 Q3) eq_refl). }
  split.
  { exact (proj1 (proj2 (closer_alert_suppresses_farther Binary64.fl "005930" "Samsung"
             13450 13400 "NONE" 12800 11520 10370
             {| Monitor.date := "2025-10-14";
                Monitor.alerts := Some {[ "005930" := {[ "READY_BUY1_3%" := true ]} ]} |}
             Monitor.tier1 12800 _ eq_refl E5 P5 B5)) eq_refl A5). }
  assert (M0 : marked
                 {| Monitor.date := "2025-10-14";
                    Monitor.alerts := Some {[ "005930" := {[ "READY_BUY1_5%" := true ]} ]} |}
                 "005930" (Monitor.ready1_key Monitor.tier1) = false)
    by (vm_compute; reflexivity).
  destruct (proj1 (proj2 (proj2 (closer_alert_suppresses_farther Binary64.fl
             "005930" "Samsung" 12950 12900 "NONE" 12800 11520 10370
             {| Monitor.date := "2025-10-14";
                Monitor.alerts := Some {[ "005930" := {[ "READY_BUY1_5%" := true ]} ]} |}
             Monitor.tier1 12800 _ eq_refl E1 A1 Q1))) M0 B1)
    as (h1 & C & _ & M).
  exists h1. split; [exact C|]. split.
  - rewrite M. rewrite decide_True by (split; reflexivity). reflexivity.
  - rewrite M. rewrite decide_False by (intros [_ K]; discriminate K).
    vm_compute. reflexivity.
Defined.

(** ** C10: what one call may do *)

(** C10.  A call that returns sends at most one alert.  If it returns false
    it has caused no event at all (nothing sent, nothing saved) and the
    history is the one it was given.  If it returns true it has sent exactly
    one alert, saved the history once, kept the epoch key, and the new
    history differs from the old one in exactly one key of this instrument,
    which was not marked before and is marked now. *)
Theorem check_simplified_alert_frame
    (rnd : Q -> Q) (ticker stock_name : string) (current_price low_price : Q)
    (buy_status : string) (buy1 buy2 buy3 : option Q)
    (h h1 : Monitor.history) (evs : list Monitor.event) (r : bool) :
  Monitor.check_simplified_alert rnd ticker stock_name current_price low_price
    buy_status buy1 buy2 buy3 h = Returned (evs, h1, r) ->
  (length (List.filter Monitor.is_send evs) <= 1)%nat /\
  (r = false -> h1 = h /\ evs = []) /\
  (r = true ->
   length (List.filter Monitor.is_send evs) = 1%nat /\
   List.filter Monitor.is_save evs = [Monitor.SaveAlertHistory h1] /\
   Monitor.date h1 = Monitor.date h /\
   exists alert_key : string,
     marked h ticker alert_key = false /\
     forall tk k, marked h1 tk k =
                  if decide (tk = ticker /\ k = alert_key) then true
                  else marked h tk k).
Proof.
  intros E.
  destruct (check_simplified_alert_cases rnd ticker stock_name current_price
              low_price buy_status buy1 buy2 buy3 h) as [Q | (t & line & Q)];
    rewrite Q in E.
  - apply Returned_inj in E. injection E as <- <- <-.
    split; [simpl; lia|]. split; [intros _; split; reflexivity | discriminate].
  - destruct (check_tier_frame rnd t ticker current_price low_price line h evs h1 r E)
      as [(-> & -> & ->) | (-> & Hdate & Hsend & Hsave & key & _ & Hm & Hall)].
    + split; [simpl; lia|]. split; [intros _; split; reflexivity | discriminate].
    + split; [rewrite Hsend; lia|]. split; [discriminate|].
      intros _. split; [exact Hsend|]. split; [exact Hsave|]. split; [exact Hdate|].
      exists key. split; [exact Hm | exact Hall].
Qed.

Lemma check_simplified_alert_frame_witness :
  exists (evs : list Monitor.event) (h1 : Monitor.history),
    Monitor.check_simplified_alert Binary64.fl "000660" "Hynix" 101000 99000 "BOUGHT_1"
      (Some 110000) (Some 99000) (Some 89100)
      {| Monitor.date := "2025-10-14";
         Monitor.alerts := Some {[ "000660" := {[ "BUY1_EXECUTED" := true ]} ]} |}
    = Returned (evs, h1, true) /\
    length (List.filter Monitor.is_send evs) = 1%nat /\
    List.filter Monitor.is_save evs = [Monitor.SaveAlertHistory h1] /\
    marked h1 "000660" "BUY2_EXECUTED" = true /\
    marked h1 "000660" "BUY1_EXECUTED" = true.
Proof.
  eexists. eexists.
  match goal with |- ?A /\ _ => assert (E : A) by (vm_compute; reflexivity) end.
  split; [exact E|].
  destruct (proj2 (proj2 (check_simplified_alert_frame _ _ _ _ _ _ _ _ _ _ _ _ _ E))
              eq_refl) as (Hs & Hv & _).
  split; [exact Hs|]. split; [exact Hv|]. split; reflexivity.
Defined.

(** * Further properties of the modelled code

    Properties read off the code itself, beyond the statements of the
    specification: the remaining functions of the three modules and of
    [trading_day_utils.py], and how the functions compose. *)

(** ** More on binary64 rounding *)

(** Rounding is monotone and symmetric. *)
Section FloatOrder.
Import Binary64.

Lemma round_half_even_mono q q' :
  q <= q' -> (round_half_even q <= round_half_even q')%Z.
Proof.
  intros L.
  destruct (Qlt_le_dec (inject_Z (round_half_even q')) q) as [G|G].
  - pose proof (round_half_even_error q') as E.
    apply Qabs_Qle_condition in E.
    destruct (Qlt_le_dec q (inject_Z (round_half_even q') + (1 # 2))) as [H|H].
    + rewrite (round_half_even_near_above q (round_half_even q')); [lia | lra | exact H].
    + rewrite (round_half_even_comp q q') by lra. lia.
  - apply round_half_even_le. exact G.
Qed.

Lemma Qfloor_opp_int q (f : Z) : q == inject_Z f -> Qfloor (- q) = (- f)%Z.
Proof.
  intros E. rewrite (Qfloor_comp (- q) (inject_Z (- f))).
  - apply Qfloor_Z.
  - rewrite E, inject_Z_opp. reflexivity.
Qed.

Lemma round_half_even_opp q : round_half_even (- q) = (- round_half_even q)%Z.
Proof.
  pose proof (Qfloor_le q) as F1. pose proof (Qlt_floor q) as F2.
  rewrite inject_Z_plus in F2. change (inject_Z 1) with 1 in F2.
  destruct (Qeq_dec q (inject_Z (Qfloor q))) as [E|N].
  - rewrite (round_half_even_comp (- q) (inject_Z (- Qfloor q)))
      by (rewrite E at 1; rewrite inject_Z_opp; reflexivity).
    rewrite (round_half_even_comp q (inject_Z (Qfloor q)) E).
    rewrite !round_half_even_Z. reflexivity.
  - assert (Hf : Qfloor (- q) = (- Qfloor q - 1)%Z).
    { apply Qfloor_unique.
      - rewrite inject_Z_minus, inject_Z_opp. change (inject_Z 1) with 1. lra.
      - rewrite inject_Z_minus, inject_Z_opp. change (inject_Z 1) with 1.
        assert (inject_Z (Qfloor q) < q); [|lra].
        apply Qle_lt_or_eq in F1. destruct F1 as [F1|F1]; [exact F1|]. exfalso. apply N. symmetry. exact F1. }
    unfold round_half_even. rewrite Hf.
    set (f := Qfloor q) in *.
    assert (Ef : inject_Z (- f - 1) == - inject_Z f - 1).
    { rewrite inject_Z_minus, inject_Z_opp. reflexivity. }
    destruct (Qcompare (q - inject_Z f) (1 # 2)) eqn:C.
    + apply (proj2 (Qeq_alt _ _)) in C.
      assert (Qcompare (- q - inject_Z (- f - 1)) (1 # 2) = Eq) as ->
        by (apply (proj1 (Qeq_alt _ _)); rewrite Ef; lra).
      replace (- f - 1)%Z with (- (f + 1))%Z by lia.
      rewrite Z.even_opp. rewrite Z.even_add. change (Z.even 1) with false.
      destruct (Z.even f); simpl; lia.
    + apply (proj2 (Qlt_alt _ _)) in C.
      assert (Qcompare (- q - inject_Z (- f - 1)) (1 # 2) = Gt) as ->
        by (apply (proj1 (Qgt_alt _ _)); rewrite Ef; lra).
      lia.
    + apply (proj2 (Qgt_alt _ _)) in C.
      assert (Qcompare (- q - inject_Z (- f - 1)) (1 # 2) = Lt) as ->
        by (apply (proj1 (Qlt_alt _ _)); rewrite Ef; lra).
      lia.
Qed.

Lemma fl_opp x : fl (- x) == - fl x.
Proof.
  unfold fl.
  destruct (Qeq_bool x 0) eqn:X0.
  - apply Qeq_bool_eq in X0.
    assert (Qeq_bool (- x) 0 = true) as -> by (apply Qeq_eq_bool; rewrite X0; reflexivity).
    reflexivity.
  - assert (Qeq_bool (- x) 0 = false) as ->.
    { apply Qeq_bool_false. intros C. apply Qeq_bool_false in X0. apply X0. lra. }
    assert (Hs : ulp_exp (- x) = ulp_exp x).
    { unfold ulp_exp. f_equal. f_equal. apply binade_comp; [|apply Qabs_opp].
      apply Qabs_pos_nz. intros C. apply Qeq_bool_false in X0. apply X0. lra. }
    rewrite Hs.
    pose proof (pow2_pos (ulp_exp x)) as Ps.
    rewrite (round_half_even_comp (- x / pow2 (ulp_exp x)) (- (x / pow2 (ulp_exp x))))
      by (field; lra).
    rewrite round_half_even_opp, inject_Z_opp. ring.
Qed.

Lemma fl_mono_pos x y : 0 < x -> x <= y -> fl x <= fl y.
Proof.
  intros Hx L.
  assert (Hy : 0 < y) by lra.
  pose proof (ulp_exp_mono x y Hx L) as Hs.
  destruct (Z.eq_dec (ulp_exp x) (ulp_exp y)) as [E|N].
  - rewrite (fl_pos_unfold x Hx), (fl_pos_unfold y Hy), E.
    pose proof (pow2_pos (ulp_exp y)) as Ps.
    apply Qmult_le_compat_r; [|lra].
    rewrite <- Zle_Qle. apply round_half_even_mono.
    apply Qmult_le_compat_r; [exact L|].
    apply Qlt_le_weak. apply Qinv_lt_0_compat. exact Ps.
  - rewrite (ulp_exp_pos x Hx), (ulp_exp_pos y Hy) in *.
    destruct (binade_spec x Hx) as [X1 X2].
    destruct (binade_spec y Hy) as [Y1 Y2].
    assert (Hb : (binade x < binade y)%Z) by lia.
    assert (Hf : fl (pow2 (binade y)) == pow2 (binade y)).
    { assert (pow2 (binade y) == inject_Z 1 * pow2 (binade y)) as E1
        by (change (inject_Z 1) with 1; ring).
      rewrite E1. apply fl_repr_exact; lia. }
    apply (Qle_trans _ (pow2 (binade y))).
    + apply fl_le_repr; [exact Hx | | exact Hf].
      apply Qlt_le_weak. eapply Qlt_le_trans; [exact X2|]. apply pow2_le. lia.
    + apply fl_ge_repr; [apply pow2_pos | exact Y1 | exact Hf].
Qed.

Lemma fl_nonpos x : x <= 0 -> fl x <= 0.
Proof.
  intros H.
  assert (E : x == - (- x)) by ring.
  rewrite (fl_comp _ _ E), (fl_opp (- x)).
  assert (0 <= fl (- x)) by (apply fl_nonneg; lra). lra.
Qed.

Lemma fl_mono x y : x <= y -> fl x <= fl y.
Proof.
  intros L.
  destruct (Qlt_le_dec 0 x) as [Hx|Hx].
  - apply fl_mono_pos; assumption.
  - destruct (Qlt_le_dec y 0) as [Hy|Hy].
    + assert (Ex : x == - (- x)) by ring. assert (Ey : y == - (- y)) by ring.
      rewrite (fl_comp _ _ Ex), (fl_comp _ _ Ey), (fl_opp (- x)), (fl_opp (- y)).
      assert (fl (- y) <= fl (- x)) by (apply fl_mono_pos; lra). lra.
    + apply (Qle_trans _ 0); [apply fl_nonpos; exact Hx | apply fl_nonneg; exact Hy].
Qed.

End FloatOrder.

(** Ties next to an even multiple of the spacing. *)
Section RoundTrip.
Import Binary64.

(** A tie next to an even integer goes to that integer. *)
Lemma round_half_even_absorb (M : Z) (theta : Q) :
  Z.even M = true -> Qabs theta <= 1 # 2 ->
  round_half_even (inject_Z M + theta) = M.
Proof.
  intros Ev Hth. apply Qabs_Qle_condition in Hth. destruct Hth as [L U].
  destruct (Qlt_le_dec theta 0) as [Neg|Pos].
  - assert (Hf : Qfloor (inject_Z M + theta) = (M - 1)%Z).
    { apply Qfloor_unique; rewrite inject_Z_minus; change (inject_Z 1) with 1; lra. }
    unfold round_half_even. rewrite Hf.
    assert (Odd : Z.even (M - 1) = false).
    { rewrite Z.even_sub, Ev. reflexivity. }
    destruct (Qcompare (inject_Z M + theta - inject_Z (M - 1)) (1 # 2)) eqn:C.
    + rewrite Odd. lia.
    + apply (proj2 (Qlt_alt _ _)) in C. rewrite inject_Z_minus in C.
      change (inject_Z 1) with 1 in C. lra.
    + lia.
  - destruct (Qlt_le_dec theta (1 # 2)) as [Lt|Ge].
    + apply round_half_even_near_above; lra.
    + assert (Hf : Qfloor (inject_Z M + theta) = M).
      { apply Qfloor_unique; lra. }
      unfold round_half_even. rewrite Hf.
      assert (Qcompare (inject_Z M + theta - inject_Z M) (1 # 2) = Eq) as ->
        by (apply (proj1 (Qeq_alt _ _)); lra).
      rewrite Ev. reflexivity.
Qed.

(** A value within half a unit of an even multiple [M] of the unit rounds
    to it, in the binade where the unit is the spacing. *)
Lemma fl_even_absorb (M r c u : Z) :
  (0 <= c)%Z -> (-1074 <= u + c)%Z -> Z.even M = true ->
  (2 * Z.abs r <= 2 ^ c)%Z ->
  (2 ^ (52 + c) <= M * 2 ^ c + r < 2 ^ (53 + c))%Z ->
  fl (inject_Z (M * 2 ^ c + r) * pow2 u) == inject_Z M * pow2 (u + c).
Proof.
  intros Hc Hu Ev Hr HY.
  set (Y := (M * 2 ^ c + r)%Z) in *.
  pose proof (pow2_pos u) as Pu. pose proof (pow2_pos c) as Pc.
  pose proof (pow2_pos (u + c)) as Puc.
  assert (P2c : (0 < 2 ^ c)%Z) by (apply Z.pow_pos_nonneg; lia).
  assert (PY : (0 < Y)%Z).
  { assert (0 < 2 ^ (52 + c))%Z by (apply Z.pow_pos_nonneg; lia). lia. }
  set (y := inject_Z Y * pow2 u).
  assert (Py : 0 < y).
  { unfold y. apply Qmult_lt_0_compat; [apply inject_Z_pos; exact PY | exact Pu]. }
  assert (Hb : binade y = (u + c + 52)%Z).
  { apply binade_unique.
    - replace (u + c + 52)%Z with ((52 + c) + u)%Z by ring.
      rewrite pow2_add, pow2_Z by lia. unfold y.
      apply Qmult_le_compat_r; [|lra]. rewrite <- Zle_Qle. lia.
    - replace (u + c + 52 + 1)%Z with ((53 + c) + u)%Z by ring.
      rewrite pow2_add, pow2_Z by lia. unfold y.
      apply Qmult_lt_compat_r; [exact Pu|]. rewrite <- Zlt_Qlt. lia. }
  rewrite (fl_pos_unfold y Py), (ulp_exp_pos y Py), Hb.
  replace (Z.max (u + c + 52 - 52) (-1074)) with (u + c)%Z by lia.
  apply Qmult_comp; [|reflexivity].
  assert (Eq : y / pow2 (u + c) == inject_Z M + inject_Z r / inject_Z (2 ^ c)).
  { unfold y, Y. rewrite pow2_add, (pow2_Z c) by lia.
    rewrite inject_Z_plus, inject_Z_mult.
    assert (0 < inject_Z (2 ^ c)) by (apply inject_Z_pos; exact P2c).
    field. split; lra. }
  rewrite (round_half_even_comp _ _ Eq).
  rewrite round_half_even_absorb; [reflexivity | exact Ev |].
  assert (P2 : 0 < inject_Z (2 ^ c)) by (apply inject_Z_pos; exact P2c).
  apply Qabs_Qle_condition. split.
  - apply Qle_shift_div_l; [exact P2|].
    assert (inject_Z (- 2 ^ c) <= inject_Z (2 * r)) as L by (rewrite <- Zle_Qle; lia).
    rewrite inject_Z_opp, inject_Z_mult in L. change (inject_Z 2) with 2 in L. lra.
  - apply Qle_shift_div_r; [exact P2|].
    assert (inject_Z (2 * r) <= inject_Z (2 ^ c)) as L by (rewrite <- Zle_Qle; lia).
    rewrite inject_Z_mult in L. change (inject_Z 2) with 2 in L. lra.
Qed.

End RoundTrip.

(** Dividing by 20 and multiplying by 20. *)
Section RoundTrip20.
Import Binary64.

Lemma pow2_opp (k : Z) : pow2 (- k) == / pow2 k.
Proof.
  pose proof (pow2_pos k) as P.
  replace (- k)%Z with (0 - k)%Z by ring. rewrite pow2_sub.
  change (pow2 0) with 1. field. lra.
Qed.

Lemma div20_mul20_aux (s e j : Z) :
  (0 <= e <= 34)%Z -> (2 ^ e <= s < 2 ^ (e + 1))%Z -> (j = 56 \/ j = 57)%Z ->
  binade (inject_Z s / 20) = (e - j + 52)%Z ->
  (j = 56 -> 2 ^ e < s)%Z ->
  fl (fl (inject_Z s / 20) * 20) == inject_Z s.
Proof.
  intros He Hs Hj Hb Hstrict.
  assert (P2e : (0 < 2 ^ e)%Z) by (apply Z.pow_pos_nonneg; lia).
  assert (Ps : 0 < inject_Z s) by (apply inject_Z_pos; lia).
  set (x := inject_Z s / 20) in *.
  assert (Px : 0 < x) by (unfold x; apply Qlt_shift_div_l; [reflexivity | lra]).
  set (u := (e - j)%Z).
  assert (Hu : ulp_exp x = u).
  { rewrite (ulp_exp_pos x Px), Hb. unfold u. lia. }
  set (w' := (2 ^ (j - e - 2))%Z).
  assert (Pw' : (2 ^ 20 <= w')%Z).
  { unfold w'. apply Z.pow_le_mono_r; lia. }
  assert (Ew : (2 ^ (j - e) = 4 * w')%Z).
  { unfold w'. replace (j - e)%Z with (2 + (j - e - 2))%Z at 1 by ring.
    rewrite Z.pow_add_r by lia. reflexivity. }
  assert (Ej : (2 ^ j = 2 ^ e * (4 * w'))%Z).
  { rewrite <- Ew, <- Z.pow_add_r by lia. f_equal. ring. }
  assert (Ej1 : (2 ^ (j + 1) = 2 ^ (e + 1) * (4 * w'))%Z).
  { rewrite <- Ew, <- Z.pow_add_r by lia. f_equal. ring. }
  assert (Epu : pow2 u == / inject_Z (4 * w')).
  { unfold u. replace (e - j)%Z with (- (j - e))%Z by ring.
    rewrite pow2_opp, pow2_Z by lia. rewrite Ew. reflexivity. }
  assert (Pw : 0 < inject_Z (4 * w')) by (apply inject_Z_pos; lia).
  set (S2 := (s * w')%Z).
  set (m := round_half_even (x / pow2 u)).
  assert (Eq : x / pow2 u == inject_Z (4 * S2) / 20).
  { unfold x, S2. rewrite Epu.
    replace (4 * (s * w'))%Z with (s * (4 * w'))%Z by ring.
    rewrite (inject_Z_mult s). field. lra. }
  pose proof (round_half_even_error (x / pow2 u)) as Err. fold m in Err.
  rewrite Eq in Err.
  assert (Ediv : inject_Z (4 * S2) / 20 == (1 # 20) * inject_Z (4 * S2)) by field.
  rewrite Ediv in Err.
  apply Qabs_Qle_condition in Err. destruct Err as [E1 E2].
  assert (N1 : (-10 <= 20 * m - 4 * S2)%Z).
  { rewrite Zle_Qle, inject_Z_minus, inject_Z_mult.
    change (inject_Z 20) with 20. change (inject_Z (-10)) with (-10).
    lra. }
  assert (N2 : (20 * m - 4 * S2 <= 10)%Z).
  { rewrite Zle_Qle, inject_Z_minus, inject_Z_mult.
    change (inject_Z 20) with 20. change (inject_Z 10) with 10.
    lra. }
  set (t := (5 * m - S2)%Z).
  assert (Ht : (-2 <= t <= 2)%Z) by (unfold t; lia).
  assert (Ey : fl x * 20 == inject_Z (4 * S2 + 4 * t) * pow2 u).
  { rewrite (fl_pos_unfold x Px), Hu. fold m.
    replace (4 * S2 + 4 * t)%Z with (m * 20)%Z by (unfold t; ring).
    rewrite inject_Z_mult. change (inject_Z 20) with 20. ring. }
  rewrite (fl_comp _ _ Ey).
  assert (HS2 : (2 ^ j <= 4 * S2 <= 2 ^ (j + 1) - 4 * w')%Z).
  { unfold S2. rewrite Ej, Ej1. nia. }
  destruct (Z_le_gt_dec (2 ^ j) (4 * S2 + 4 * t)) as [Hi|Hii].
  - set (c := (j - 52)%Z).
    set (M := (s * 2 ^ (52 - e))%Z).
    assert (EM : (M * 2 ^ c = 4 * S2)%Z).
    { unfold M, c, S2. rewrite <- Z.mul_assoc, <- Z.pow_add_r by lia.
      replace (52 - e + (j - 52))%Z with (j - e)%Z by ring. rewrite Ew. ring. }
    rewrite <- EM.
    rewrite (fl_even_absorb M (4 * t) c u).
    + unfold u, c. replace (e - j + (j - 52))%Z with (- (52 - e))%Z by ring.
      rewrite pow2_opp, pow2_Z by lia. unfold M. rewrite inject_Z_mult.
      assert (0 < inject_Z (2 ^ (52 - e)))
        by (apply inject_Z_pos; apply Z.pow_pos_nonneg; lia).
      field. lra.
    + unfold c. lia.
    + unfold u, c. lia.
    + unfold M. rewrite Z.even_mul.
      rewrite Z.even_pow by lia. apply orb_true_r.
    + assert (16 <= 2 ^ c)%Z.
      { unfold c. destruct Hj as [-> | ->]; simpl; lia. }
      lia.
    + rewrite EM. unfold c.
      replace (52 + (j - 52))%Z with j by ring.
      replace (53 + (j - 52))%Z with (j + 1)%Z by ring. lia.
  - assert (Es : s = (2 ^ e)%Z).
    { destruct (Z.eq_dec s (2 ^ e)%Z) as [E|N]; [exact E|exfalso].
      assert (2 ^ e + 1 <= s)%Z by lia.
      assert (2 ^ j + 4 * w' <= 4 * S2)%Z by (unfold S2; rewrite Ej; nia).
      lia. }
    assert (Hj57 : j = 57%Z) by (destruct Hj as [E|E]; [specialize (Hstrict E); lia | exact E]).
    assert (E4S : (4 * S2 = 2 ^ 53 * 2 ^ 4)%Z).
    { unfold S2. rewrite Es.
      replace (4 * (2 ^ e * w'))%Z with (2 ^ e * (4 * w'))%Z by ring.
      rewrite <- Ej, Hj57. reflexivity. }
    rewrite E4S.
    rewrite (fl_even_absorb (2 ^ 53) (4 * t) 4 u).
    + unfold u. rewrite Hj57. replace (e - 57 + 4)%Z with (e + - 53)%Z by ring.
      rewrite pow2_add, (pow2_Z e) by lia. rewrite Es.
      change (pow2 (-53)) with (/ inject_Z (2 ^ 53)).
      assert (0 < inject_Z (2 ^ 53)) by reflexivity.
      field. lra.
    + lia.
    + unfold u. lia.
    + reflexivity.
    + change (2 ^ 4)%Z with 16%Z. lia.
    + rewrite <- E4S. rewrite Hj57 in Hii, HS2. 
      change (2 ^ (52 + 4))%Z with (2 ^ 56)%Z.
      change (2 ^ (53 + 4))%Z with (2 ^ 57)%Z. lia.
Qed.

End RoundTrip20.

(** ** contact_price_calculator.py: the debug variant, minimality, the grid *)

Section DebugSolver.
Variable rnd : Q -> Q.

Lemma solve_debug_loop_spec fuel S19 x p n :
  match Contact.solve_debug_loop rnd fuel S19 x p n with
  | Returned r =>
      Contact.solve_loop rnd fuel S19 x p = Returned (Contact.contact_price r) /\
      Contact.x_star r = x /\
      Contact.delta r = Contact.get_tick_size (inject_Z (Contact.contact_price r)) /\
      Contact.upper r
      = fdiv rnd (fadd rnd S19 (of_int rnd (25 * Contact.delta r))) 24 /\
      x <= inject_Z (Contact.contact_price r) /\
      inject_Z (Contact.contact_price r) < Contact.upper r /\
      exists k : nat,
        (1 <= k <= fuel)%nat /\
        Contact.iterations r = (n + Z.of_nat k)%Z /\
        Contact.solve_loop rnd k S19 x p = Returned (Contact.contact_price r) /\
        forall m : nat, (m < k)%nat -> Contact.solve_loop rnd m S19 x p = Iterating
  | Raised _ => False
  | Iterating => Contact.solve_loop rnd fuel S19 x p = Iterating
  end.
Proof.
  revert p n. induction fuel as [|fuel IH]; intros p n.
  - reflexivity.
  - cbn [Contact.solve_debug_loop Contact.solve_loop]. unfold Contact.solve_step.
    destruct (Qle_bool x (inject_Z p)
              && Qltb (inject_Z p)
                   (fdiv rnd (fadd rnd S19
                      (of_int rnd (25 * Contact.get_tick_size (inject_Z p)))) 24)) eqn:C.
    + cbn [Contact.contact_price Contact.x_star Contact.delta Contact.upper
           Contact.iterations].
      pose proof C as C'.
      apply andb_true_iff in C. destruct C as [C1 C2].
      apply Qle_bool_iff in C1. apply Qltb_true in C2.
      split; [reflexivity|]. split; [reflexivity|]. split; [reflexivity|].
      split; [reflexivity|]. split; [exact C1|]. split; [exact C2|].
      exists 1%nat. split; [lia|]. split; [reflexivity|]. split.
      * cbn [Contact.solve_loop]. unfold Contact.solve_step. rewrite C'. reflexivity.
      * intros m Hm. assert (m = 0%nat) as -> by lia. reflexivity.
    + specialize (IH (p + Contact.get_tick_size (inject_Z p))%Z (n + 1)%Z).
      destruct (Contact.solve_debug_loop rnd fuel S19 x
                  (p + Contact.get_tick_size (inject_Z p)) (n + 1)) as [r| |];
        [|exact IH|exact IH].
      destruct IH as (I1 & I2 & I3 & I4 & I5 & I6 & k & Hk & Hi & Hr & Hm).
      split; [exact I1|]. split; [exact I2|]. split; [exact I3|].
      split; [exact I4|]. split; [exact I5|]. split; [exact I6|].
      exists (S k). split; [lia|]. split; [lia|]. split.
      * cbn [Contact.solve_loop]. unfold Contact.solve_step. rewrite C. exact Hr.
      * intros m Hlt. destruct m as [|m]; [reflexivity|].
        cbn [Contact.solve_loop]. unfold Contact.solve_step. rewrite C.
        apply Hm. lia.
Qed.

End DebugSolver.

(** X1.  For every rounding, every sum and every iteration budget,
    [solve_contact_price_debug] and [solve_contact_price] go the same way:
    when the debug variant returns, the solver returns its [contact_price],
    and the other fields are the quotient [S19 / 24], the tick size at the
    returned price, the upper bound computed from that tick, with
    [x_star <= contact_price < upper]; [iterations] is the number of passes
    the solver needs: with that budget the solver returns, with any smaller
    one it is still iterating.  When the debug variant is still iterating
    or raises, so does the solver. *)
Theorem solve_contact_price_debug_agrees (rnd : Q -> Q) (fuel : nat) (S19 : Q) :
  match Contact.solve_contact_price_debug rnd fuel S19 with
  | Returned r =>
      Contact.solve_contact_price rnd fuel S19 = Returned (Contact.contact_price r) /\
      Contact.x_star r = fdiv rnd S19 24 /\
      Contact.delta r = Contact.get_tick_size (inject_Z (Contact.contact_price r)) /\
      Contact.upper r
      = fdiv rnd (fadd rnd S19 (of_int rnd (25 * Contact.delta r))) 24 /\
      Contact.x_star r <= inject_Z (Contact.contact_price r) /\
      inject_Z (Contact.contact_price r) < Contact.upper r /\
      (1 <= Contact.iterations r <= Z.of_nat fuel)%Z /\
      Contact.solve_contact_price rnd (Z.to_nat (Contact.iterations r)) S19
      = Returned (Contact.contact_price r) /\
      forall m : nat,
        (Z.of_nat m < Contact.iterations r)%Z ->
        Contact.solve_contact_price rnd m S19 = Iterating
  | Raised exn => Contact.solve_contact_price rnd fuel S19 = Raised exn
  | Iterating => Contact.solve_contact_price rnd fuel S19 = Iterating
  end.
Proof.
  unfold Contact.solve_contact_price_debug, Contact.solve_contact_price.
  pose proof (solve_debug_loop_spec rnd fuel S19 (fdiv rnd S19 24)
                (Contact.ceil_tick rnd (fdiv rnd S19 24)) 0) as H.
  destruct (Contact.solve_debug_loop rnd fuel S19 (fdiv rnd S19 24)
              (Contact.ceil_tick rnd (fdiv rnd S19 24)) 0) as [r|exn|];
    [|destruct H|exact H].
  destruct H as (I1 & I2 & I3 & I4 & I5 & I6 & k & Hk & Hi & Hr & Hm).
  rewrite I2. rewrite Hi. rewrite Z.add_0_l, Nat2Z.id.
  split; [exact I1|]. split; [reflexivity|]. split; [exact I3|].
  split; [exact I4|]. split; [exact I5|]. split; [exact I6|].
  split; [lia|]. split; [exact Hr|].
  intros m Hlt. apply Hm. lia.
Qed.

Lemma solve_contact_price_debug_agrees_witness :
  exists r : Contact.debug_info,
    Contact.solve_contact_price_debug (fun x => x + 1) 6 1653800 = Returned r /\
    Contact.iterations r = 5%Z /\
    Contact.solve_contact_price (fun x => x + 1) 5 1653800
    = Returned (Contact.contact_price r) /\
    Contact.solve_contact_price (fun x => x + 1) 4 1653800 = Iterating.
Proof.
  eexists.
  match goal with |- ?A /\ _ => assert (E : A) by (vm_compute; reflexivity) end.
  split; [exact E|]. split; [reflexivity|].
  pose proof (solve_contact_price_debug_agrees (fun x => x + 1) 6 1653800) as H.
  rewrite E in H.
  destruct H as (_ & _ & _ & _ & _ & _ & _ & H8 & H9).
  split; [exact H8|]. apply H9. cbn. lia.
Defined.

Section LeastOnTick.
Import Binary64.

(** On realistic sums the first candidate of the solver is the least
    on-tick price [p] with [S19 <= 24 * p]. *)
Lemma candidate_least S19 :
  realistic_sum S19 ->
  let P := Contact.ceil_tick fl (fdiv fl S19 24) in
  (0 <= P)%Z /\ (P mod tickZ P = 0)%Z /\ S19 <= inject_Z (24 * P) /\
  forall q : Z, (0 <= q)%Z -> (q mod tickZ q = 0)%Z -> S19 <= inject_Z (24 * q) ->
                (P <= q)%Z.
Proof.
  intros HS P.
  destruct (x_star_facts S19 HS) as (X1 & X2 & X3 & X4 & X5).
  destruct (candidate_facts S19 HS) as ([k Hk] & Hd & HP & A & B & C & D & E).
  fold P in Hk, HP, A, B, C, D, E.
  set (x := fdiv fl S19 24) in *.
  rewrite get_tick_size_floor in *.
  set (n := Qfloor x) in *.
  assert (Hn : (0 <= n)%Z).
  { unfold n. change 0%Z with (Qfloor 0). apply Qfloor_resp_le. lra. }
  split; [lia|]. split; [|split].
  - apply (tickZ_ceil_on_grid n P k Hn Hk). lia.
  - exact D.
  - intros q Hq0 Hq HSq.
    destruct (Z_le_gt_dec P q) as [|G]; [assumption|exfalso].
    destruct HS as (FS & S1 & S2).
    assert (Hxq : x <= inject_Z q).
    { unfold x, fdiv. apply fl_le_repr.
      - apply Qlt_shift_div_l; [reflexivity | lra].
      - apply Qle_shift_div_r; [reflexivity|].
        rewrite inject_Z_mult in HSq. change (inject_Z 24) with 24 in HSq. lra.
      - apply fl_int_exact. lia. }
    assert (Hnq : (n <= q)%Z).
    { unfold n. rewrite <- (Qfloor_Z q). apply Qfloor_resp_le. exact Hxq. }
    assert (Hlow : (P - tickZ n < q)%Z).
    { rewrite Zlt_Qlt, inject_Z_minus. lra. }
    assert (Ht : tickZ q = tickZ n).
    { apply (tickZ_between n P k q Hn Hk); lia. }
    rewrite Ht in Hq.
    apply Z.mod_divide in Hq; [|lia]. destruct Hq as [j Hj].
    subst q P.
    assert (j < k)%Z by (apply (Z.mul_lt_mono_pos_r (tickZ n)); lia).
    assert (k - 1 < j)%Z by (apply (Z.mul_lt_mono_pos_r (tickZ n)); lia).
    lia.
Qed.

End LeastOnTick.

Lemma realistic_sum_example : realistic_sum 1653800.
Proof.
  split; [|split].
  - apply Qeq_bool_eq. vm_compute. reflexivity.
  - unfold Qle. simpl. lia.
  - unfold Qle. simpl. lia.
Defined.

Lemma realistic_sum_example_larger : realistic_sum 12000000.
Proof.
  split; [|split].
  - apply Qeq_bool_eq. vm_compute. reflexivity.
  - unfold Qle. simpl. lia.
  - unfold Qle. simpl. lia.
Defined.

(** X2.  For every binary64 sum S19 with 1 <= S19 <= 10^15 the solver
    returns, on its first pass, the least on-tick price p with
    S19 <= 24 * p (in exact arithmetic): p is a multiple of the tick size at
    p, 24 * p reaches S19, and no smaller non-negative on-tick price does. *)
Theorem solve_contact_price_least_on_tick (S19 : Q) (fuel : nat) :
  realistic_sum S19 ->
  exists p : Z,
    Contact.solve_contact_price Binary64.fl (S fuel) S19 = Returned p /\
    (0 <= p)%Z /\ (p mod tickZ p = 0)%Z /\ S19 <= inject_Z (24 * p) /\
    forall q : Z, (0 <= q)%Z -> (q mod tickZ q = 0)%Z ->
                  S19 <= inject_Z (24 * q) -> (p <= q)%Z.
Proof.
  intros HS. exists (Contact.ceil_tick Binary64.fl (fdiv Binary64.fl S19 24)).
  split; [apply solve_contact_price_first; exact HS|].
  exact (candidate_least S19 HS).
Qed.

Lemma solve_contact_price_least_on_tick_witness :
  realistic_sum 1653800 /\
  exists p : Z,
    Contact.solve_contact_price Binary64.fl 1 1653800 = Returned p /\
    (0 <= p)%Z /\ (p mod tickZ p = 0)%Z /\ 1653800 <= inject_Z (24 * p) /\
    forall q : Z, (0 <= q)%Z -> (q mod tickZ q = 0)%Z ->
                  1653800 <= inject_Z (24 * q) -> (p <= q)%Z.
Proof.
  split; [exact realistic_sum_example|].
  exact (solve_contact_price_least_on_tick 1653800 0 realistic_sum_example).
Defined.

(** X3.  On binary64 sums from 1 to 10^15 the contact price is monotone:
    a larger sum never gives a lower price. *)
Theorem solve_contact_price_monotone (S19 S19' : Q) (fuel fuel' : nat) (p p' : Z) :
  realistic_sum S19 -> realistic_sum S19' -> S19 <= S19' ->
  Contact.solve_contact_price Binary64.fl (S fuel) S19 = Returned p ->
  Contact.solve_contact_price Binary64.fl (S fuel') S19' = Returned p' ->
  (p <= p')%Z.
Proof.
  intros HS HS' L E E'.
  rewrite (solve_contact_price_first S19 fuel HS) in E.
  rewrite (solve_contact_price_first S19' fuel' HS') in E'.
  apply Returned_inj in E, E'. subst p p'.
  destruct (candidate_least S19 HS) as (_ & _ & _ & Hmin).
  destruct (candidate_least S19' HS') as (H0 & Hg & HU & _).
  apply Hmin; [exact H0 | exact Hg | lra].
Qed.

Lemma solve_contact_price_monotone_witness :
  realistic_sum 1653800 /\ realistic_sum 12000000 /\ 1653800 <= 12000000 /\
  Contact.solve_contact_price Binary64.fl 1 1653800 = Returned 69000%Z /\
  Contact.solve_contact_price Binary64.fl 1 12000000 = Returned 500000%Z /\
  (69000 <= 500000)%Z.
Proof.
  assert (L : 1653800 <= 12000000) by discriminate.
  assert (E : Contact.solve_contact_price Binary64.fl 1 1653800 = Returned 69000%Z)
    by (vm_compute; reflexivity).
  assert (E' : Contact.solve_contact_price Binary64.fl 1 12000000 = Returned 500000%Z)
    by (vm_compute; reflexivity).
  split; [exact realistic_sum_example|]. split; [exact realistic_sum_example_larger|].
  split; [exact L|]. split; [exact E|]. split; [exact E'|].
  exact (solve_contact_price_monotone 1653800 12000000 0 0 69000 500000
           realistic_sum_example realistic_sum_example_larger L E E').
Defined.

Section LoopInvariant.
Variable rnd : Q -> Q.

Lemma tickZ_step_on_grid (p : Z) :
  (0 <= p)%Z -> (p mod tickZ p = 0)%Z ->
  ((p + tickZ p) mod tickZ (p + tickZ p) = 0)%Z.
Proof.
  intros H0 Hm. pose proof (tickZ_range p) as Hd.
  apply (tickZ_ceil_on_grid p (p + tickZ p) (p / tickZ p + 1) H0); [|lia].
  rewrite (on_tick_multiple p Hm) at 1. ring.
Qed.

Lemma solve_loop_on_grid fuel S19 x p r :
  (0 <= p)%Z -> (p mod tickZ p = 0)%Z ->
  Contact.solve_loop rnd fuel S19 x p = Returned r ->
  (p <= r)%Z /\ (r mod tickZ r = 0)%Z.
Proof.
  revert p. induction fuel as [|fuel IH]; intros p H0 Hm E; [discriminate|].
  cbn [Contact.solve_loop] in E. unfold Contact.solve_step in E.
  rewrite get_tick_size_inject in E.
  destruct (Qle_bool x (inject_Z p) && Qltb (inject_Z p) _).
  - apply Returned_inj in E. subst r. split; [lia | exact Hm].
  - pose proof (tickZ_range p) as Hd.
    destruct (IH (p + tickZ p)%Z ltac:(lia) (tickZ_step_on_grid p H0 Hm) E) as [A B].
    split; [lia | exact B].
Qed.

Lemma predict_loop_on_grid fuel S19 p r :
  (0 <= p)%Z -> (p mod tickZ p = 0)%Z ->
  Signal.predict_loop rnd fuel S19 p = Returned r ->
  (p <= r)%Z /\ (r mod tickZ r = 0)%Z.
Proof.
  revert p. induction fuel as [|fuel IH]; intros p H0 Hm E; [discriminate|].
  cbn [Signal.predict_loop] in E. unfold Signal.predict_step in E.
  change (Signal.get_tick_unit (inject_Z p)) with (Contact.get_tick_size (inject_Z p)) in E.
  rewrite get_tick_size_inject in E.
  destruct (Qltb (inject_Z p) _).
  - apply Returned_inj in E. subst r. split; [lia | exact Hm].
  - pose proof (tickZ_range p) as Hd.
    destruct (IH (p + tickZ p)%Z ltac:(lia) (tickZ_step_on_grid p H0 Hm) E) as [A B].
    split; [lia | exact B].
Qed.

End LoopInvariant.

(** X4.  For every rounding: started on a non-negative on-tick candidate
    p, the loop of [solve_contact_price] and the loop of
    [predict_next_day_buy_price] only ever return an on-tick price at or
    above p (stepping by the tick size of the current candidate never
    leaves the tick grid, also across a change of tick size). *)
Theorem solver_candidates_stay_on_tick
    (rnd : Q -> Q) (fuel : nat) (S19 x_star : Q) (p : Z) :
  (0 <= p)%Z -> (p mod tickZ p = 0)%Z ->
  (forall r : Z,
     Contact.solve_loop rnd fuel S19 x_star p = Returned r ->
     (p <= r)%Z /\ (r mod tickZ r = 0)%Z) /\
  (forall r : Z,
     Signal.predict_loop rnd fuel S19 p = Returned r ->
     (p <= r)%Z /\ (r mod tickZ r = 0)%Z).
Proof.
  intros H0 Hm. split; intros r E.
  - exact (solve_loop_on_grid rnd fuel S19 x_star p r H0 Hm E).
  - exact (predict_loop_on_grid rnd fuel S19 p r H0 Hm E).
Qed.

Lemma solver_candidates_stay_on_tick_witness :
  (0 <= 68900)%Z /\ (68900 mod tickZ 68900 = 0)%Z /\
  Contact.solve_loop Binary64.fl 2 1653800 (fdiv Binary64.fl 1653800 24) 68900
  = Returned 69000%Z /\
  (forall r : Z,
     Contact.solve_loop Binary64.fl 2 1653800 (fdiv Binary64.fl 1653800 24) 68900
     = Returned r ->
     (68900 <= r)%Z /\ (r mod tickZ r = 0)%Z) /\
  (forall r : Z,
     Signal.predict_loop Binary64.fl 2 1653800 68900 = Returned r ->
     (68900 <= r)%Z /\ (r mod tickZ r = 0)%Z).
Proof.
  assert (A : (0 <= 68900)%Z) by lia.
  assert (B : (68900 mod tickZ 68900 = 0)%Z) by reflexivity.
  split; [exact A|]. split; [exact B|].
  split; [vm_compute; reflexivity|].
  exact (solver_candidates_stay_on_tick Binary64.fl 2 1653800
           (fdiv Binary64.fl 1653800 24) 68900 A B).
Defined.

(** ** The other quantizers *)

Section NearestTick.
Import Binary64.

(** [%] by a tick on a non-negative value is computed without rounding. *)
Lemma float_rem_nonneg (rnd : Q -> Q) y wx (d : Z) :
  0 <= y -> (0 < d)%Z -> wx == inject_Z d ->
  float_rem rnd y wx == y - inject_Z (Qfloor (y / inject_Z d) * d).
Proof.
  intros Hy Hd Hw.
  assert (Pd : 0 < inject_Z d) by (apply inject_Z_pos; exact Hd).
  destruct (Qfloor_div_bounds y d Hd) as [K1 K2].
  assert (Ht : Qtrunc (y / wx) = Qfloor (y / inject_Z d)).
  { rewrite Qtrunc_nonneg by (rewrite Hw; apply Qle_shift_div_l; lra).
    apply Qfloor_comp. rewrite Hw. reflexivity. }
  assert (Hmod : fmod y wx == y - inject_Z (Qfloor (y / inject_Z d) * d)).
  { unfold fmod. rewrite Ht, Hw, inject_Z_mult. reflexivity. }
  assert (Hmod0 : 0 <= fmod y wx) by (rewrite Hmod; lra).
  unfold float_rem, float_div_mod.
  destruct (Qeq_bool (fmod y wx) 0) eqn:E.
  - cbn [snd]. apply Qeq_bool_eq in E. rewrite <- Hmod, E. reflexivity.
  - assert (Qltb wx 0 = false) as -> by (apply Qltb_false; rewrite Hw; lra).
    assert (Qltb (fmod y wx) 0 = false) as -> by (apply Qltb_false; exact Hmod0).
    cbn [negb Bool.eqb snd]. exact Hmod.
Qed.

(** The floor of a quotient by a positive integer only depends on the
    floor of the dividend. *)
Lemma Qfloor_div_Z y (d : Z) : (0 < d)%Z ->
  Qfloor (y / inject_Z d) = (Qfloor y / d)%Z.
Proof.
  intros Hd.
  destruct (Qfloor_div_bounds y d Hd) as [K1 K2].
  pose proof (Qfloor_le y) as F1. pose proof (Qlt_floor y) as F2.
  set (k := Qfloor (y / inject_Z d)) in *. set (n := Qfloor y) in *.
  assert (A : (k * d <= n)%Z).
  { unfold n. rewrite <- (Qfloor_Z (k * d)). apply Qfloor_resp_le. exact K1. }
  assert (B : (n < (k + 1) * d)%Z).
  { rewrite Zlt_Qlt. lra. }
  clearbody k n. apply Z.div_unique with (r := (n - k * d)%Z); lia.
Qed.

(** [get_nearest_tick_price] of the signal system returns the first
    multiple of the tick strictly above its argument. *)
Lemma signal_nearest_spec x :
  0 <= x -> x < pow2 52 ->
  Signal.get_nearest_tick_price fl x
  == inject_Z ((Qfloor x / tickZ (Qfloor x) + 1) * tickZ (Qfloor x)).
Proof.
  intros H0 H1. unfold Signal.get_nearest_tick_price.
  change (Signal.get_tick_unit x) with (Contact.get_tick_size x).
  rewrite get_tick_size_floor.
  pose proof (tickZ_range (Qfloor x)) as Hd.
  set (d := tickZ (Qfloor x)) in *.
  assert (Hw : of_int fl d == inject_Z d) by (apply of_int_exact; lia).
  pose proof (float_rem_nonneg fl x (of_int fl d) d H0 ltac:(lia) Hw) as Hr.
  pose proof (float_floor_div_exact x (of_int fl d) d H0 H1 ltac:(lia) Hw) as Hq.
  rewrite (Qfloor_div_Z x d ltac:(lia)) in Hr, Hq.
  destruct (Qfloor_div_bounds x d ltac:(lia)) as [K1 K2].
  rewrite (Qfloor_div_Z x d ltac:(lia)) in K1, K2.
  set (k := (Qfloor x / d)%Z) in *.
  assert (Hk0 : (0 <= k)%Z).
  { unfold k. apply Z.div_pos; [|lia]. change 0%Z with (Qfloor 0).
    apply Qfloor_resp_le. exact H0. }
  assert (Hkd : (0 <= k * d < 2 ^ 52)%Z).
  { split; [nia|]. rewrite Zlt_Qlt.
    eapply Qle_lt_trans; [exact K1|]. rewrite <- pow2_Z by lia. exact H1. }
  assert (Hsum : fl (inject_Z (k * d) + inject_Z d) == inject_Z ((k + 1) * d)).
  { rewrite <- inject_Z_plus.
    replace (k * d + d)%Z with ((k + 1) * d)%Z by ring.
    apply fl_int_exact. lia. }
  destruct (Qeq_bool (float_rem fl x (of_int fl d)) 0) eqn:E.
  - apply Qeq_bool_eq in E. rewrite Hr in E.
    unfold fadd. rewrite Hw.
    assert (x == inject_Z (k * d)) as -> by lra. exact Hsum.
  - unfold fadd, fmul. rewrite Hq, Hw.
    rewrite <- inject_Z_mult.
    rewrite (fl_int_exact (k * d)) by lia. exact Hsum.
Qed.

(** [get_nearest_tick_price] of the monitor is [ceil_tick] of the solver. *)
Lemma monitor_nearest_spec x :
  0 <= x -> x < pow2 52 ->
  Monitor.get_nearest_tick_price fl x == inject_Z (Contact.ceil_tick fl x).
Proof.
  intros H0 H1. unfold Monitor.get_nearest_tick_price, Contact.ceil_tick.
  change (Monitor.calculate_tick_unit x) with (Contact.get_tick_size x).
  pose proof (get_tick_size_range x) as Hd.
  set (d := Contact.get_tick_size x) in *.
  assert (Hw : of_int fl d == inject_Z d) by (apply of_int_exact; lia).
  pose proof (float_rem_nonneg fl x (of_int fl d) d H0 ltac:(lia) Hw) as Hr.
  pose proof (float_floor_div_exact x (of_int fl d) d H0 H1 ltac:(lia) Hw) as Hq.
  rewrite (Qtrunc_comp _ _ Hq), Qtrunc_Z.
  destruct (Qfloor_div_bounds x d ltac:(lia)) as [K1 K2].
  set (k := Qfloor (x / inject_Z d)) in *.
  assert (Hk0 : (0 <= k)%Z).
  { unfold k. change 0%Z with (Qfloor 0). apply Qfloor_resp_le.
    apply Qle_shift_div_l; [apply inject_Z_pos; lia | lra]. }
  assert (Hkd : (0 <= k * d < 2 ^ 52)%Z).
  { split; [nia|]. rewrite Zlt_Qlt.
    eapply Qle_lt_trans; [exact K1|]. rewrite <- pow2_Z by lia. exact H1. }
  destruct (Qeq_bool (float_rem fl x (of_int fl d)) 0) eqn:E.
  - apply Qeq_bool_eq in E. rewrite Hr in E.
    assert (Qeq_bool (inject_Z (k * d)) x = true) as ->
      by (apply Qeq_eq_bool; lra).
    lra.
  - apply Qeq_bool_false in E. rewrite Hr in E.
    assert (Qeq_bool (inject_Z (k * d)) x = false) as ->
      by (apply Qeq_bool_false; intros C; apply E; lra).
    unfold fadd, fmul. rewrite Hq, Hw, <- inject_Z_mult.
    rewrite (fl_int_exact (k * d)) by lia.
    rewrite <- inject_Z_plus.
    replace (k * d + d)%Z with ((k + 1) * d)%Z by ring.
    apply fl_int_exact. lia.
Qed.

End NearestTick.

Section NearestTickFacts.
Import Binary64.

Lemma range_below_pow2_52 x : x <= 1000000000000000 -> x < pow2 52.
Proof. intros H. eapply Qle_lt_trans; [exact H|]. apply Qlt_alt. reflexivity. Qed.

Lemma Qfloor_nonneg x : 0 <= x -> (0 <= Qfloor x)%Z.
Proof. intros H. change 0%Z with (Qfloor 0). apply Qfloor_resp_le. exact H. Qed.

(** The first multiple of the tick strictly above [x]. *)
Lemma next_tick_facts x :
  0 <= x ->
  let n := Qfloor x in
  let P := ((n / tickZ n + 1) * tickZ n)%Z in
  (n < P <= n + tickZ n)%Z /\ x < inject_Z P /\
  inject_Z P <= x + inject_Z (tickZ n) /\ (P mod tickZ P = 0)%Z.
Proof.
  intros H0 n P.
  pose proof (Qfloor_nonneg x H0) as Hn. fold n in Hn.
  pose proof (tickZ_range n) as Hd.
  pose proof (Qfloor_le x) as F1. pose proof (Qlt_floor x) as F2. fold n in F1, F2.
  assert (HP : (n < P <= n + tickZ n)%Z).
  { unfold P. pose proof (Z.div_mod n (tickZ n) ltac:(lia)) as E.
    pose proof (Z.mod_pos_bound n (tickZ n) ltac:(lia)). lia. }
  split; [exact HP|]. split; [|split].
  - assert (inject_Z (n + 1) <= inject_Z P) by (rewrite <- Zle_Qle; lia). lra.
  - assert (inject_Z P <= inject_Z (n + tickZ n)) as L by (rewrite <- Zle_Qle; lia).
    rewrite inject_Z_plus in L. lra.
  - apply (tickZ_ceil_on_grid n P (n / tickZ n + 1) Hn eq_refl). lia.
Qed.

End NearestTickFacts.

(** X5.  For every price x with 0 <= x <= 10^15,
    [get_nearest_tick_price] of the signal system returns an integer price
    strictly above x, at most one tick (of x) above it, and on tick at the
    returned price. *)
Theorem signal_nearest_tick_is_next_tick (x : Q) :
  0 <= x -> x <= 1000000000000000 ->
  exists P : Z,
    Signal.get_nearest_tick_price Binary64.fl x == inject_Z P /\
    x < inject_Z P /\
    inject_Z P <= x + inject_Z (Signal.get_tick_unit x) /\
    (P mod Signal.get_tick_unit (inject_Z P) = 0)%Z.
Proof.
  intros H0 H1.
  exists ((Qfloor x / tickZ (Qfloor x) + 1) * tickZ (Qfloor x))%Z.
  destruct (next_tick_facts x H0) as (_ & A & B & C).
  split; [apply signal_nearest_spec; [exact H0 | apply range_below_pow2_52; exact H1]|].
  change (Signal.get_tick_unit x) with (Contact.get_tick_size x).
  change (Signal.get_tick_unit (inject_Z ((Qfloor x / tickZ (Qfloor x) + 1) * tickZ (Qfloor x))))
    with (Contact.get_tick_size (inject_Z ((Qfloor x / tickZ (Qfloor x) + 1) * tickZ (Qfloor x)))).
  rewrite get_tick_size_floor, get_tick_size_inject.
  split; [exact A|]. split; [exact B | exact C].
Qed.

Lemma signal_nearest_tick_is_next_tick_witness :
  0 <= 3999 # 2 /\ 3999 # 2 <= 1000000000000000 /\
  exists P : Z,
    Signal.get_nearest_tick_price Binary64.fl (3999 # 2) == inject_Z P /\
    3999 # 2 < inject_Z P /\
    inject_Z P <= (3999 # 2) + inject_Z (Signal.get_tick_unit (3999 # 2)) /\
    (P mod Signal.get_tick_unit (inject_Z P) = 0)%Z.
Proof.
  assert (A : 0 <= 3999 # 2) by discriminate.
  assert (B : 3999 # 2 <= 1000000000000000) by discriminate.
  split; [exact A|]. split; [exact B|].
  exact (signal_nearest_tick_is_next_tick (3999 # 2) A B).
Defined.

(** X6.  For every price x with 0 <= x <= 10^15,
    [get_nearest_tick_price] of the monitor is [ceil_tick] of the solver.
    The copy in the signal system differs from it exactly when x is already
    a multiple of its tick, where it returns x plus one tick; everywhere
    else the two copies return the same price. *)
Theorem nearest_tick_copies_differ_on_multiples_only (x : Q) :
  0 <= x -> x <= 1000000000000000 ->
  Monitor.get_nearest_tick_price Binary64.fl x
  == inject_Z (Contact.ceil_tick Binary64.fl x) /\
  (Monitor.get_nearest_tick_price Binary64.fl x == x ->
   Signal.get_nearest_tick_price Binary64.fl x
   == x + inject_Z (Signal.get_tick_unit x)) /\
  (~ Monitor.get_nearest_tick_price Binary64.fl x == x ->
   Signal.get_nearest_tick_price Binary64.fl x
   == Monitor.get_nearest_tick_price Binary64.fl x).
Proof.
  intros H0 H1.
  pose proof (range_below_pow2_52 x H1) as H52.
  pose proof (monitor_nearest_spec x H0 H52) as EM.
  pose proof (signal_nearest_spec x H0 H52) as ES.
  destruct (contact_ceil_tick_spec x H0 H52) as ([k Hk] & A & B).
  destruct (next_tick_facts x H0) as (HP & C & D & _).
  change (Signal.get_tick_unit x) with (Contact.get_tick_size x).
  rewrite get_tick_size_floor in *.
  pose proof (tickZ_range (Qfloor x)) as Hd.
  set (d := tickZ (Qfloor x)) in *.
  set (P := ((Qfloor x / d + 1) * d)%Z) in *.
  set (c := Contact.ceil_tick Binary64.fl x) in *.
  split; [exact EM|]. rewrite EM, ES. split.
  - intros E.
    assert (L1 : (P - d <= c)%Z) by (rewrite Zle_Qle, inject_Z_minus; lra).
    assert (L2 : (c < P)%Z) by (rewrite Zlt_Qlt; lra).
    assert (P = c + d)%Z; [|subst P; rewrite H, inject_Z_plus; lra].
    unfold P in *. rewrite Hk in *.
    assert (Qfloor x / d + 1 - 1 <= k)%Z by (apply (Z.mul_le_mono_pos_r _ _ d); lia).
    assert (k < Qfloor x / d + 1)%Z by (apply (Z.mul_lt_mono_pos_r d); lia).
    replace k with (Qfloor x / d)%Z by lia. ring.
  - intros N.
    assert (L0 : x < inject_Z c).
    { destruct (Qlt_le_dec x (inject_Z c)) as [l|l]; [exact l|]. exfalso. apply N. lra. }
    assert (L1 : (c - d < P)%Z) by (rewrite Zlt_Qlt, inject_Z_minus; lra).
    assert (L2 : (P - d < c)%Z) by (rewrite Zlt_Qlt, inject_Z_minus; lra).
    assert (P = c); [|subst P; rewrite H; reflexivity].
    unfold P in *. rewrite Hk in *.
    assert (k - 1 < Qfloor x / d + 1)%Z by (apply (Z.mul_lt_mono_pos_r d); lia).
    assert (Qfloor x / d + 1 - 1 < k)%Z by (apply (Z.mul_lt_mono_pos_r d); lia).
    replace k with (Qfloor x / d + 1)%Z by lia. reflexivity.
Qed.

Lemma nearest_tick_copies_differ_on_multiples_only_witness :
  0 <= 45000 /\ 45000 <= 1000000000000000 /\
  Monitor.get_nearest_tick_price Binary64.fl 45000
  == inject_Z (Contact.ceil_tick Binary64.fl 45000) /\
  (Monitor.get_nearest_tick_price Binary64.fl 45000 == 45000 ->
   Signal.get_nearest_tick_price Binary64.fl 45000
   == 45000 + inject_Z (Signal.get_tick_unit 45000)) /\
  (~ Monitor.get_nearest_tick_price Binary64.fl 45000 == 45000 ->
   Signal.get_nearest_tick_price Binary64.fl 45000
   == Monitor.get_nearest_tick_price Binary64.fl 45000).
Proof.
  assert (A : 0 <= 45000) by discriminate.
  assert (B : 45000 <= 1000000000000000) by discriminate.
  split; [exact A|]. split; [exact B|].
  exact (nearest_tick_copies_differ_on_multiples_only 45000 A B).
Defined.

(** X7.  On an on-tick price n (an integer from 0 to 10^15),
    [get_one_tick_up_price] of the signal system returns the price two
    ticks above n (the second tick taken at n plus one tick), while the
    same function of the monitor returns the price one tick above n. *)
Theorem one_tick_up_on_tick_prices (n : Z) :
  (0 <= n <= 10 ^ 15)%Z -> (n mod tickZ n = 0)%Z ->
  Signal.get_one_tick_up_price Binary64.fl (inject_Z n)
  == inject_Z (n + tickZ n + tickZ (n + tickZ n)) /\
  Monitor.get_one_tick_up_price Binary64.fl (inject_Z n)
  == inject_Z (n + tickZ n).
Proof.
  intros Hn Hm.
  pose proof (tickZ_range n) as Hd.
  pose proof (tickZ_range (n + tickZ n)) as Hd'.
  assert (H0 : 0 <= inject_Z n) by (apply inject_Z_nonneg; lia).
  assert (H52 : inject_Z n < Binary64.pow2 52).
  { rewrite pow2_Z by lia. rewrite <- Zlt_Qlt. lia. }
  split.
  - unfold Signal.get_one_tick_up_price.
    pose proof (signal_nearest_spec (inject_Z n) H0 H52) as E.
    rewrite Qfloor_Z in E.
    replace ((n / tickZ n + 1) * tickZ n)%Z with (n + tickZ n)%Z in E
      by (rewrite (on_tick_multiple n Hm) at 1; ring).
    change (Signal.get_tick_unit (Signal.get_nearest_tick_price Binary64.fl (inject_Z n)))
      with (Contact.get_tick_size (Signal.get_nearest_tick_price Binary64.fl (inject_Z n))).
    rewrite (get_tick_size_comp _ _ E), get_tick_size_inject.
    unfold fadd. rewrite E, of_int_exact by lia.
    rewrite <- inject_Z_plus. apply fl_int_exact. lia.
  - unfold Monitor.get_one_tick_up_price.
    pose proof (monitor_nearest_spec (inject_Z n) H0 H52) as E.
    rewrite (contact_ceil_tick_on_tick n Hn Hm) in E.
    change (Monitor.calculate_tick_unit (Monitor.get_nearest_tick_price Binary64.fl (inject_Z n)))
      with (Contact.get_tick_size (Monitor.get_nearest_tick_price Binary64.fl (inject_Z n))).
    rewrite (get_tick_size_comp _ _ E), get_tick_size_inject.
    unfold fadd. rewrite E, of_int_exact by lia.
    rewrite <- inject_Z_plus. apply fl_int_exact. lia.
Qed.

Lemma one_tick_up_on_tick_prices_witness :
  (0 <= 1999 <= 10 ^ 15)%Z /\ (1999 mod tickZ 1999 = 0)%Z /\
  Signal.get_one_tick_up_price Binary64.fl (inject_Z 1999)
  == inject_Z (1999 + tickZ 1999 + tickZ (1999 + tickZ 1999)) /\
  Monitor.get_one_tick_up_price Binary64.fl (inject_Z 1999)
  == inject_Z (1999 + tickZ 1999).
Proof.
  assert (A : (0 <= 1999 <= 10 ^ 15)%Z) by lia.
  assert (B : (1999 mod tickZ 1999 = 0)%Z) by reflexivity.
  split; [exact A|]. split; [exact B|].
  exact (one_tick_up_on_tick_prices 1999 A B).
Defined.

Section BuyLines.
Import Binary64.

Lemma buy_gap_factor :
  fsub fl 1 (fdiv fl Signal.BUY_LEVEL_GAP 100)
  == 8106479329266893 # 9007199254740992.
Proof. apply Qeq_bool_eq. vm_compute. reflexivity. Qed.

(** The price 10% under an integer line keeps the floor of the exact
    product. *)
Lemma base_price_floor (v : Q) (b : Z) :
  v == inject_Z b -> (1 <= b <= 10 ^ 14)%Z ->
  let base := fmul fl v (fsub fl 1 (fdiv fl Signal.BUY_LEVEL_GAP 100)) in
  0 <= base /\ base < pow2 52 /\ Qfloor base = (9 * b / 10)%Z.
Proof.
  intros Ev Hb base.
  set (N := (9 * b / 10)%Z).
  pose proof (Z.div_mod (9 * b) 10 ltac:(lia)) as DM.
  pose proof (Z.mod_pos_bound (9 * b) 10 ltac:(lia)) as MB.
  fold N in DM.
  assert (HN : (0 <= N <= 9 * 10 ^ 13)%Z) by lia.
  set (y := inject_Z b * (8106479329266893 # 9007199254740992)).
  assert (Eb : base == fl y).
  { unfold base, fmul, y. apply fl_comp. rewrite Ev, buy_gap_factor. reflexivity. }
  assert (Pb : 1 <= inject_Z b) by (change 1 with (inject_Z 1); rewrite <- Zle_Qle; lia).
  assert (Ub : inject_Z b <= inject_Z (10 ^ 14)) by (rewrite <- Zle_Qle; lia).
  change (inject_Z (10 ^ 14)) with 100000000000000 in Ub.
  assert (Y1 : (9 # 10) * inject_Z b <= y) by (unfold y; nra).
  assert (Y2 : y <= (9 # 10) * inject_Z b + (1 # 100)).
  { unfold y.
    assert ((8106479329266893 # 9007199254740992)
            == (9 # 10) + (1 # 45035996273704960)) as -> by reflexivity.
    nra. }
  assert (Py : 0 < y) by lra.
  assert (LN : inject_Z N <= (9 # 10) * inject_Z b).
  { assert (inject_Z (10 * N) <= inject_Z (9 * b)) as L by (rewrite <- Zle_Qle; lia).
    rewrite !inject_Z_mult in L. change (inject_Z 10) with 10 in L.
    change (inject_Z 9) with 9 in L. lra. }
  assert (UN : (9 # 10) * inject_Z b <= inject_Z (N + 1) - (1 # 10)).
  { assert (inject_Z (9 * b) <= inject_Z (10 * (N + 1) - 1)) as L by (rewrite <- Zle_Qle; lia).
    rewrite inject_Z_minus, !inject_Z_mult in L. change (inject_Z 10) with 10 in L.
    change (inject_Z 9) with 9 in L. change (inject_Z 1) with 1 in L. lra. }
  assert (A : inject_Z N <= base).
  { rewrite Eb. destruct (Z.eq_dec N 0%Z) as [E0|N0].
    - rewrite E0. apply fl_nonneg. lra.
    - apply fl_ge_repr; [apply inject_Z_pos; lia | lra | apply fl_int_exact; lia]. }
  assert (B : base <= inject_Z (N + 1) - (1 # 16)).
  { rewrite Eb. apply fl_le_repr; [exact Py | lra |].
    apply (is_float_comp (inject_Z (16 * (N + 1) - 1) * pow2 (-4))).
    - rewrite inject_Z_minus, inject_Z_mult. unfold pow2. simpl.
      change (inject_Z 16) with 16. change (inject_Z 1) with 1. field.
    - apply is_float_dyadic; lia. }
  assert (P0 : 0 <= inject_Z N) by (apply inject_Z_nonneg; lia).
  split; [lra|]. split.
  - assert (inject_Z (N + 1) <= inject_Z (2 ^ 52)) as L by (rewrite <- Zle_Qle; lia).
    rewrite <- pow2_Z in L by lia. lra.
  - apply Qfloor_unique; [exact A|]. rewrite inject_Z_plus in B.
    change (inject_Z 1) with 1 in B. lra.
Qed.

(** The next buy line under an integer line [b]: the first multiple of the
    tick strictly above the floor of [0.9 * b]. *)
Lemma next_line_spec (v : Q) (b : Z) :
  v == inject_Z b -> (1 <= b <= 10 ^ 14)%Z ->
  let N := (9 * b / 10)%Z in
  Signal.get_nearest_tick_price fl
    (fmul fl v (fsub fl 1 (fdiv fl Signal.BUY_LEVEL_GAP 100)))
  == inject_Z ((N / tickZ N + 1) * tickZ N).
Proof.
  intros Ev Hb N.
  destruct (base_price_floor v b Ev Hb) as (B0 & B1 & BF).
  rewrite (signal_nearest_spec _ B0 B1), BF. reflexivity.
Qed.

(** What the first multiple of the tick above [9 * b / 10] is. *)
Lemma next_line_facts (b : Z) :
  (1 <= b <= 10 ^ 14)%Z ->
  let N := (9 * b / 10)%Z in
  let P := ((N / tickZ N + 1) * tickZ N)%Z in
  (0 <= P)%Z /\ (P mod tickZ P = 0)%Z /\ (9 * b < 10 * P)%Z /\
  (forall q : Z, (0 <= q)%Z -> (q mod tickZ q = 0)%Z -> (9 * b < 10 * q)%Z ->
                 (P <= q)%Z) /\
  ((11 <= b)%Z -> (P < b)%Z).
Proof.
  intros Hb N P.
  pose proof (Z.div_mod (9 * b) 10 ltac:(lia)) as DM.
  pose proof (Z.mod_pos_bound (9 * b) 10 ltac:(lia)) as MB.
  fold N in DM.
  assert (HN : (0 <= N)%Z) by lia.
  pose proof (tickZ_range N) as Hd.
  pose proof (Z.div_mod N (tickZ N) ltac:(lia)) as DM2.
  pose proof (Z.mod_pos_bound N (tickZ N) ltac:(lia)) as MB2.
  assert (HP : (N < P <= N + tickZ N)%Z) by (unfold P; lia).
  split; [lia|]. split; [|split; [|split]].
  - apply (tickZ_ceil_on_grid N P (N / tickZ N + 1) HN eq_refl). lia.
  - lia.
  - intros q Hq0 Hq Hlt.
    destruct (Z_le_gt_dec P q) as [|G]; [assumption|exfalso].
    assert (Ht : tickZ q = tickZ N).
    { apply (tickZ_between N P (N / tickZ N + 1) q HN eq_refl); lia. }
    rewrite Ht in Hq. apply Z.mod_divide in Hq; [|lia]. destruct Hq as [j Hj].
    assert (j < N / tickZ N + 1)%Z by (apply (Z.mul_lt_mono_pos_r (tickZ N)); lia).
    assert (N / tickZ N + 1 - 1 < j)%Z by (apply (Z.mul_lt_mono_pos_r (tickZ N)); lia).
    lia.
  - intros H11.
    assert (N + tickZ N < b)%Z; [|lia].
    unfold tickZ.
    repeat match goal with
           | |- context [(N <? ?c)%Z] => destruct (Z.ltb_spec N c)
           end; lia.
Qed.

End BuyLines.

(** X8.  For an integer line b from 1 to 10^14, [calculate_buy_line_2]
    (on the integer) and [calculate_buy_line_3] (on a float of that value)
    return the same price: the least on-tick price strictly above 90% of b,
    in exact arithmetic. *)
Theorem lower_buy_lines_least_on_tick_above_90_percent (b : Z) (v : Q) :
  (1 <= b <= 10 ^ 14)%Z -> v == inject_Z b ->
  exists (l2 l3 : Q) (P : Z),
    Signal.calculate_buy_line_2 Binary64.fl (Some b) = Some l2 /\
    Signal.calculate_buy_line_3 Binary64.fl (Some v) = Some l3 /\
    l2 == inject_Z P /\ l3 == inject_Z P /\
    (P mod tickZ P = 0)%Z /\ (9 * b < 10 * P)%Z /\
    forall q : Z, (0 <= q)%Z -> (q mod tickZ q = 0)%Z -> (9 * b < 10 * q)%Z ->
                  (P <= q)%Z.
Proof.
  intros Hb Ev.
  destruct (next_line_facts b Hb) as (_ & A & B & C & _).
  eexists _, _, _. split; [reflexivity|]. split; [reflexivity|].
  split; [|split; [|split; [exact A|split; [exact B|exact C]]]].
  - apply next_line_spec; [apply of_int_exact; lia | exact Hb].
  - apply next_line_spec; [exact Ev | exact Hb].
Qed.

Lemma lower_buy_lines_least_on_tick_above_90_percent_witness :
  (1 <= 69000 <= 10 ^ 14)%Z /\ 69000 == inject_Z 69000 /\
  exists (l2 l3 : Q) (P : Z),
    Signal.calculate_buy_line_2 Binary64.fl (Some 69000%Z) = Some l2 /\
    Signal.calculate_buy_line_3 Binary64.fl (Some 69000) = Some l3 /\
    l2 == inject_Z P /\ l3 == inject_Z P /\
    (P mod tickZ P = 0)%Z /\ (9 * 69000 < 10 * P)%Z /\
    forall q : Z, (0 <= q)%Z -> (q mod tickZ q = 0)%Z -> (9 * 69000 < 10 * q)%Z ->
                  (P <= q)%Z.
Proof.
  assert (A : (1 <= 69000 <= 10 ^ 14)%Z) by lia.
  assert (B : 69000 == inject_Z 69000) by reflexivity.
  split; [exact A|]. split; [exact B|].
  exact (lower_buy_lines_least_on_tick_above_90_percent 69000 69000 A B).
Defined.

(** X9.  For a first buy line b1 from 12 to 10^14, the second and the
    third buy line are on-tick integer prices with
    0 < buy3 < buy2 < buy1. *)
Theorem buy_lines_descend (b1 : Z) :
  (12 <= b1 <= 10 ^ 14)%Z ->
  exists (l2 l3 : Q) (P2 P3 : Z),
    Signal.calculate_buy_line_2 Binary64.fl (Some b1) = Some l2 /\
    Signal.calculate_buy_line_3 Binary64.fl (Some l2) = Some l3 /\
    l2 == inject_Z P2 /\ l3 == inject_Z P3 /\
    (0 < P3 < P2)%Z /\ (P2 < b1)%Z /\
    (P2 mod tickZ P2 = 0)%Z /\ (P3 mod tickZ P3 = 0)%Z.
Proof.
  intros Hb.
  destruct (next_line_facts b1 ltac:(lia)) as (A0 & A1 & A2 & _ & A4).
  specialize (A4 ltac:(lia)).
  set (P2 := ((9 * b1 / 10 / tickZ (9 * b1 / 10) + 1) * tickZ (9 * b1 / 10))%Z) in *.
  assert (H2 : (11 <= P2 <= 10 ^ 14)%Z) by lia.
  destruct (next_line_facts P2 ltac:(lia)) as (B0 & B1 & B2 & _ & B4).
  specialize (B4 ltac:(lia)).
  set (P3 := ((9 * P2 / 10 / tickZ (9 * P2 / 10) + 1) * tickZ (9 * P2 / 10))%Z) in *.
  assert (E2 : Signal.get_nearest_tick_price Binary64.fl
                 (fmul Binary64.fl (of_int Binary64.fl b1)
                    (fsub Binary64.fl 1 (fdiv Binary64.fl Signal.BUY_LEVEL_GAP 100)))
               == inject_Z P2).
  { apply next_line_spec; [apply of_int_exact; lia | lia]. }
  eexists _, _, P2, P3. split; [reflexivity|]. split; [reflexivity|].
  split; [exact E2|]. split; [apply next_line_spec; [exact E2 | lia]|].
  repeat split; try assumption; lia.
Qed.

Lemma buy_lines_descend_witness :
  (12 <= 69000 <= 10 ^ 14)%Z /\
  exists (l2 l3 : Q) (P2 P3 : Z),
    Signal.calculate_buy_line_2 Binary64.fl (Some 69000%Z) = Some l2 /\
    Signal.calculate_buy_line_3 Binary64.fl (Some l2) = Some l3 /\
    l2 == inject_Z P2 /\ l3 == inject_Z P3 /\
    (0 < P3 < P2)%Z /\ (P2 < 69000)%Z /\
    (P2 mod tickZ P2 = 0)%Z /\ (P3 mod tickZ P3 = 0)%Z.
Proof.
  assert (A : (12 <= 69000 <= 10 ^ 14)%Z) by lia.
  split; [exact A|].
  exact (buy_lines_descend 69000 A).
Defined.

(** ** The sum of closes and the first buy line *)

Section ExactSums.
Import Binary64.

(** Dividing an integer below 2^35 by 20 and multiplying the quotient by 20
    gives the integer back. *)
Lemma div20_mul20 (s : Z) :
  (0 <= s < 2 ^ 35)%Z -> fl (fl (inject_Z s / 20) * 20) == inject_Z s.
Proof.
  intros Hs. destruct (Z.eq_dec s 0%Z) as [->|N0].
  { apply Qeq_bool_eq. vm_compute. reflexivity. }
  assert (Ps : 0 < inject_Z s) by (apply inject_Z_pos; lia).
  destruct (binade_spec (inject_Z s) Ps) as [B1 B2].
  set (e := binade (inject_Z s)) in *.
  assert (He0 : (0 <= e)%Z).
  { assert (binade 1 = 0%Z) as E1 by (apply binade_unique; [discriminate | reflexivity]).
    rewrite <- E1. apply binade_mono; [reflexivity|].
    change 1 with (inject_Z 1). rewrite <- Zle_Qle. lia. }
  assert (He1 : (e <= 34)%Z).
  { assert (pow2 e < pow2 35); [|apply pow2_lt_inv in H; lia].
    eapply Qle_lt_trans; [exact B1|]. rewrite (pow2_Z 35) by lia.
    rewrite <- Zlt_Qlt. lia. }
  assert (Z1 : (2 ^ e <= s)%Z) by (rewrite Zle_Qle, <- pow2_Z by lia; exact B1).
  assert (Z2 : (s < 2 ^ (e + 1))%Z) by (rewrite Zlt_Qlt, <- pow2_Z by lia; exact B2).
  pose proof (pow2_pos e) as Pe.
  assert (E5 : pow2 (e - 5) == pow2 e * (1 # 32)).
  { replace (e - 5)%Z with (e + - 5)%Z by ring. rewrite pow2_add. reflexivity. }
  assert (E4 : pow2 (e - 4) == pow2 e * (1 # 16)).
  { replace (e - 4)%Z with (e + - 4)%Z by ring. rewrite pow2_add. reflexivity. }
  assert (E3 : pow2 (e - 3) == pow2 e * (1 # 8)).
  { replace (e - 3)%Z with (e + - 3)%Z by ring. rewrite pow2_add. reflexivity. }
  assert (E1 : pow2 (e + 1) == pow2 e * 2).
  { rewrite pow2_add. reflexivity. }
  rewrite E1 in B2.
  assert (Ex : inject_Z s / 20 == (1 # 20) * inject_Z s) by field.
  destruct (Qlt_le_dec (inject_Z s / 20) (pow2 (e - 4))) as [A|B].
  - apply (div20_mul20_aux s e 57); [lia | lia | right; reflexivity | | discriminate].
    replace (e - 57 + 52)%Z with (e - 5)%Z by ring.
    apply binade_unique.
    + rewrite E5, Ex. lra.
    + replace (e - 5 + 1)%Z with (e - 4)%Z by ring. exact A.
  - apply (div20_mul20_aux s e 56); [lia | lia | left; reflexivity | |].
    + replace (e - 56 + 52)%Z with (e - 4)%Z by ring.
      apply binade_unique; [exact B|].
      replace (e - 4 + 1)%Z with (e - 3)%Z by ring.
      rewrite E3, Ex. lra.
    + intros _. rewrite Zlt_Qlt, <- pow2_Z by lia.
      rewrite E4, Ex in B. lra.
Qed.

(** The float sum of integers is their integer sum, below 2^53. *)
Lemma fold_fadd_integers (l : list Z) (a : Q) (acc : Z) :
  a == inject_Z acc -> (0 <= acc)%Z -> Forall (fun z => (0 <= z)%Z) l ->
  (acc + Zsum l < 2 ^ 53)%Z ->
  fold_left (fadd fl) (map inject_Z l) a == inject_Z (acc + Zsum l).
Proof.
  revert a acc. induction l as [|z l IH]; intros a acc Ea Hacc Hall Hsum.
  - cbn [map fold_left Zsum fold_right]. rewrite Z.add_0_r. exact Ea.
  - cbn [map fold_left]. inversion Hall as [|? ? Hz Hl]; subst.
    assert (Hl0 : (0 <= Zsum l)%Z).
    { clear - Hl. induction Hl as [|y l' Hy Hl' IHl]; cbn [Zsum fold_right]; [lia|].
      fold (Zsum l'). lia. }
    cbn [Zsum fold_right] in Hsum |- *. fold (Zsum l) in Hsum |- *.
    replace (acc + (z + Zsum l))%Z with ((acc + z) + Zsum l)%Z by ring.
    apply IH; [|lia|exact Hl|lia].
    unfold fadd. rewrite Ea, <- inject_Z_plus. apply fl_int_exact. lia.
Qed.

Lemma Zsum_bound (l : list Z) (B : Z) :
  Forall (fun z => (0 <= z <= B)%Z) l ->
  (0 <= Zsum l <= Z.of_nat (length l) * B)%Z.
Proof.
  induction 1 as [|z l Hz Hl IH]; cbn [Zsum fold_right length]; [lia|].
  fold (Zsum l). lia.
Qed.

End ExactSums.

Section ExactS19.
Import Binary64.

Lemma skipn_cons_nth {A} (l : list A) (n : nat) (z : A) :
  nth_error l n = Some z -> skipn n l = z :: skipn (S n) l.
Proof.
  revert n. induction l as [|a l IH]; intros [|n] E; try discriminate.
  - injection E as ->. reflexivity.
  - cbn [nth_error] in E. cbn [skipn]. rewrite (IH n E). reflexivity.
Qed.

Lemma Forall_skipn {A} (P : A -> Prop) (l : list A) (n : nat) :
  Forall P l -> Forall P (skipn n l).
Proof.
  revert n. induction l as [|a l IH]; intros [|n] H; cbn [skipn]; try assumption.
  apply IH. inversion H. assumption.
Qed.

Lemma S20_today_exact (zs : list Z) :
  (20 <= length zs)%nat -> Forall (fun z => (0 <= z <= 10 ^ 9)%Z) zs ->
  exists s20,
    Signal.S20_today fl (map inject_Z zs) = Some s20 /\
    s20 == inject_Z (Zsum (skipn (length zs - 20) zs)).
Proof.
  intros Hlen Hall.
  unfold Signal.S20_today, Signal.calculate_ma, Signal.tail.
  rewrite length_map.
  destruct (Nat.ltb_spec (length zs) 20) as [C|_]; [lia|].
  eexists. split; [reflexivity|].
  rewrite List.skipn_map.
  set (l20 := skipn (length zs - 20) zs).
  assert (H20 : Forall (fun z => (0 <= z <= 10 ^ 9)%Z) l20)
    by (apply Forall_skipn; exact Hall).
  assert (L20 : length l20 = 20%nat) by (unfold l20; rewrite length_skipn; lia).
  pose proof (Zsum_bound l20 (10 ^ 9) H20) as Hb. rewrite L20 in Hb.
  assert (Hsum : fold_left (fadd fl) (map inject_Z l20) 0 == inject_Z (Zsum l20)).
  { rewrite (fold_fadd_integers l20 0 0); [reflexivity | reflexivity | lia | | lia].
    eapply List.Forall_impl; [|exact H20]. cbv beta. intros; lia. }
  assert (H20f : of_int fl (Z.of_nat 20) == 20) by (apply Qeq_bool_eq; vm_compute; reflexivity).
  unfold fmul, fdiv. rewrite Hsum, H20f.
  apply div20_mul20. change (Z.of_nat 20) with 20%Z in Hb. lia.
Qed.

Lemma S19_next_is_exact_sum_aux (zs : list Z) :
  (20 <= length zs)%nat -> Forall (fun z => (0 <= z <= 10 ^ 9)%Z) zs ->
  exists S19 : Q,
    Signal.S19_next fl (map inject_Z zs) = Some S19 /\
    S19 == inject_Z (Zsum (skipn (length zs - 19) zs)).
Proof.
  intros Hlen Hall.
  destruct (S20_today_exact zs Hlen Hall) as (s20 & E20 & V20).
  unfold Signal.S19_next. rewrite E20.
  unfold Signal.iloc_neg. rewrite length_map.
  destruct (Nat.ltb_spec (length zs) 20) as [C|_]; [lia|].
  rewrite nth_error_map.
  destruct (nth_error zs (length zs - 20)) as [z0|] eqn:En.
  2:{ apply nth_error_None in En. lia. }
  cbn [option_map]. eexists. split; [reflexivity|].
  pose proof (skipn_cons_nth zs (length zs - 20) z0 En) as Sk.
  replace (S (length zs - 20)) with (length zs - 19)%nat in Sk by lia.
  rewrite Sk in V20. cbn [Zsum fold_right] in V20.
  fold (Zsum (skipn (length zs - 19) zs)) in V20.
  assert (H19 : Forall (fun z => (0 <= z <= 10 ^ 9)%Z) (skipn (length zs - 19) zs))
    by (apply Forall_skipn; exact Hall).
  pose proof (Zsum_bound _ (10 ^ 9) H19) as Hb.
  rewrite length_skipn in Hb.
  unfold fsub. rewrite V20, <- inject_Z_minus.
  replace (z0 + Zsum (skipn (length zs - 19) zs) - z0)%Z
    with (Zsum (skipn (length zs - 19) zs)) by ring.
  apply fl_int_exact. nia.
Qed.


Lemma Zsum_bound_below (l : list Z) :
  Forall (fun z => (1 <= z <= 10 ^ 9)%Z) l -> (Z.of_nat (length l) <= Zsum l)%Z.
Proof.
  induction 1 as [|z l Hz Hl IH]; cbn [Zsum fold_right length]; [lia|].
  fold (Zsum l). lia.
Qed.

End ExactS19.

(** X10.  For a series of at least 20 integer closes between 0 and 10^9,
    the sum [S19_next] that [analyze_stock] derives from the 20-day mean
    (mean times 20, minus the 20th close from the end) is exactly the sum
    of the 19 most recent closes: the division by 20 and the
    multiplication by 20 cancel without rounding error. *)
Theorem S19_next_is_the_exact_sum_of_19_closes (zs : list Z) :
  (20 <= length zs)%nat -> Forall (fun z => (0 <= z <= 10 ^ 9)%Z) zs ->
  exists S19 : Q,
    Signal.S19_next Binary64.fl (map inject_Z zs) = Some S19 /\
    S19 == inject_Z (Zsum (skipn (length zs - 19) zs)).
Proof.
  exact (S19_next_is_exact_sum_aux zs).
Qed.

Lemma S19_next_is_the_exact_sum_of_19_closes_witness :
  (20 <= length [1000; 1010; 1020; 1030; 1040; 1050; 1060; 1070; 1080; 1090;
                 1100; 1110; 1120; 1130; 1140; 1150; 1160; 1170; 1180; 1190;
                 1200]%Z)%nat /\
  Forall (fun z => (0 <= z <= 10 ^ 9)%Z)
    [1000; 1010; 1020; 1030; 1040; 1050; 1060; 1070; 1080; 1090;
     1100; 1110; 1120; 1130; 1140; 1150; 1160; 1170; 1180; 1190; 1200]%Z /\
  exists S19 : Q,
    Signal.S19_next Binary64.fl
      (map inject_Z [1000; 1010; 1020; 1030; 1040; 1050; 1060; 1070; 1080; 1090;
                     1100; 1110; 1120; 1130; 1140; 1150; 1160; 1170; 1180; 1190;
                     1200]%Z) = Some S19 /\
    S19 == inject_Z (Zsum (skipn
             (length [1000; 1010; 1020; 1030; 1040; 1050; 1060; 1070; 1080; 1090;
                      1100; 1110; 1120; 1130; 1140; 1150; 1160; 1170; 1180; 1190;
                      1200]%Z - 19)
             [1000; 1010; 1020; 1030; 1040; 1050; 1060; 1070; 1080; 1090;
              1100; 1110; 1120; 1130; 1140; 1150; 1160; 1170; 1180; 1190;
              1200]%Z)).
Proof.
  assert (A : (20 <= length [1000; 1010; 1020; 1030; 1040; 1050; 1060; 1070; 1080;
                             1090; 1100; 1110; 1120; 1130; 1140; 1150; 1160; 1170;
                             1180; 1190; 1200]%Z)%nat) by (simpl; lia).
  assert (B : Forall (fun z => (0 <= z <= 10 ^ 9)%Z)
                [1000; 1010; 1020; 1030; 1040; 1050; 1060; 1070; 1080; 1090;
                 1100; 1110; 1120; 1130; 1140; 1150; 1160; 1170; 1180; 1190;
                 1200]%Z) by (repeat constructor; lia).
  split; [exact A|]. split; [exact B|].
  exact (S19_next_is_the_exact_sum_of_19_closes _ A B).
Defined.

(** X11.  For a series of at least 20 integer closes between 1 and 10^9,
    the first buy line published for the next session is the least on-tick
    price p with 24 * p at or above the sum of the 19 most recent
    closes. *)
Theorem first_buy_line_from_closes (zs : list Z) (fuel : nat) :
  (20 <= length zs)%nat -> Forall (fun z => (1 <= z <= 10 ^ 9)%Z) zs ->
  exists p : Z,
    Signal.buy1_next Binary64.fl (S fuel) (map inject_Z zs) = Returned (Some p) /\
    (p mod tickZ p = 0)%Z /\
    (Zsum (skipn (length zs - 19) zs) <= 24 * p)%Z /\
    forall q : Z, (0 <= q)%Z -> (q mod tickZ q = 0)%Z ->
                  (Zsum (skipn (length zs - 19) zs) <= 24 * q)%Z -> (p <= q)%Z.
Proof.
  intros Hlen Hall.
  assert (Hall0 : Forall (fun z => (0 <= z <= 10 ^ 9)%Z) zs).
  { eapply List.Forall_impl; [|exact Hall]. cbv beta. intros; lia. }
  destruct (S19_next_is_exact_sum_aux zs Hlen Hall0) as (v & Ev & Vv).
  set (s := Zsum (skipn (length zs - 19) zs)) in *.
  assert (H19 : Forall (fun z => (1 <= z <= 10 ^ 9)%Z) (skipn (length zs - 19) zs))
    by (apply Forall_skipn; exact Hall).
  assert (Hs : (19 <= s <= 19 * 10 ^ 9)%Z).
  { pose proof (Zsum_bound_below _ H19) as B1.
    assert (H19' : Forall (fun z => (0 <= z <= 10 ^ 9)%Z) (skipn (length zs - 19) zs))
      by (apply Forall_skipn; exact Hall0).
    pose proof (Zsum_bound _ (10 ^ 9) H19') as B2.
    rewrite length_skipn in B1, B2. fold s in B1, B2.
    replace (length zs - (length zs - 19))%nat with 19%nat in B1, B2 by lia.
    change (Z.of_nat 19) with 19%Z in B1, B2. lia. }
  assert (HR : realistic_sum v).
  { split; [|split].
    - unfold is_float. rewrite Vv. apply fl_int_exact. lia.
    - rewrite Vv. change 1 with (inject_Z 1). rewrite <- Zle_Qle. lia.
    - rewrite Vv. change 1000000000000000 with (inject_Z (10 ^ 15)).
      rewrite <- Zle_Qle. lia. }
  unfold Signal.buy1_next. rewrite Ev. unfold Signal.calculate_buy_line_1.
  assert (Qle_bool v 0 = false) as ->.
  { apply Qle_bool_false. rewrite Vv. apply inject_Z_pos. lia. }
  rewrite (predict_first v fuel HR).
  destruct (candidate_least v HR) as (P0 & Pg & PU & Pmin).
  eexists. split; [reflexivity|]. split; [exact Pg|]. split.
  - rewrite Zle_Qle, <- Vv. exact PU.
  - intros q Hq0 Hqg Hq. apply Pmin; [exact Hq0 | exact Hqg |].
    rewrite Vv, <- Zle_Qle. exact Hq.
Qed.

Lemma first_buy_line_from_closes_witness :
  (20 <= length [69000; 69100; 69200; 69300; 69400; 69500; 69600; 69700; 69800;
                 69900; 70000; 70100; 70200; 70300; 70400; 70500; 70600; 70700;
                 70800; 70900; 71000]%Z)%nat /\
  Forall (fun z => (1 <= z <= 10 ^ 9)%Z)
    [69000; 69100; 69200; 69300; 69400; 69500; 69600; 69700; 69800; 69900;
     70000; 70100; 70200; 70300; 70400; 70500; 70600; 70700; 70800; 70900;
     71000]%Z /\
  exists p : Z,
    Signal.buy1_next Binary64.fl 1
      (map inject_Z [69000; 69100; 69200; 69300; 69400; 69500; 69600; 69700;
                     69800; 69900; 70000; 70100; 70200; 70300; 70400; 70500;
                     70600; 70700; 70800; 70900; 71000]%Z)
    = Returned (Some p) /\
    (p mod tickZ p = 0)%Z /\
    (Zsum (skipn
       (length [69000; 69100; 69200; 69300; 69400; 69500; 69600; 69700; 69800;
                69900; 70000; 70100; 70200; 70300; 70400; 70500; 70600; 70700;
                70800; 70900; 71000]%Z - 19)
       [69000; 69100; 69200; 69300; 69400; 69500; 69600; 69700; 69800; 69900;
        70000; 70100; 70200; 70300; 70400; 70500; 70600; 70700; 70800; 70900;
        71000]%Z) <= 24 * p)%Z /\
    forall q : Z, (0 <= q)%Z -> (q mod tickZ q = 0)%Z ->
      (Zsum (skipn
         (length [69000; 69100; 69200; 69300; 69400; 69500; 69600; 69700; 69800;
                  69900; 70000; 70100; 70200; 70300; 70400; 70500; 70600; 70700;
                  70800; 70900; 71000]%Z - 19)
         [69000; 69100; 69200; 69300; 69400; 69500; 69600; 69700; 69800; 69900;
          70000; 70100; 70200; 70300; 70400; 70500; 70600; 70700; 70800; 70900;
          71000]%Z) <= 24 * q)%Z -> (p <= q)%Z.
Proof.
  assert (A : (20 <= length [69000; 69100; 69200; 69300; 69400; 69500; 69600;
                             69700; 69800; 69900; 70000; 70100; 70200; 70300;
                             70400; 70500; 70600; 70700; 70800; 70900;
                             71000]%Z)%nat) by (simpl; lia).
  assert (B : Forall (fun z => (1 <= z <= 10 ^ 9)%Z)
                [69000; 69100; 69200; 69300; 69400; 69500; 69600; 69700; 69800;
                 69900; 70000; 70100; 70200; 70300; 70400; 70500; 70600; 70700;
                 70800; 70900; 71000]%Z) by (repeat constructor; lia).
  split; [exact A|]. split; [exact B|].
  exact (first_buy_line_from_closes _ 0 A B).
Defined.

(** ** The alert history across days *)

Section EpochFacts.
Import Monitor.
Variable rnd : Q -> Q.

Lemma marked_empty today ticker key :
  marked {| date := today; alerts := Some ∅ |} ticker key = false.
Proof.
  unfold marked, fired, ticker_alerts_of. cbn [alerts default from_option id].
  rewrite lookup_empty. cbn [default from_option id]. rewrite lookup_empty. reflexivity.
Qed.

(** What is sent and stored by the block that sends and marks. *)
Lemma send_and_mark_events h ticker key before cur tgt d evs h1 r file :
  send_and_mark h ticker key before cur tgt d = (evs, h1, r) ->
  (before = [] \/ before = [ReadSellPrices ticker]) ->
  List.filter is_send evs = [SendRealtimeAlert key ticker cur tgt d] /\
  stored_history file evs = Some h1 /\
  date h1 = date h.
Proof.
  unfold send_and_mark. intros E Hb. injection E as <- <- _.
  destruct Hb as [-> | ->]; repeat split; reflexivity.
Qed.

(** A call that sends: what it sends, what it stores, and what the same
    call does on a history without any key of this instrument. *)
Lemma check_tier_fresh t ticker cur low line h evs h1 h0 file file0 :
  check_tier rnd t ticker cur low line h = Returned (evs, h1, true) ->
  (forall key, marked h0 ticker key = false) ->
  (exists alert, List.filter is_send evs = [alert]) /\
  stored_history file evs = Some h1 /\
  exists evs' h2,
    check_tier rnd t ticker cur low line h0 = Returned (evs', h2, true) /\
    List.filter is_send evs' = List.filter is_send evs /\
    stored_history file0 evs' = Some h2 /\
    date h2 = date h0.
Proof.
  unfold check_tier. intros E Hfresh.
  fold (marked h ticker (executed_key t)) (marked h ticker (ready1_key t))
       (marked h ticker (ready3_key t)) (marked h ticker (ready5_key t)) in E.
  fold (marked h0 ticker (executed_key t)) (marked h0 ticker (ready1_key t))
       (marked h0 ticker (ready3_key t)) (marked h0 ticker (ready5_key t)).
  rewrite !Hfresh. cbn [negb andb].
  destruct (calculate_low_price_distance rnd low line) as [d|]; [|discriminate].
  assert (K : forall key before,
            (before = [] \/ before = [ReadSellPrices ticker]) ->
            Returned (send_and_mark h ticker key before cur line d)
            = Returned (evs, h1, true) ->
            (exists alert, List.filter is_send evs = [alert]) /\
            stored_history file evs = Some h1 /\
            exists evs' h2,
              Returned (send_and_mark h0 ticker key before cur line d)
              = Returned (evs', h2, true) /\
              List.filter is_send evs' = List.filter is_send evs /\
              stored_history file0 evs' = Some h2 /\
              date h2 = date h0).
  { intros key before Hb E0. apply Returned_inj in E0.
    destruct (send_and_mark_events h ticker key before cur line d evs h1 true file E0 Hb)
      as (S1 & S2 & _).
    split; [eexists; exact S1|]. split; [exact S2|].
    destruct (send_and_mark h0 ticker key before cur line d) as [[evs' h2] r'] eqn:E'.
    pose proof E' as E''. unfold send_and_mark in E''. injection E'' as _ _ <-.
    destruct (send_and_mark_events h0 ticker key before cur line d evs' h2 true file0 E' Hb)
      as (T1 & T2 & T3).
    exists evs', h2. split; [reflexivity|]. split; [congruence|]. split; assumption. }
  destruct (Qle_bool d 0).
  { destruct (negb (marked h ticker (executed_key t)));
      [apply (K _ [ReadSellPrices ticker]); [right; reflexivity | exact E]
      |apply Returned_inj in E; discriminate]. }
  destruct (Qltb 0 d && Qle_bool d 1).
  { destruct (negb (marked h ticker (ready1_key t)));
      [apply (K _ []); [left; reflexivity | exact E]
      |apply Returned_inj in E; discriminate]. }
  destruct (Qltb 0 d && Qle_bool d 3).
  { destruct (negb (marked h ticker (ready3_key t)) && negb (marked h ticker (ready1_key t)));
      [apply (K _ []); [left; reflexivity | exact E]
      |apply Returned_inj in E; discriminate]. }
  destruct (Qltb 0 d && Qle_bool d 5).
  { destruct (negb (marked h ticker (ready5_key t)) && negb (marked h ticker (ready1_key t))
              && negb (marked h ticker (ready3_key t)));
      [apply (K _ []); [left; reflexivity | exact E]
      |apply Returned_inj in E; discriminate]. }
  apply Returned_inj in E. discriminate.
Qed.

Lemma check_simplified_alert_fresh ticker name cur low st b1 b2 b3 h evs h1 h0
    file file0 :
  check_simplified_alert rnd ticker name cur low st b1 b2 b3 h
  = Returned (evs, h1, true) ->
  (forall key, marked h0 ticker key = false) ->
  (exists alert, List.filter is_send evs = [alert]) /\
  stored_history file evs = Some h1 /\
  exists evs' h2,
    check_simplified_alert rnd ticker name cur low st b1 b2 b3 h0
    = Returned (evs', h2, true) /\
    List.filter is_send evs' = List.filter is_send evs /\
    stored_history file0 evs' = Some h2 /\
    date h2 = date h0.
Proof.
  unfold check_simplified_alert. intros E Hfresh.
  destruct b1 as [v1|]; [|apply Returned_inj in E; discriminate].
  destruct b2 as [v2|]; [|apply Returned_inj in E; discriminate].
  destruct b3 as [v3|]; [|apply Returned_inj in E; discriminate].
  destruct (active_tier st v1 v2 v3) as [[t line]|];
    [|apply Returned_inj in E; discriminate].
  exact (check_tier_fresh t ticker cur low line h evs h1 h0 file file0 E Hfresh).
Qed.

Lemma check_simplified_alert_again ticker name cur low st b1 b2 b3 h evs h1 r :
  check_simplified_alert rnd ticker name cur low st b1 b2 b3 h
  = Returned (evs, h1, r) ->
  check_simplified_alert rnd ticker name cur low st b1 b2 b3 h1
  = Returned ([], h1, false).
Proof.
  unfold check_simplified_alert. intros E.
  destruct b1 as [v1|]; [|apply Returned_inj in E; injection E as _ <- _; reflexivity].
  destruct b2 as [v2|]; [|apply Returned_inj in E; injection E as _ <- _; reflexivity].
  destruct b3 as [v3|]; [|apply Returned_inj in E; injection E as _ <- _; reflexivity].
  destruct (active_tier st v1 v2 v3) as [[t line]|];
    [|apply Returned_inj in E; injection E as _ <- _; reflexivity].
  exact (check_tier_again rnd t ticker cur low line h evs h1 r E).
Qed.

Lemma check_simplified_alert_date ticker name cur low st b1 b2 b3 h evs h1 r :
  check_simplified_alert rnd ticker name cur low st b1 b2 b3 h
  = Returned (evs, h1, r) ->
  date h1 = date h.
Proof.
  unfold check_simplified_alert. intros E.
  destruct b1 as [v1|]; [|apply Returned_inj in E; injection E as _ <- _; reflexivity].
  destruct b2 as [v2|]; [|apply Returned_inj in E; injection E as _ <- _; reflexivity].
  destruct b3 as [v3|]; [|apply Returned_inj in E; injection E as _ <- _; reflexivity].
  destruct (active_tier st v1 v2 v3) as [[t line]|];
    [|apply Returned_inj in E; injection E as _ <- _; reflexivity].
  destruct (check_tier_frame rnd t ticker cur low line h evs h1 r E)
    as [(_ & -> & _)|(_ & D & _)]; [reflexivity | exact D].
Qed.

End EpochFacts.

(** X12.  For every rounding: a call that returns true has sent exactly
    one alert and left its history [h1] in the file.  Loaded on the same
    day the file gives [h1] back, and the same call then sends nothing and
    returns false.  Loaded on any other day the file is replaced by an
    empty history of that day, and the same call sends the same alert once
    more, stores its new history under the new date and returns true. *)
Theorem alert_deduplication_lasts_one_day
    (rnd : Q -> Q) (ticker stock_name : string) (current_price low_price : Q)
    (buy_status : string) (buy1 buy2 buy3 : option Q)
    (file : option Monitor.history) (h h1 : Monitor.history)
    (evs : list Monitor.event) (today later : string) :
  Monitor.check_simplified_alert rnd ticker stock_name current_price low_price
    buy_status buy1 buy2 buy3 h = Returned (evs, h1, true) ->
  Monitor.date h = today -> later <> today ->
  ((exists alert, List.filter Monitor.is_send evs = [alert]) /\
   stored_history file evs = Some h1) /\
  (Monitor.load_alert_history today (stored_history file evs) = h1 /\
   Monitor.check_simplified_alert rnd ticker stock_name current_price low_price
     buy_status buy1 buy2 buy3
     (Monitor.load_alert_history today (stored_history file evs))
   = Returned ([], h1, false)) /\
  (Monitor.load_alert_history later (stored_history file evs)
   = {| Monitor.date := later; Monitor.alerts := Some ∅ |} /\
   exists evs' h2,
     Monitor.check_simplified_alert rnd ticker stock_name current_price low_price
       buy_status buy1 buy2 buy3
       (Monitor.load_alert_history later (stored_history file evs))
     = Returned (evs', h2, true) /\
     List.filter Monitor.is_send evs' = List.filter Monitor.is_send evs /\
     stored_history (stored_history file evs) evs' = Some h2 /\
     Monitor.date h2 = later).
Proof.
  intros E Hd Hl.
  pose proof (check_simplified_alert_date rnd _ _ _ _ _ _ _ _ _ _ _ _ E) as D.
  destruct (check_simplified_alert_fresh rnd _ _ _ _ _ _ _ _ h evs h1
              {| Monitor.date := later; Monitor.alerts := Some ∅ |}
              file (stored_history file evs) E
              (fun key => marked_empty later ticker key))
    as (Hsend & Hstore & evs' & h2 & E' & Hsame & Hstore' & Hdate').
  rewrite Hstore in *.
  assert (L1 : Monitor.load_alert_history today (Some h1) = h1).
  { unfold Monitor.load_alert_history. rewrite decide_True by congruence. reflexivity. }
  assert (L2 : Monitor.load_alert_history later (Some h1)
               = {| Monitor.date := later; Monitor.alerts := Some ∅ |}).
  { unfold Monitor.load_alert_history. rewrite decide_False by congruence. reflexivity. }
  split; [split; [exact Hsend | reflexivity]|]. split; split.
  - exact L1.
  - rewrite L1. exact (check_simplified_alert_again rnd _ _ _ _ _ _ _ _ _ _ _ _ E).
  - exact L2.
  - rewrite L2. exists evs', h2.
    split; [exact E'|]. split; [exact Hsame|]. split; [exact Hstore'|exact Hdate'].
Qed.

Lemma alert_deduplication_lasts_one_day_witness :
  exists (evs : list Monitor.event) (h1 : Monitor.history),
    Monitor.check_simplified_alert Binary64.fl "005930" "Samsung" 12950 12900 "NONE"
      (Some 12800) (Some 11520) (Some 10370)
      {| Monitor.date := "2025-10-14"; Monitor.alerts := Some ∅ |}
    = Returned (evs, h1, true) /\
    "2025-10-14" = "2025-10-14" /\ "2025-10-15" <> "2025-10-14" /\
    Monitor.check_simplified_alert Binary64.fl "005930" "Samsung" 12950 12900 "NONE"
      (Some 12800) (Some 11520) (Some 10370)
      (Monitor.load_alert_history "2025-10-14" (stored_history None evs))
    = Returned ([], h1, false) /\
    exists evs' h2,
      Monitor.check_simplified_alert Binary64.fl "005930" "Samsung" 12950 12900 "NONE"
        (Some 12800) (Some 11520) (Some 10370)
        (Monitor.load_alert_history "2025-10-15" (stored_history None evs))
      = Returned (evs', h2, true) /\
      List.filter Monitor.is_send evs' = List.filter Monitor.is_send evs /\
      stored_history (stored_history None evs) evs' = Some h2 /\
      Monitor.date h2 = "2025-10-15".
Proof.
  eexists. eexists.
  match goal with |- ?A /\ _ => assert (E : A) by (vm_compute; reflexivity) end.
  assert (D : "2025-10-14" = "2025-10-14") by reflexivity.
  assert (N : "2025-10-15" <> "2025-10-14") by discriminate.
  split; [exact E|]. split; [exact D|]. split; [exact N|].
  destruct (alert_deduplication_lasts_one_day Binary64.fl "005930" "Samsung"
              12950 12900 "NONE" (Some 12800) (Some 11520) (Some 10370) None
              {| Monitor.date := "2025-10-14"; Monitor.alerts := Some ∅ |}
              _ _ "2025-10-14" "2025-10-15" E D N)
    as (_ & (_ & Same) & (_ & Later)).
  split; [exact Same | exact Later].
Defined.

(** ** Distances in percent *)

Section DistanceFacts.
Import Binary64.

Lemma low_price_distance_unfold c t :
  Monitor.calculate_low_price_distance fl c t
  = if Qeq_bool t 0 then None else Some (clamped_distance c t).
Proof.
  unfold Monitor.calculate_low_price_distance, clamped_distance.
  destruct (Qeq_bool t 0); [reflexivity|].
  destruct (Qltb _ _); reflexivity.
Qed.

Lemma distance_pct_unfold c t :
  Signal.calculate_distance_pct fl (Some c) (Some t)
  = if Qeq_bool t 0 then None else Some (clamped_distance c t).
Proof.
  unfold Signal.calculate_distance_pct, clamped_distance.
  destruct (Qeq_bool t 0); [reflexivity|].
  destruct (Qltb _ _); reflexivity.
Qed.

Lemma fl_Z_exact (n : Z) : (- 2 ^ 53 < n < 2 ^ 53)%Z -> fl (inject_Z n) == inject_Z n.
Proof.
  intros H. destruct (Z_le_gt_dec 0 n) as [P|P].
  - apply fl_int_exact. lia.
  - assert (E : inject_Z n == - inject_Z (- n)) by (rewrite inject_Z_opp; ring).
    rewrite (fl_comp _ _ E), fl_opp, fl_int_exact by lia. symmetry. exact E.
Qed.

(** The clamp threshold is below 2^-33. *)
Lemma clamp_small : fl (1 # 10000000000) <= pow2 (-33).
Proof.
  apply fl_le_repr.
  - reflexivity.
  - apply Qle_bool_iff. vm_compute. reflexivity.
  - apply (is_float_comp (inject_Z 1 * pow2 (-33))); [unfold pow2; simpl; ring|].
    apply is_float_dyadic; lia.
Qed.

Lemma clamp_nonneg : 0 <= fl (1 # 10000000000).
Proof. apply fl_nonneg. discriminate. Qed.

(** The raw distance of two integer prices. *)
Lemma raw_distance_integers (low line : Z) :
  (0 <= low <= 10 ^ 9)%Z -> (1 <= line <= 10 ^ 9)%Z ->
  fmul fl (fdiv fl (fsub fl (inject_Z low) (inject_Z line)) (inject_Z line)) 100
  == fl (fl (inject_Z (low - line) / inject_Z line) * 100).
Proof.
  intros Hl Hn. unfold fmul, fdiv, fsub.
  apply fl_comp. apply Qmult_comp; [|reflexivity].
  apply fl_comp. apply Qdiv_comp; [|reflexivity].
  rewrite <- inject_Z_minus. apply fl_Z_exact. lia.
Qed.

Lemma raw_nonpos (k line : Z) :
  (k <= 0)%Z -> (1 <= line)%Z ->
  fl (fl (inject_Z k / inject_Z line) * 100) <= 0.
Proof.
  intros Hk Hn. apply fl_nonpos.
  assert (fl (inject_Z k / inject_Z line) <= 0); [|lra].
  apply fl_nonpos.
  assert (0 < inject_Z line) by (apply inject_Z_pos; lia).
  assert (inject_Z k <= 0) by (change 0 with (inject_Z 0); rewrite <- Zle_Qle; exact Hk).
  apply Qle_shift_div_r; [assumption | lra].
Qed.

Lemma raw_pos (k line : Z) :
  (1 <= k)%Z -> (1 <= line <= 10 ^ 9)%Z ->
  pow2 (-24) <= fl (fl (inject_Z k / inject_Z line) * 100).
Proof.
  intros Hk Hn.
  assert (Hline : 0 < inject_Z line) by (apply inject_Z_pos; lia).
  assert (F30 : is_float (pow2 (-30))).
  { apply (is_float_comp (inject_Z 1 * pow2 (-30))); [unfold pow2; simpl; ring|].
    apply is_float_dyadic; lia. }
  assert (F24 : is_float (pow2 (-24))).
  { apply (is_float_comp (inject_Z 1 * pow2 (-24))); [unfold pow2; simpl; ring|].
    apply is_float_dyadic; lia. }
  assert (R : pow2 (-30) <= inject_Z k / inject_Z line).
  { apply Qle_shift_div_l; [exact Hline|].
    assert (inject_Z line <= inject_Z (10 ^ 9)) as L1 by (rewrite <- Zle_Qle; lia).
    assert (1 <= inject_Z k) as L2 by (change 1 with (inject_Z 1); rewrite <- Zle_Qle; lia).
    assert (pow2 (-30) * inject_Z (10 ^ 9) <= 1) as L3 by (apply Qle_bool_iff; vm_compute; reflexivity).
    assert (0 < pow2 (-30)) by apply pow2_pos.
    assert (pow2 (-30) * inject_Z line <= pow2 (-30) * inject_Z (10 ^ 9)).
    { apply Qmult_le_l; assumption. }
    lra. }
  assert (Q1 : pow2 (-30) <= fl (inject_Z k / inject_Z line)).
  { apply fl_ge_repr; [apply pow2_pos | exact R | exact F30]. }
  apply fl_ge_repr; [apply pow2_pos | | exact F24].
  assert (pow2 (-24) <= pow2 (-30) * 100) by (apply Qle_bool_iff; vm_compute; reflexivity).
  lra.
Qed.

(** One threshold [T] percent: [fT] is a float just above [T / 100] and
    [cT] a float above [T]. *)
Lemma raw_band (T : Z) (fT cT : Q) (k line : Z) :
  fl (fl (inject_Z T / 100) * 100) == inject_Z T ->
  is_float fT -> 0 < fT -> fT <= inject_Z T / 100 + (1 # 100000000000) ->
  is_float cT -> 0 < cT -> cT <= fT * 100 -> inject_Z T < cT ->
  (1 <= k)%Z -> (1 <= line <= 10 ^ 9)%Z ->
  fl (fl (inject_Z k / inject_Z line) * 100) <= inject_Z T
  <-> (100 * k <= T * line)%Z.
Proof.
  intros HT FfT PfT LfT FcT PcT LcT GcT Hk Hn.
  assert (Hline : 0 < inject_Z line) by (apply inject_Z_pos; lia).
  split.
  - intros L.
    destruct (Z_le_gt_dec (100 * k) (T * line)) as [A|A]; [exact A|exfalso].
    assert (B : (T * line + 1 <= 100 * k)%Z) by lia.
    rewrite Zle_Qle, inject_Z_plus, !inject_Z_mult in B.
    change (inject_Z 1) with 1 in B. change (inject_Z 100) with 100 in B.
    assert (R : fT <= inject_Z k / inject_Z line).
    { apply Qle_shift_div_l; [exact Hline|].
      assert (inject_Z line <= inject_Z (10 ^ 9)) as L1 by (rewrite <- Zle_Qle; lia).
      change (inject_Z (10 ^ 9)) with 1000000000 in L1.
      assert (fT * inject_Z line
              <= (inject_Z T / 100 + (1 # 100000000000)) * inject_Z line) as M
        by (apply Qmult_le_compat_r; lra).
      assert ((inject_Z T / 100 + (1 # 100000000000)) * inject_Z line
              == (inject_Z T * inject_Z line) / 100
                 + (1 # 100000000000) * inject_Z line) as E by field.
      rewrite E in M.
      assert ((1 # 100000000000) * inject_Z line <= 1 # 100) by lra.
      assert (inject_Z T * inject_Z line / 100 + (1 # 100) <= inject_Z k); [|lra].
      apply (Qmult_le_r _ _ 100); [reflexivity|].
      assert ((inject_Z T * inject_Z line / 100 + (1 # 100)) * 100
              == inject_Z T * inject_Z line + 1) as -> by field.
      lra. }
    assert (Q1 : fT <= fl (inject_Z k / inject_Z line))
      by (apply fl_ge_repr; assumption).
    assert (Q2 : cT <= fl (fl (inject_Z k / inject_Z line) * 100))
      by (apply fl_ge_repr; [exact PcT | lra | exact FcT]).
    lra.
  - intros A.
    rewrite Zle_Qle, !inject_Z_mult in A. change (inject_Z 100) with 100 in A.
    assert (R : inject_Z k / inject_Z line <= inject_Z T / 100).
    { apply Qle_shift_div_r; [exact Hline|].
      assert (inject_Z T / 100 * inject_Z line == inject_Z T * inject_Z line / 100) as -> by field.
      apply Qle_shift_div_l; [reflexivity|]. lra. }
    rewrite <- HT. apply fl_mono.
    apply Qmult_le_compat_r; [apply fl_mono; exact R | discriminate].
Qed.

End DistanceFacts.

Section DistanceBands.
Import Binary64.

Ltac by_computation := apply Qeq_bool_eq; vm_compute; reflexivity.
Ltac le_by_computation := apply Qle_bool_iff; vm_compute; reflexivity.

Lemma raw_band_at (T m : Z) (k line : Z) :
  In (T, m) [(1, 10995116279); (3, 32985348835); (5, 54975581390);
             (10, 109951162779)]%Z ->
  (1 <= k)%Z -> (1 <= line <= 10 ^ 9)%Z ->
  fl (fl (inject_Z k / inject_Z line) * 100) <= inject_Z T
  <-> (100 * k <= T * line)%Z.
Proof.
  intros HIn Hk Hn.
  apply (raw_band T (inject_Z m * pow2 (-40)) (inject_Z (T * 2 ^ 34 + 1) * pow2 (-34)));
    try assumption;
    simpl in HIn;
    repeat (destruct HIn as [HIn|HIn]; [injection HIn as <- <-|]); try contradiction;
    first [ by_computation
          | apply is_float_dyadic; lia
          | reflexivity
          | le_by_computation
          | (apply Qlt_alt; vm_compute; reflexivity) ].
Qed.

End DistanceBands.

Section ClampedDistance.
Import Binary64.

Lemma clamped_distance_cases (low line : Z) :
  (0 <= low <= 10 ^ 9)%Z -> (1 <= line <= 10 ^ 9)%Z ->
  ((low <= line)%Z /\ clamped_distance (inject_Z low) (inject_Z line) <= 0) \/
  ((line < low)%Z /\
   clamped_distance (inject_Z low) (inject_Z line)
   == fl (fl (inject_Z (low - line) / inject_Z line) * 100) /\
   pow2 (-24) <= clamped_distance (inject_Z low) (inject_Z line)).
Proof.
  intros Hl Hn.
  pose proof (raw_distance_integers low line Hl Hn) as E.
  unfold clamped_distance.
  set (raw := fmul fl (fdiv fl (fsub fl (inject_Z low) (inject_Z line)) (inject_Z line)) 100) in *.
  destruct (Z_le_gt_dec low line) as [A|A].
  - left. split; [exact A|].
    assert (raw <= 0) by (rewrite E; apply raw_nonpos; lia).
    destruct (Qltb (Qabs raw) (fl (1 # 10000000000))); lra.
  - right. split; [lia|].
    assert (P : pow2 (-24) <= raw) by (rewrite E; apply raw_pos; lia).
    assert (P0 : 0 < raw) by (pose proof (pow2_pos (-24)); lra).
    assert (Qltb (Qabs raw) (fl (1 # 10000000000)) = false) as ->.
    { apply Qltb_false. rewrite (Qabs_pos_eq raw P0).
      pose proof clamp_small.
      assert (pow2 (-33) <= pow2 (-24)) by (apply pow2_le; lia). lra. }
    split; [exact E | exact P].
Qed.

Lemma clamped_distance_sign (low line : Z) :
  (0 <= low <= 10 ^ 9)%Z -> (1 <= line <= 10 ^ 9)%Z ->
  (clamped_distance (inject_Z low) (inject_Z line) <= 0 <-> (low <= line)%Z) /\
  (0 < clamped_distance (inject_Z low) (inject_Z line) <-> (line < low)%Z).
Proof.
  intros Hl Hn. pose proof (pow2_pos (-24)) as P.
  destruct (clamped_distance_cases low line Hl Hn) as [[A B]|(A & _ & B)];
    (split; split; intros H; try lia; try lra).
Qed.

Lemma clamped_distance_band (T m : Z) (low line : Z) :
  In (T, m) [(1, 10995116279); (3, 32985348835); (5, 54975581390);
             (10, 109951162779)]%Z ->
  (0 <= low <= 10 ^ 9)%Z -> (1 <= line <= 10 ^ 9)%Z ->
  clamped_distance (inject_Z low) (inject_Z line) <= inject_Z T
  <-> (100 * (low - line) <= T * line)%Z.
Proof.
  intros HIn Hl Hn.
  assert (HT : (1 <= T)%Z).
  { simpl in HIn. repeat (destruct HIn as [HIn|HIn]; [injection HIn as <- <-; lia|]). contradiction. }
  destruct (clamped_distance_cases low line Hl Hn) as [[A B]|(A & E & B)].
  - split; intros _; [nia|].
    assert (0 <= inject_Z T) by (apply inject_Z_nonneg; lia). lra.
  - rewrite E. apply (raw_band_at T m); [exact HIn | lia | exact Hn].
Qed.

End ClampedDistance.

(** X13.  For integer prices (a low from 0 to 10^9, a line from 1 to
    10^9) [calculate_low_price_distance] returns a distance d whose
    comparisons with 0, 1, 3 and 5 are those of exact arithmetic: d <= 0
    iff low <= line, and d <= T iff 100 * (low - line) <= T * line.  The
    fill test [check_buy_signal] of the signal system holds exactly when
    d <= 0. *)
Theorem low_price_distance_exact_on_integer_prices (low line : Z) :
  (0 <= low <= 10 ^ 9)%Z -> (1 <= line <= 10 ^ 9)%Z ->
  exists d : Q,
    Monitor.calculate_low_price_distance Binary64.fl (inject_Z low) (inject_Z line)
    = Some d /\
    (d <= 0 <-> (low <= line)%Z) /\
    (d <= 1 <-> (100 * (low - line) <= 1 * line)%Z) /\
    (d <= 3 <-> (100 * (low - line) <= 3 * line)%Z) /\
    (d <= 5 <-> (100 * (low - line) <= 5 * line)%Z) /\
    (Signal.check_buy_signal (Some (inject_Z low)) (Some (inject_Z line)) = true
     <-> d <= 0).
Proof.
  intros Hl Hn.
  exists (clamped_distance (inject_Z low) (inject_Z line)).
  split; [|split; [|split; [|split; [|split]]]]; cycle 5.
  { rewrite (proj1 (clamped_distance_sign low line Hl Hn)).
    unfold Signal.check_buy_signal. rewrite Qle_bool_iff, <- Zle_Qle. reflexivity. }
  - rewrite low_price_distance_unfold.
    assert (Qeq_bool (inject_Z line) 0 = false) as ->; [|reflexivity].
    apply Qeq_bool_false. intros C.
    assert (0 < inject_Z line) by (apply inject_Z_pos; lia). lra.
  - apply (clamped_distance_sign low line Hl Hn).
  - apply (clamped_distance_band 1 10995116279 low line); [simpl; tauto | exact Hl | exact Hn].
  - apply (clamped_distance_band 3 32985348835 low line); [simpl; tauto | exact Hl | exact Hn].
  - apply (clamped_distance_band 5 54975581390 low line); [simpl; tauto | exact Hl | exact Hn].
Qed.

Lemma low_price_distance_exact_on_integer_prices_witness :
  (0 <= 12900 <= 10 ^ 9)%Z /\ (1 <= 12800 <= 10 ^ 9)%Z /\
  exists d : Q,
    Monitor.calculate_low_price_distance Binary64.fl (inject_Z 12900) (inject_Z 12800)
    = Some d /\
    (d <= 0 <-> (12900 <= 12800)%Z) /\
    (d <= 1 <-> (100 * (12900 - 12800) <= 1 * 12800)%Z) /\
    (d <= 3 <-> (100 * (12900 - 12800) <= 3 * 12800)%Z) /\
    (d <= 5 <-> (100 * (12900 - 12800) <= 5 * 12800)%Z) /\
    (Signal.check_buy_signal (Some (inject_Z 12900)) (Some (inject_Z 12800)) = true
     <-> d <= 0).
Proof.
  assert (A : (0 <= 12900 <= 10 ^ 9)%Z) by lia.
  assert (B : (1 <= 12800 <= 10 ^ 9)%Z) by lia.
  split; [exact A|]. split; [exact B|].
  exact (low_price_distance_exact_on_integer_prices 12900 12800 A B).
Defined.

Section FreshAlert.
Import Monitor.

Lemma check_tier_integer_prices t ticker cur (low line : Z) h :
  (0 <= low <= 10 ^ 9)%Z -> (1 <= line <= 10 ^ 9)%Z ->
  (forall key, marked h ticker key = false) ->
  let d := clamped_distance (inject_Z low) (inject_Z line) in
  check_tier Binary64.fl t ticker cur (inject_Z low) (inject_Z line) h =
  if (low <=? line)%Z then
    Returned (send_and_mark h ticker (executed_key t) [ReadSellPrices ticker]
                cur (inject_Z line) d)
  else if (100 * (low - line) <=? 1 * line)%Z then
    Returned (send_and_mark h ticker (ready1_key t) [] cur (inject_Z line) d)
  else if (100 * (low - line) <=? 3 * line)%Z then
    Returned (send_and_mark h ticker (ready3_key t) [] cur (inject_Z line) d)
  else if (100 * (low - line) <=? 5 * line)%Z then
    Returned (send_and_mark h ticker (ready5_key t) [] cur (inject_Z line) d)
  else Returned ([], h, false).
Proof.
  intros Hl Hn Hfresh d.
  unfold check_tier. rewrite low_price_distance_unfold.
  assert (Qeq_bool (inject_Z line) 0 = false) as ->.
  { apply Qeq_bool_false. intros C.
    assert (0 < inject_Z line) by (apply inject_Z_pos; lia). lra. }
  fold d.
  fold (marked h ticker (executed_key t)) (marked h ticker (ready1_key t))
       (marked h ticker (ready3_key t)) (marked h ticker (ready5_key t)).
  rewrite !Hfresh. cbn [negb andb].
  destruct (clamped_distance_sign low line Hl Hn) as [S0 S1]. fold d in S0, S1.
  pose proof (clamped_distance_band 1 10995116279 low line ltac:(simpl; tauto) Hl Hn) as B1.
  pose proof (clamped_distance_band 3 32985348835 low line ltac:(simpl; tauto) Hl Hn) as B3.
  pose proof (clamped_distance_band 5 54975581390 low line ltac:(simpl; tauto) Hl Hn) as B5.
  fold d in B1, B3, B5.
  change (inject_Z 1) with 1 in B1. change (inject_Z 3) with 3 in B3.
  change (inject_Z 5) with 5 in B5.
  destruct (Z.leb_spec low line) as [A|A].
  - assert (Qle_bool d 0 = true) as -> by (apply Qle_bool_iff, S0; exact A). reflexivity.
  - assert (Qle_bool d 0 = false) as -> by (apply Qle_bool_false, S1; exact A).
    assert (Qltb 0 d = true) as -> by (apply Qltb_true, S1; exact A).
    cbn [andb].
    destruct (Z.leb_spec (100 * (low - line)) (1 * line)) as [A1|A1].
    { assert (Qle_bool d 1 = true) as -> by (apply Qle_bool_iff, B1; exact A1). reflexivity. }
    assert (Qle_bool d 1 = false) as ->.
    { destruct (Qle_bool d 1) eqn:E; [|reflexivity]. apply Qle_bool_iff, B1 in E. lia. }
    destruct (Z.leb_spec (100 * (low - line)) (3 * line)) as [A3|A3].
    { assert (Qle_bool d 3 = true) as -> by (apply Qle_bool_iff, B3; exact A3). reflexivity. }
    assert (Qle_bool d 3 = false) as ->.
    { destruct (Qle_bool d 3) eqn:E; [|reflexivity]. apply Qle_bool_iff, B3 in E. lia. }
    destruct (Z.leb_spec (100 * (low - line)) (5 * line)) as [A5|A5].
    { assert (Qle_bool d 5 = true) as -> by (apply Qle_bool_iff, B5; exact A5). reflexivity. }
    assert (Qle_bool d 5 = false) as ->.
    { destruct (Qle_bool d 5) eqn:E; [|reflexivity]. apply Qle_bool_iff, B5 in E. lia. }
    reflexivity.
Qed.

End FreshAlert.

(** X14.  For integer prices and an instrument without any alert in the
    history, the call returns, and what it sends is decided by exact
    percentages: the execution alert (after reading the sell prices) when
    low <= line, the 1% alert when the low is above the line by at most 1%,
    the 3% alert between 1% and 3%, the 5% alert between 3% and 5%; in each
    of these cases the events are exactly that one alert, with the binary64
    distance, followed by the saving of the new history, which records the
    key of the alert and nothing else anew.  Beyond 5% there is no event
    and the history is unchanged. *)
Theorem first_alert_by_exact_percentage
    (ticker stock_name : string) (current_price : Q) (low line : Z)
    (buy_status : string) (b1 b2 b3 : Q) (t : Monitor.tier) (h : Monitor.history) :
  Monitor.active_tier buy_status b1 b2 b3 = Some (t, inject_Z line) ->
  (0 <= low <= 10 ^ 9)%Z -> (1 <= line <= 10 ^ 9)%Z ->
  (forall key, marked h ticker key = false) ->
  exists evs h1 sent,
    Monitor.check_simplified_alert Binary64.fl ticker stock_name current_price
      (inject_Z low) buy_status (Some b1) (Some b2) (Some b3) h
    = Returned (evs, h1, sent) /\
    ((low <= line)%Z ->
     sent = true /\
     evs = [Monitor.ReadSellPrices ticker;
            Monitor.SendRealtimeAlert (Monitor.executed_key t) ticker current_price
              (inject_Z line) (clamped_distance (inject_Z low) (inject_Z line));
            Monitor.SaveAlertHistory h1] /\
     history_marks h h1 ticker (Monitor.executed_key t)) /\
    ((line < low /\ 100 * (low - line) <= 1 * line)%Z ->
     sent = true /\
     evs = [Monitor.SendRealtimeAlert (Monitor.ready1_key t) ticker current_price
              (inject_Z line) (clamped_distance (inject_Z low) (inject_Z line));
            Monitor.SaveAlertHistory h1] /\
     history_marks h h1 ticker (Monitor.ready1_key t)) /\
    ((1 * line < 100 * (low - line) <= 3 * line)%Z ->
     sent = true /\
     evs = [Monitor.SendRealtimeAlert (Monitor.ready3_key t) ticker current_price
              (inject_Z line) (clamped_distance (inject_Z low) (inject_Z line));
            Monitor.SaveAlertHistory h1] /\
     history_marks h h1 ticker (Monitor.ready3_key t)) /\
    ((3 * line < 100 * (low - line) <= 5 * line)%Z ->
     sent = true /\
     evs = [Monitor.SendRealtimeAlert (Monitor.ready5_key t) ticker current_price
              (inject_Z line) (clamped_distance (inject_Z low) (inject_Z line));
            Monitor.SaveAlertHistory h1] /\
     history_marks h h1 ticker (Monitor.ready5_key t)) /\
    ((5 * line < 100 * (low - line))%Z ->
     sent = false /\ h1 = h /\ evs = []).
Proof.
  intros Ht Hl Hn Hfresh.
  rewrite (check_simplified_alert_tier Binary64.fl ticker stock_name current_price
             (inject_Z low) buy_status b1 b2 b3 h t (inject_Z line) Ht).
  rewrite (check_tier_integer_prices t ticker current_price low line h Hl Hn Hfresh).
  destruct (Z.leb_spec low line) as [A|A];
    [|destruct (Z.leb_spec (100 * (low - line)) (1 * line)) as [A1|A1];
      [|destruct (Z.leb_spec (100 * (low - line)) (3 * line)) as [A3|A3];
        [|destruct (Z.leb_spec (100 * (low - line)) (5 * line)) as [A5|A5]]]].
  all: try (match goal with
       | |- context [Monitor.send_and_mark ?h ?tk ?key ?b ?c ?l ?d] =>
           pose proof (marked_send_and_mark h tk key b c l d) as M;
           destruct (Monitor.send_and_mark h tk key b c l d) as [[evs h1] sent] eqn:E;
           unfold Monitor.send_and_mark in E; injection E as E1 E2 E3;
           exists evs, h1, sent; subst sent; cbn [fst snd] in M;
           assert (Hm : history_marks h h1 tk key)
             by (split; [rewrite <- E2; reflexivity | exact M]);
           rewrite E2 in E1; cbn [app] in E1; symmetry in E1
       end).
  all: try (exists [], h, false).
  all: split; [reflexivity|].
  all: repeat split; intros; try lia; try reflexivity; try assumption.
  all: try (destruct Hm as [Hm1 Hm2]; first [exact Hm1 | apply Hm2]).
Qed.

Lemma first_alert_by_exact_percentage_witness :
  Monitor.active_tier "NONE" (inject_Z 12800) 11520 10370
  = Some (Monitor.tier1, inject_Z 12800) /\
  (0 <= 12900 <= 10 ^ 9)%Z /\ (1 <= 12800 <= 10 ^ 9)%Z /\
  (forall key,
     marked {| Monitor.date := "2025-10-14"; Monitor.alerts := Some ∅ |}
       "005930" key = false) /\
  exists h1 : Monitor.history,
    Monitor.check_simplified_alert Binary64.fl "005930" "Samsung" 12950
      (inject_Z 12900) "NONE" (Some (inject_Z 12800)) (Some 11520) (Some 10370)
      {| Monitor.date := "2025-10-14"; Monitor.alerts := Some ∅ |}
    = Returned
        ([Monitor.SendRealtimeAlert "READY_BUY1_1%" "005930" 12950 (inject_Z 12800)
            (clamped_distance (inject_Z 12900) (inject_Z 12800));
          Monitor.SaveAlertHistory h1], h1, true) /\
    history_marks {| Monitor.date := "2025-10-14"; Monitor.alerts := Some ∅ |}
      h1 "005930" "READY_BUY1_1%".
Proof.
  assert (A : Monitor.active_tier "NONE" (inject_Z 12800) 11520 10370
              = Some (Monitor.tier1, inject_Z 12800)) by reflexivity.
  assert (B : (0 <= 12900 <= 10 ^ 9)%Z) by lia.
  assert (C : (1 <= 12800 <= 10 ^ 9)%Z) by lia.
  assert (D : forall key,
            marked {| Monitor.date := "2025-10-14"; Monitor.alerts := Some ∅ |}
              "005930" key = false) by (intros key; apply marked_empty).
  split; [exact A|]. split; [exact B|]. split; [exact C|]. split; [exact D|].
  destruct (first_alert_by_exact_percentage "005930" "Samsung" 12950 12900 12800 "NONE"
              (inject_Z 12800) 11520 10370 Monitor.tier1
              {| Monitor.date := "2025-10-14"; Monitor.alerts := Some ∅ |} A B C D)
    as (evs & h1 & sent & E & _ & K & _).
  destruct (K ltac:(lia)) as (-> & -> & Hm).
  exists h1. split; [exact E | exact Hm].
Defined.

Section IntervalFacts.
Import Binary64.

Lemma raw_distance_mono c c' e :
  0 < e -> c <= c' ->
  fmul fl (fdiv fl (fsub fl c e) e) 100 <= fmul fl (fdiv fl (fsub fl c' e) e) 100.
Proof.
  intros He L. unfold fmul, fdiv, fsub.
  apply fl_mono. apply Qmult_le_compat_r; [|discriminate].
  apply fl_mono. apply Qmult_le_compat_r.
  - apply fl_mono. lra.
  - apply Qlt_le_weak. apply Qinv_lt_0_compat. exact He.
Qed.

Lemma raw_distance_nonpos c e :
  0 < e -> c <= e -> fmul fl (fdiv fl (fsub fl c e) e) 100 <= 0.
Proof.
  intros He L. unfold fmul, fdiv, fsub.
  apply fl_nonpos.
  assert (fl (fl (c - e) / e) <= 0); [|lra].
  apply fl_nonpos.
  assert (fl (c - e) <= 0) by (apply fl_nonpos; lra).
  apply Qle_shift_div_r; [exact He | lra].
Qed.

End IntervalFacts.

(** X15.  For a positive envelope, [calculate_monitoring_interval] is
    monotone in the current price (a price nearer to the envelope is never
    polled less often), and a price at or below the envelope is polled
    every 60 seconds. *)
Theorem monitoring_interval_monotone (current_price current_price' envelope : Q) :
  0 < envelope -> current_price <= current_price' ->
  (Monitor.calculate_monitoring_interval Binary64.fl
     (Some current_price) (Some envelope)
   <= Monitor.calculate_monitoring_interval Binary64.fl
        (Some current_price') (Some envelope))%Z /\
  (current_price <= envelope ->
   Monitor.calculate_monitoring_interval Binary64.fl
     (Some current_price) (Some envelope) = 60%Z).
Proof.
  intros He L.
  unfold Monitor.calculate_monitoring_interval.
  assert (Qeq_bool envelope 0 = false) as ->
    by (apply Qeq_bool_false; intros C; lra).
  pose proof (raw_distance_mono current_price current_price' envelope He L) as M.
  set (d := fmul Binary64.fl (fdiv Binary64.fl (fsub Binary64.fl current_price envelope) envelope) 100) in *.
  set (d' := fmul Binary64.fl (fdiv Binary64.fl (fsub Binary64.fl current_price' envelope) envelope) 100) in *.
  split.
  - destruct (Qle_bool d' 1) eqn:E1'.
    { apply Qle_bool_iff in E1'.
      assert (Qle_bool d 1 = true) as -> by (apply Qle_bool_iff; lra). lia. }
    destruct (Qle_bool d' 3) eqn:E3'.
    { apply Qle_bool_iff in E3'.
      assert (Qle_bool d 3 = true) as E3 by (apply Qle_bool_iff; lra).
      rewrite E3. destruct (Qle_bool d 1); lia. }
    destruct (Qle_bool d' 10) eqn:E10'.
    { apply Qle_bool_iff in E10'.
      assert (Qle_bool d 10 = true) as E10 by (apply Qle_bool_iff; lra).
      rewrite E10. destruct (Qle_bool d 1); [lia|]. destruct (Qle_bool d 3); lia. }
    destruct (Qle_bool d 1); [lia|]. destruct (Qle_bool d 3); [lia|].
    destruct (Qle_bool d 10); lia.
  - intros Le.
    pose proof (raw_distance_nonpos current_price envelope He Le) as N. fold d in N.
    assert (Qle_bool d 1 = true) as -> by (apply Qle_bool_iff; lra). reflexivity.
Qed.

Lemma monitoring_interval_monotone_witness :
  0 < 62200 /\ 62500 <= 70000 /\
  (Monitor.calculate_monitoring_interval Binary64.fl (Some 62500%Q) (Some 62200%Q)
   <= Monitor.calculate_monitoring_interval Binary64.fl (Some 70000%Q) (Some 62200%Q))%Z /\
  (62500 <= 62200 ->
   Monitor.calculate_monitoring_interval Binary64.fl (Some 62500%Q) (Some 62200%Q) = 60%Z).
Proof.
  assert (A : 0 < 62200) by reflexivity.
  assert (B : 62500 <= 70000) by discriminate.
  split; [exact A|]. split; [exact B|].
  exact (monitoring_interval_monotone 62500 70000 62200 A B).
Defined.

Section RetouchFacts.
Import Binary64.

Lemma one_percent_float : 0 < fl (1 # 100).
Proof. apply Qlt_alt. vm_compute. reflexivity. Qed.

Lemma Qabs_inject_Z (k : Z) : Qabs (inject_Z k) == inject_Z (Z.abs k).
Proof.
  destruct (Z_le_gt_dec 0 k) as [H|H].
  - rewrite Z.abs_eq by exact H. apply Qabs_pos. apply inject_Z_nonneg. exact H.
  - rewrite Z.abs_neq by lia. rewrite inject_Z_opp. apply Qabs_neg.
    change 0 with (inject_Z 0). rewrite <- Zle_Qle. lia.
Qed.

(** The 1% test of [check_sell_retouch] on integer prices. *)
Lemma retouch_ratio_exact (close avg : Z) :
  (0 <= close <= 10 ^ 9)%Z -> (1 <= avg <= 10 ^ 9)%Z ->
  Qltb (fdiv fl (Qabs (fsub fl (inject_Z close) (inject_Z avg))) (inject_Z avg))
       (fl (1 # 100))
  = (100 * Z.abs (close - avg) <? avg)%Z.
Proof.
  intros Hc Ha.
  assert (Pa : 0 < inject_Z avg) by (apply inject_Z_pos; lia).
  assert (Ua : inject_Z avg <= 1000000000).
  { change 1000000000 with (inject_Z (10 ^ 9)). rewrite <- Zle_Qle. lia. }
  set (k := Z.abs (close - avg)).
  assert (Hk : (0 <= k)%Z) by (unfold k; lia).
  assert (E : fdiv fl (Qabs (fsub fl (inject_Z close) (inject_Z avg))) (inject_Z avg)
              == fl (inject_Z k / inject_Z avg)).
  { unfold fdiv, fsub. apply fl_comp. apply Qdiv_comp; [|reflexivity].
    rewrite <- inject_Z_minus, (fl_Z_exact (close - avg)) by lia.
    apply Qabs_inject_Z. }
  assert (Pk : 0 <= inject_Z k) by (apply inject_Z_nonneg; exact Hk).
  destruct (Z.ltb_spec (100 * k) avg) as [A|A].
  - apply Qltb_true. rewrite E.
    assert (B : (100 * k + 1 <= avg)%Z) by lia.
    rewrite Zle_Qle, inject_Z_plus, inject_Z_mult in B.
    change (inject_Z 100) with 100 in B. change (inject_Z 1) with 1 in B.
    set (f := inject_Z 10995116277 * pow2 (-40)).
    assert (Ff : is_float f) by (apply is_float_dyadic; lia).
    assert (Lf : (1 # 100) - (1 # 100000000000) <= f)
      by (apply Qle_bool_iff; vm_compute; reflexivity).
    assert (Gf : f < fl (1 # 100)) by (apply Qlt_alt; vm_compute; reflexivity).
    assert (R : inject_Z k / inject_Z avg <= f).
    { apply Qle_shift_div_r; [exact Pa|].
      assert (((1 # 100) - (1 # 100000000000)) * inject_Z avg <= f * inject_Z avg)
        by (apply Qmult_le_compat_r; lra).
      assert ((1 # 100000000000) * inject_Z avg <= 1 # 100) by lra.
      lra. }
    destruct (Qeq_dec (inject_Z k / inject_Z avg) 0) as [Z0|NZ].
    + rewrite (fl_comp _ _ Z0), fl_0. exact one_percent_float.
    + assert (0 < inject_Z k / inject_Z avg).
      { assert (0 <= inject_Z k / inject_Z avg) by (apply Qle_shift_div_l; lra).
        destruct (Qlt_le_dec 0 (inject_Z k / inject_Z avg)) as [l|l]; [exact l|].
        exfalso. apply NZ. lra. }
      eapply Qle_lt_trans; [apply fl_le_repr; [assumption | exact R | exact Ff]|exact Gf].
  - apply Qltb_false. rewrite E. apply fl_mono.
    apply Qle_shift_div_l; [exact Pa|].
    rewrite Zle_Qle, inject_Z_mult in A. change (inject_Z 100) with 100 in A. lra.
Qed.

End RetouchFacts.

(** X16.  For an integer close from 0 to 10^9 and an integer average
    entry price from 1 to 10^9, [check_sell_retouch] returns true exactly
    when the highest price reached is at or above the sell line and the
    close is strictly within 1% of the average entry price, in exact
    arithmetic: 100 * |close - avg| < avg. *)
Theorem sell_retouch_by_exact_percentage
    (high sell_line max_high : Q) (close avg : Z) :
  (0 <= close <= 10 ^ 9)%Z -> (1 <= avg <= 10 ^ 9)%Z ->
  Signal.check_sell_retouch Binary64.fl (Some high) (Some (inject_Z close))
    (Some sell_line) (Some max_high) (Some (inject_Z avg))
  = Returned (Qle_bool sell_line max_high
              && (100 * Z.abs (close - avg) <? avg)%Z).
Proof.
  intros Hc Ha. unfold Signal.check_sell_retouch.
  destruct (Qle_bool sell_line max_high); [|reflexivity].
  assert (Qeq_bool (inject_Z avg) 0 = false) as ->.
  { apply Qeq_bool_false. intros C.
    assert (0 < inject_Z avg) by (apply inject_Z_pos; lia). lra. }
  rewrite (retouch_ratio_exact close avg Hc Ha).
  destruct (100 * Z.abs (close - avg) <? avg)%Z; reflexivity.
Qed.

Lemma sell_retouch_by_exact_percentage_witness :
  (0 <= 69500 <= 10 ^ 9)%Z /\ (1 <= 69000 <= 10 ^ 9)%Z /\
  Signal.check_sell_retouch Binary64.fl (Some 72000) (Some (inject_Z 69500))
    (Some 71070) (Some 71500) (Some (inject_Z 69000))
  = Returned (Qle_bool 71070 71500
              && (100 * Z.abs (69500 - 69000) <? 69000)%Z).
Proof.
  assert (A : (0 <= 69500 <= 10 ^ 9)%Z) by lia.
  assert (B : (1 <= 69000 <= 10 ^ 9)%Z) by lia.
  split; [exact A|]. split; [exact B|].
  exact (sell_retouch_by_exact_percentage 72000 71070 71500 69500 69000 A B).
Defined.

(** ** The alert status *)

Section AlertStatusFacts.
Import Signal.
Variable format_1f : Q -> string.

Lemma with_distance_returned status before dist after s m :
  with_distance format_1f status before dist after = Returned (s, m) ->
  s = status /\ exists d, dist = Some d.
Proof.
  unfold with_distance. destruct dist as [d|]; [|discriminate].
  intros E. apply Returned_inj in E. injection E as <- _. split; [reflexivity|].
  exists d. reflexivity.
Qed.

Lemma with_distance_raised status before dist after e :
  with_distance format_1f status before dist after = Raised e <->
  e = "TypeError" /\ dist = None.
Proof.
  unfold with_distance. destruct dist as [d|]; split.
  - discriminate.
  - intros [_ C]. discriminate.
  - intros E. injection E as <-. split; reflexivity.
  - intros [-> _]. reflexivity.
Qed.

Lemma approaching_spec dist threshold :
  approaching dist threshold = true <->
  exists d, dist = Some d /\ 0 < d /\ d <= threshold.
Proof.
  unfold approaching. destruct dist as [d|]; split.
  - intros H. apply andb_true_iff in H. destruct H as [A B].
    apply Qltb_true in A. apply Qle_bool_iff in B. exists d. auto.
  - intros (d' & E & A & B). injection E as <-.
    apply andb_true_iff. split; [apply Qltb_true | apply Qle_bool_iff]; assumption.
  - discriminate.
  - intros (d' & E & _). discriminate.
Qed.

Lemma near_sell_spec dist :
  near_sell dist = true <-> exists d, dist = Some d /\ Qabs d <= 3.
Proof.
  unfold near_sell, SELL_ALERT_THRESHOLD. destruct dist as [d|]; split.
  - intros H. apply Qle_bool_iff in H. exists d. auto.
  - intros (d' & E & A). injection E as <-. apply Qle_bool_iff. exact A.
  - discriminate.
  - intros (d' & E & _). discriminate.
Qed.

Lemma near_sell_false dist :
  near_sell dist = false <-> forall d, dist = Some d -> 3 < Qabs d.
Proof.
  unfold near_sell, SELL_ALERT_THRESHOLD. destruct dist as [d|]; split.
  - intros H d' E. injection E as <-. apply Qle_bool_false. exact H.
  - intros H. apply Qle_bool_false. apply H. reflexivity.
  - intros _ d' E. discriminate.
  - reflexivity.
Qed.

End AlertStatusFacts.

Ltac alert_status_cases :=
  unfold Signal.determine_alert_status;
  repeat match goal with
         | |- context [String.eqb ?a ?b] => destruct (String.eqb_spec a b)
         end.

Ltac unfold_statuses :=
  unfold Signal.BuyStatus.SOLD, Signal.BuyStatus.NONE, Signal.BuyStatus.BOUGHT_1,
    Signal.BuyStatus.BOUGHT_2, Signal.BuyStatus.BOUGHT_3,
    Signal.AlertStatus.COMPLETED, Signal.AlertStatus.READY_BUY1,
    Signal.AlertStatus.READY_BUY2, Signal.AlertStatus.READY_BUY3,
    Signal.AlertStatus.READY_SELL1, Signal.AlertStatus.READY_SELL2,
    Signal.AlertStatus.READY_SELL3, Signal.AlertStatus.WATCHING,
    Signal.AlertStatus.WAITING in *.

Section AlertStatusCases.
Variable format_1f : Q -> string.

Lemma alert_status_returned buy_status close buy1 buy2 buy3 sell1 sell2 sell3
    dist_buy1 dist_buy2 dist_buy3 dist_sell1 dist_sell2 dist_sell3 threshold
    status message :
  Signal.determine_alert_status format_1f buy_status close buy1 buy2 buy3
    sell1 sell2 sell3 dist_buy1 dist_buy2 dist_buy3
    dist_sell1 dist_sell2 dist_sell3 threshold = Returned (status, message) ->
  (status = "COMPLETED" <-> buy_status = "SOLD") /\
  (status = "READY_BUY1" ->
   buy_status = "NONE" /\ Signal.approaching dist_buy1 threshold = true) /\
  (status = "READY_BUY2" ->
   buy_status = "BOUGHT_1" /\ Signal.approaching dist_buy2 threshold = true /\
   Signal.near_sell dist_sell1 = false) /\
  (status = "READY_BUY3" ->
   buy_status = "BOUGHT_2" /\ Signal.approaching dist_buy3 threshold = true /\
   Signal.near_sell dist_sell1 = false /\ Signal.near_sell dist_sell2 = false) /\
  (status = "READY_SELL1" ->
   (buy_status = "BOUGHT_1" \/ buy_status = "BOUGHT_2" \/ buy_status = "BOUGHT_3") /\
   Signal.near_sell dist_sell1 = true) /\
  (status = "READY_SELL2" ->
   (buy_status = "BOUGHT_2" \/ buy_status = "BOUGHT_3") /\
   Signal.near_sell dist_sell2 = true) /\
  (status = "READY_SELL3" ->
   buy_status = "BOUGHT_3" /\ Signal.near_sell dist_sell3 = true).
Proof.
  alert_status_cases; subst;
    repeat match goal with
           | |- context [if ?c then _ else _] => destruct c eqn:?
           end;
    intros E;
    try (apply with_distance_returned in E; destruct E as [-> _]);
    try (apply Returned_inj in E; injection E as <- <-);
    unfold_statuses;
    repeat split; intros; try discriminate; try congruence; auto.
Qed.

Lemma alert_status_raised buy_status close buy1 buy2 buy3 sell1 sell2 sell3
    dist_buy1 dist_buy2 dist_buy3 dist_sell1 dist_sell2 dist_sell3 threshold e :
  Signal.determine_alert_status format_1f buy_status close buy1 buy2 buy3
    sell1 sell2 sell3 dist_buy1 dist_buy2 dist_buy3
    dist_sell1 dist_sell2 dist_sell3 threshold = Raised e <->
  e = "TypeError" /\
  ((buy_status = "NONE" /\ dist_buy1 = None) \/
   (buy_status = "BOUGHT_1" /\ Signal.near_sell dist_sell1 = false /\
    dist_buy2 = None) \/
   (buy_status = "BOUGHT_2" /\ Signal.near_sell dist_sell2 = false /\
    Signal.near_sell dist_sell1 = false /\ dist_buy3 = None)).
Proof.
  alert_status_cases; subst; unfold_statuses;
    repeat match goal with
           | |- context [if ?c then _ else _] => destruct c eqn:?
           end;
    rewrite ?with_distance_raised;
    repeat match goal with
           | H : Signal.near_sell ?d = true |- _ =>
               let x := fresh "x" in
               apply near_sell_spec in H; destruct H as (x & -> & _)
           | H : Signal.approaching ?d _ = true |- _ =>
               let x := fresh "x" in
               apply approaching_spec in H; destruct H as (x & -> & _)
           end;
    cbn [option_map];
    (split;
     [ intros H; try discriminate H; try (destruct H as [-> H]; try discriminate H);
       try (split; [reflexivity|]); auto 10
     | intros [-> H];
       repeat match goal with
              | H : _ \/ _ |- _ => destruct H
              | H : _ /\ _ |- _ => destruct H
              end;
       subst; try discriminate; try congruence; auto ]).
Qed.

End AlertStatusCases.

(** X17.  Whatever the formatting of numbers: when
    [determine_alert_status] returns, the status fits the position.
    COMPLETED is returned exactly for a sold position; READY_BUYk only for
    the position just before tranche k, with the distance to line k
    present, positive and within the threshold, and no sell line of the
    held tranches within 3%; READY_SELLk only for a position holding at
    least k tranches, with the distance to sell line k present and within
    3% in absolute value. *)
Theorem alert_status_matches_position
    (format_1f : Q -> string) (buy_status : string) (close : Q)
    (buy1 buy2 buy3 sell1 sell2 sell3 : option Q)
    (dist_buy1 dist_buy2 dist_buy3 dist_sell1 dist_sell2 dist_sell3 : option Q)
    (threshold : Q) (status message : string) :
  Signal.determine_alert_status format_1f buy_status close buy1 buy2 buy3
    sell1 sell2 sell3 dist_buy1 dist_buy2 dist_buy3
    dist_sell1 dist_sell2 dist_sell3 threshold = Returned (status, message) ->
  (status = "COMPLETED" <-> buy_status = "SOLD") /\
  (status = "READY_BUY1" ->
   buy_status = "NONE" /\
   exists d, dist_buy1 = Some d /\ 0 < d /\ d <= threshold) /\
  (status = "READY_BUY2" ->
   buy_status = "BOUGHT_1" /\
   (exists d, dist_buy2 = Some d /\ 0 < d /\ d <= threshold) /\
   (forall d, dist_sell1 = Some d -> 3 < Qabs d)) /\
  (status = "READY_BUY3" ->
   buy_status = "BOUGHT_2" /\
   (exists d, dist_buy3 = Some d /\ 0 < d /\ d <= threshold) /\
   (forall d, dist_sell1 = Some d -> 3 < Qabs d) /\
   (forall d, dist_sell2 = Some d -> 3 < Qabs d)) /\
  (status = "READY_SELL1" ->
   (buy_status = "BOUGHT_1" \/ buy_status = "BOUGHT_2" \/ buy_status = "BOUGHT_3") /\
   exists d, dist_sell1 = Some d /\ Qabs d <= 3) /\
  (status = "READY_SELL2" ->
   (buy_status = "BOUGHT_2" \/ buy_status = "BOUGHT_3") /\
   exists d, dist_sell2 = Some d /\ Qabs d <= 3) /\
  (status = "READY_SELL3" ->
   buy_status = "BOUGHT_3" /\ exists d, dist_sell3 = Some d /\ Qabs d <= 3).
Proof.
  intros E.
  destruct (alert_status_returned format_1f _ _ _ _ _ _ _ _ _ _ _ _ _ _ _ _ _ E)
    as (A & B1 & B2 & B3 & S1 & S2 & S3).
  split; [exact A|].
  split; [intros H; destruct (B1 H) as (? & ?); split;
          [assumption | apply approaching_spec; assumption]|].
  split; [intros H; destruct (B2 H) as (? & ? & ?); split; [assumption|]; split;
          [apply approaching_spec; assumption | apply near_sell_false; assumption]|].
  split; [intros H; destruct (B3 H) as (? & ? & ? & ?); split; [assumption|]; split;
          [apply approaching_spec; assumption|];
          split; apply near_sell_false; assumption|].
  split; [intros H; destruct (S1 H) as (? & ?); split;
          [assumption | apply near_sell_spec; assumption]|].
  split; [intros H; destruct (S2 H) as (? & ?); split;
          [assumption | apply near_sell_spec; assumption]|].
  intros H; destruct (S3 H) as (? & ?); split;
    [assumption | apply near_sell_spec; assumption].
Qed.

Lemma alert_status_matches_position_witness :
  Signal.determine_alert_status (fun _ => "2.0") "BOUGHT_1" 10100
    (Some 10000) (Some 9010) (Some 8110) (Some 10300) (Some 10500) (Some 10700)
    (Some 1) (Some 12) (Some 24) (Some (-2)) (Some (-4)) (Some (-6)) 10
  = Returned ("READY_SELL1", "+3% 매도선까지 2.0%") /\
  ("READY_SELL1" = "READY_SELL1" ->
   ("BOUGHT_1" = "BOUGHT_1" \/ "BOUGHT_1" = "BOUGHT_2" \/ "BOUGHT_1" = "BOUGHT_3") /\
   exists d, Some (-2) = Some d /\ Qabs d <= 3).
Proof.
  assert (E : Signal.determine_alert_status (fun _ => "2.0") "BOUGHT_1" 10100
    (Some 10000) (Some 9010) (Some 8110) (Some 10300) (Some 10500) (Some 10700)
    (Some 1) (Some 12) (Some 24) (Some (-2)) (Some (-4)) (Some (-6)) 10
  = Returned ("READY_SELL1", "+3% 매도선까지 2.0%")) by reflexivity.
  split; [exact E|].
  exact (proj1 (proj2 (proj2 (proj2 (proj2
    (alert_status_matches_position _ _ _ _ _ _ _ _ _ _ _ _ _ _ _ _ _ _ E)))))).
Defined.

(** X18.  [determine_alert_status] raises exactly when the message it
    is about to format needs a distance that is [None]: with no position
    and no distance to the first line; after the first tranche, with no
    sell line within 3% and no distance to the second line; after the
    second tranche, likewise for the third line.  The exception is a
    [TypeError]; a sold position, a full position and an unknown status
    never raise. *)
Theorem alert_status_raises_on_missing_distance
    (format_1f : Q -> string) (buy_status : string) (close : Q)
    (buy1 buy2 buy3 sell1 sell2 sell3 : option Q)
    (dist_buy1 dist_buy2 dist_buy3 dist_sell1 dist_sell2 dist_sell3 : option Q)
    (threshold : Q) (e : string) :
  Signal.determine_alert_status format_1f buy_status close buy1 buy2 buy3
    sell1 sell2 sell3 dist_buy1 dist_buy2 dist_buy3
    dist_sell1 dist_sell2 dist_sell3 threshold = Raised e <->
  e = "TypeError" /\
  ((buy_status = "NONE" /\ dist_buy1 = None) \/
   (buy_status = "BOUGHT_1" /\ (forall d, dist_sell1 = Some d -> 3 < Qabs d) /\
    dist_buy2 = None) \/
   (buy_status = "BOUGHT_2" /\ (forall d, dist_sell2 = Some d -> 3 < Qabs d) /\
    (forall d, dist_sell1 = Some d -> 3 < Qabs d) /\ dist_buy3 = None)).
Proof.
  rewrite alert_status_raised, !near_sell_false. reflexivity.
Qed.

(** X19.  For an instrument without a position, an integer close and an
    integer first buy line (up to 10^9) and the default threshold of 10%,
    [calculate_distance_pct] followed by [determine_alert_status] reports
    READY_BUY1 exactly when the close is strictly above the line by at most
    10% in exact arithmetic, and WATCHING otherwise. *)
Theorem ready_buy1_by_exact_percentage
    (format_1f : Q -> string) (close line : Z)
    (buy2 buy3 sell1 sell2 sell3 : option Q)
    (dist_buy2 dist_buy3 dist_sell1 dist_sell2 dist_sell3 : option Q) :
  (0 <= close <= 10 ^ 9)%Z -> (1 <= line <= 10 ^ 9)%Z ->
  exists message : string,
    Signal.determine_alert_status format_1f "NONE" (inject_Z close)
      (Some (inject_Z line)) buy2 buy3 sell1 sell2 sell3
      (Signal.calculate_distance_pct Binary64.fl
         (Some (inject_Z close)) (Some (inject_Z line)))
      dist_buy2 dist_buy3 dist_sell1 dist_sell2 dist_sell3 10
    = Returned
        (if ((line <? close) && (100 * (close - line) <=? 10 * line))%Z
         then "READY_BUY1" else "WATCHING",
         message).
Proof.
  intros Hc Hn.
  rewrite distance_pct_unfold.
  assert (Qeq_bool (inject_Z line) 0 = false) as ->.
  { apply Qeq_bool_false. intros C.
    assert (0 < inject_Z line) by (apply inject_Z_pos; lia). lra. }
  unfold Signal.determine_alert_status.
  cbn [String.eqb Ascii.eqb Bool.eqb Signal.BuyStatus.SOLD Signal.BuyStatus.NONE].
  unfold Signal.approaching, Signal.with_distance.
  destruct (clamped_distance_sign close line Hc Hn) as [_ S1].
  pose proof (clamped_distance_band 10 109951162779 close line
                ltac:(simpl; tauto) Hc Hn) as B.
  change (inject_Z 10) with 10 in B.
  set (d := clamped_distance (inject_Z close) (inject_Z line)) in *.
  destruct (Z.ltb_spec line close) as [A|A].
  - assert (Qltb 0 d = true) as -> by (apply Qltb_true, S1; exact A).
    destruct (Z.leb_spec (100 * (close - line)) (10 * line)) as [A1|A1].
    + assert (Qle_bool d 10 = true) as -> by (apply Qle_bool_iff, B; exact A1).
      eexists. reflexivity.
    + assert (Qle_bool d 10 = false) as ->.
      { destruct (Qle_bool d 10) eqn:E; [|reflexivity]. apply Qle_bool_iff, B in E. lia. }
      eexists. reflexivity.
  - assert (Qltb 0 d = false) as ->.
    { destruct (Qltb 0 d) eqn:E; [|reflexivity]. apply Qltb_true, S1 in E. lia. }
    eexists. reflexivity.
Qed.

Lemma ready_buy1_by_exact_percentage_witness :
  (0 <= 75000 <= 10 ^ 9)%Z /\ (1 <= 69000 <= 10 ^ 9)%Z /\
  exists message : string,
    Signal.determine_alert_status (fun _ => "8.7") "NONE" (inject_Z 75000)
      (Some (inject_Z 69000)) None None None None None
      (Signal.calculate_distance_pct Binary64.fl
         (Some (inject_Z 75000)) (Some (inject_Z 69000)))
      None None None None None 10
    = Returned
        (if ((69000 <? 75000) && (100 * (75000 - 69000) <=? 10 * 69000))%Z
         then "READY_BUY1" else "WATCHING",
         message).
Proof.
  assert (A : (0 <= 75000 <= 10 ^ 9)%Z) by lia.
  assert (B : (1 <= 69000 <= 10 ^ 9)%Z) by lia.
  split; [exact A|]. split; [exact B|].
  exact (ready_buy1_by_exact_percentage (fun _ => "8.7") 75000 69000
           None None None None None None None None None None A B).
Defined.

(** ** trading_day_utils.py *)

Section TradingDayFacts.
Import TradingDay.
Variable kr_holidays : Z -> bool.

Lemma add_days_returned d n :
  (MINORDINAL <= d + n <= MAXORDINAL)%Z -> add_days d n = Returned (d + n)%Z.
Proof.
  intros H. unfold add_days.
  destruct (Z.ltb_spec (d + n) MINORDINAL); [lia|].
  destruct (Z.ltb_spec MAXORDINAL (d + n)); [lia|]. reflexivity.
Qed.

Lemma add_days_raised d n :
  (d + n < MINORDINAL \/ MAXORDINAL < d + n)%Z -> add_days d n = Raised "OverflowError".
Proof.
  intros H. unfold add_days.
  destruct (Z.ltb_spec (d + n) MINORDINAL); [reflexivity|].
  destruct (Z.ltb_spec MAXORDINAL (d + n)); [reflexivity|lia].
Qed.

Lemma previous_loop_spec (fuel : nat) (start prev : Z) :
  (9 <= start <= MAXORDINAL)%Z -> (start - 7 <= prev <= start)%Z ->
  (prev - (start - 8) <= Z.of_nat fuel)%Z ->
  (forall d, (prev < d <= start)%Z -> is_trading_day kr_holidays d = false) ->
  exists r,
    previous_trading_day_loop kr_holidays fuel start prev = Returned r /\
    ((is_trading_day kr_holidays r = true /\ (start - 7 <= r <= start)%Z /\
      forall d, (r < d <= start)%Z -> is_trading_day kr_holidays d = false) \/
     (r = start /\ forall d, (start - 7 <= d <= start)%Z -> is_trading_day kr_holidays d = false)).
Proof.
  intros Hs. revert prev. induction fuel as [|fuel IH]; intros prev Hp Hf Hno.
  - simpl in Hf. lia.
  - cbn [previous_trading_day_loop].
    destruct (is_trading_day kr_holidays prev) eqn:T.
    + exists prev. split; [reflexivity|]. left. auto.
    + rewrite add_days_returned by (unfold MINORDINAL, MAXORDINAL in *; lia).
      assert (Hno' : forall d, (prev + -1 < d <= start)%Z -> is_trading_day kr_holidays d = false).
      { intros d Hd. destruct (Z.eq_dec d prev) as [->|N]; [exact T|]. apply Hno. lia. }
      destruct (Z.ltb_spec 7 (start - (prev + -1))) as [L|L].
      * exists start. split; [reflexivity|]. right. split; [reflexivity|].
        intros d Hd. apply Hno'. lia.
      * apply IH; [lia | lia | exact Hno'].
Qed.

Lemma next_loop_spec (fuel : nat) (cur t : Z) :
  (MINORDINAL <= cur)%Z -> (cur < t <= MAXORDINAL)%Z -> is_trading_day kr_holidays t = true ->
  (forall d, (cur < d < t)%Z -> is_trading_day kr_holidays d = false) ->
  (t - cur <= Z.of_nat fuel)%Z ->
  next_trading_day_loop kr_holidays fuel cur = Returned t.
Proof.
  revert cur. induction fuel as [|fuel IH]; intros cur Hc Ht T Hno Hf.
  - simpl in Hf. lia.
  - cbn [next_trading_day_loop].
    rewrite add_days_returned by (unfold MINORDINAL in *; lia).
    destruct (Z.eq_dec (cur + 1)%Z t) as [E|N].
    + rewrite E, T. reflexivity.
    + rewrite (Hno (cur + 1)%Z) by lia.
      apply IH; [unfold MINORDINAL in *; lia | lia | exact T | | lia].
      intros d Hd. apply Hno. lia.
Qed.

Lemma next_loop_overflow (fuel : nat) (cur : Z) :
  (MINORDINAL <= cur <= MAXORDINAL)%Z ->
  (forall d, (cur < d <= MAXORDINAL)%Z -> is_trading_day kr_holidays d = false) ->
  (MAXORDINAL - cur < Z.of_nat fuel)%Z ->
  next_trading_day_loop kr_holidays fuel cur = Raised "OverflowError".
Proof.
  revert cur. induction fuel as [|fuel IH]; intros cur Hc Hno Hf.
  - simpl in Hf. lia.
  - cbn [next_trading_day_loop].
    destruct (Z.eq_dec cur MAXORDINAL) as [E|N].
    + rewrite add_days_raised by lia. reflexivity.
    + rewrite add_days_returned by (unfold MINORDINAL in *; lia).
      rewrite (Hno (cur + 1)%Z) by lia.
      apply IH; [unfold MINORDINAL in *; lia | | lia].
      intros d Hd. apply Hno. lia.
Qed.

(** Among the dates after [cur] there is a first trading day, or none. *)
Lemma first_trading_day_after (n : nat) (cur : Z) :
  (exists t, (cur < t <= cur + Z.of_nat n)%Z /\ is_trading_day kr_holidays t = true /\
             forall d, (cur < d < t)%Z -> is_trading_day kr_holidays d = false) \/
  (forall d, (cur < d <= cur + Z.of_nat n)%Z -> is_trading_day kr_holidays d = false).
Proof.
  induction n as [|n IH].
  - right. intros d Hd. lia.
  - destruct IH as [(t & Ht & T & Hno)|Hno].
    + left. exists t. split; [lia|]. auto.
    + destruct (is_trading_day kr_holidays (cur + Z.of_nat (S n))) eqn:T.
      * left. exists (cur + Z.of_nat (S n))%Z. split; [lia|]. split; [exact T|].
        intros d Hd. apply Hno. lia.
      * right. intros d Hd.
        destruct (Z.eq_dec d (cur + Z.of_nat (S n))%Z) as [->|N]; [exact T|].
        apply Hno. lia.
Qed.

End TradingDayFacts.

(** X20.  Whatever the holiday calendar, for a start date from
    0001-01-09 on and a budget of 8 passes, [get_previous_trading_day]
    returns: either the most recent trading day among the start date and
    the 7 days before it, or, when none of these 8 days is a trading day,
    the start date itself (which is then not a trading day). *)
Theorem previous_trading_day_within_a_week
    (kr_holidays : Z -> bool) (fuel : nat) (start_date : Z) :
  (9 <= start_date <= TradingDay.MAXORDINAL)%Z -> (8 <= fuel)%nat ->
  exists r : Z,
    TradingDay.get_previous_trading_day kr_holidays fuel start_date = Returned r /\
    ((TradingDay.is_trading_day kr_holidays r = true /\
      (start_date - 7 <= r <= start_date)%Z /\
      forall d, (r < d <= start_date)%Z ->
                TradingDay.is_trading_day kr_holidays d = false) \/
     (r = start_date /\
      forall d, (start_date - 7 <= d <= start_date)%Z ->
                TradingDay.is_trading_day kr_holidays d = false)).
Proof.
  intros Hs Hf. unfold TradingDay.get_previous_trading_day.
  apply previous_loop_spec; [exact Hs | lia | lia |].
  intros d Hd. lia.
Qed.

Lemma previous_trading_day_within_a_week_witness :
  (9 <= 739193 <= TradingDay.MAXORDINAL)%Z /\ (8 <= 8)%nat /\
  exists r : Z,
    TradingDay.get_previous_trading_day (fun _ => false) 8 739193 = Returned r /\
    ((TradingDay.is_trading_day (fun _ => false) r = true /\
      (739193 - 7 <= r <= 739193)%Z /\
      forall d, (r < d <= 739193)%Z ->
                TradingDay.is_trading_day (fun _ => false) d = false) \/
     (r = 739193%Z /\
      forall d, (739193 - 7 <= d <= 739193)%Z ->
                TradingDay.is_trading_day (fun _ => false) d = false)).
Proof.
  assert (A : (9 <= 739193 <= TradingDay.MAXORDINAL)%Z) by (unfold TradingDay.MAXORDINAL; lia).
  assert (B : (8 <= 8)%nat) by lia.
  split; [exact A|]. split; [exact B|].
  exact (previous_trading_day_within_a_week (fun _ => false) 8 739193 A B).
Defined.

(** X21.  Whatever the holiday calendar, if t is the first trading day
    strictly after the start date, [get_next_trading_day] returns t within
    t - start passes; the start date itself is never returned. *)
Theorem next_trading_day_is_first_after
    (kr_holidays : Z -> bool) (fuel : nat) (start_date t : Z) :
  (TradingDay.MINORDINAL <= start_date)%Z ->
  (start_date < t <= TradingDay.MAXORDINAL)%Z ->
  TradingDay.is_trading_day kr_holidays t = true ->
  (forall d, (start_date < d < t)%Z ->
             TradingDay.is_trading_day kr_holidays d = false) ->
  (t - start_date <= Z.of_nat fuel)%Z ->
  TradingDay.get_next_trading_day kr_holidays fuel start_date = Returned t.
Proof.
  intros. apply next_loop_spec; assumption.
Qed.

Lemma next_trading_day_is_first_after_witness :
  (TradingDay.MINORDINAL <= 739191)%Z /\
  (739191 < 739194 <= TradingDay.MAXORDINAL)%Z /\
  TradingDay.is_trading_day (fun _ => false) 739194 = true /\
  (forall d, (739191 < d < 739194)%Z ->
             TradingDay.is_trading_day (fun _ => false) d = false) /\
  (739194 - 739191 <= Z.of_nat 3)%Z /\
  TradingDay.get_next_trading_day (fun _ => false) 3 739191 = Returned 739194%Z.
Proof.
  assert (A : (TradingDay.MINORDINAL <= 739191)%Z) by (unfold TradingDay.MINORDINAL; lia).
  assert (B : (739191 < 739194 <= TradingDay.MAXORDINAL)%Z)
    by (unfold TradingDay.MAXORDINAL; lia).
  assert (C : TradingDay.is_trading_day (fun _ => false) 739194 = true) by reflexivity.
  assert (D : forall d, (739191 < d < 739194)%Z ->
                        TradingDay.is_trading_day (fun _ => false) d = false).
  { intros d Hd. assert (d = 739192 \/ d = 739193)%Z as [-> | ->] by lia; reflexivity. }
  assert (E : (739194 - 739191 <= Z.of_nat 3)%Z) by (simpl; lia).
  split; [exact A|]. split; [exact B|]. split; [exact C|]. split; [exact D|].
  split; [exact E|].
  exact (next_trading_day_is_first_after (fun _ => false) 3 739191 739194 A B C D E).
Defined.

(** X22.  The unbounded loop of [get_next_trading_day] always ends: with
    a budget of more passes than there are dates after the start date, it
    returns the first trading day strictly after the start date, or raises
    [OverflowError] when no date up to 9999-12-31 is a trading day. *)
Theorem next_trading_day_terminates
    (kr_holidays : Z -> bool) (fuel : nat) (start_date : Z) :
  (TradingDay.MINORDINAL <= start_date <= TradingDay.MAXORDINAL)%Z ->
  (TradingDay.MAXORDINAL - start_date < Z.of_nat fuel)%Z ->
  (exists t : Z,
     TradingDay.get_next_trading_day kr_holidays fuel start_date = Returned t /\
     (start_date < t <= TradingDay.MAXORDINAL)%Z /\
     TradingDay.is_trading_day kr_holidays t = true /\
     forall d, (start_date < d < t)%Z ->
               TradingDay.is_trading_day kr_holidays d = false) \/
  (TradingDay.get_next_trading_day kr_holidays fuel start_date
   = Raised "OverflowError" /\
   forall d, (start_date < d <= TradingDay.MAXORDINAL)%Z ->
             TradingDay.is_trading_day kr_holidays d = false).
Proof.
  intros Hs Hf.
  destruct (first_trading_day_after kr_holidays
              (Z.to_nat (TradingDay.MAXORDINAL - start_date)) start_date)
    as [(t & Ht & T & Hno)|Hno].
  - left. exists t. rewrite Z2Nat.id in Ht by lia.
    split; [|split; [lia|split; [exact T|exact Hno]]].
    apply next_loop_spec; try assumption; lia.
  - right. rewrite Z2Nat.id in Hno by lia.
    assert (Hno' : forall d, (start_date < d <= TradingDay.MAXORDINAL)%Z ->
                             TradingDay.is_trading_day kr_holidays d = false).
    { intros d Hd. apply Hno. lia. }
    split; [|exact Hno'].
    apply next_loop_overflow; assumption.
Qed.

Lemma next_trading_day_terminates_witness :
  (TradingDay.MINORDINAL <= 3652057 <= TradingDay.MAXORDINAL)%Z /\
  (TradingDay.MAXORDINAL - 3652057 < Z.of_nat 3)%Z /\
  ((exists t : Z,
      TradingDay.get_next_trading_day (fun _ => false) 3 3652057 = Returned t /\
      (3652057 < t <= TradingDay.MAXORDINAL)%Z /\
      TradingDay.is_trading_day (fun _ => false) t = true /\
      forall d, (3652057 < d < t)%Z ->
                TradingDay.is_trading_day (fun _ => false) d = false) \/
   (TradingDay.get_next_trading_day (fun _ => false) 3 3652057
    = Raised "OverflowError" /\
    forall d, (3652057 < d <= TradingDay.MAXORDINAL)%Z ->
              TradingDay.is_trading_day (fun _ => false) d = false)).
Proof.
  assert (A : (TradingDay.MINORDINAL <= 3652057 <= TradingDay.MAXORDINAL)%Z)
    by (unfold TradingDay.MINORDINAL, TradingDay.MAXORDINAL; lia).
  assert (B : (TradingDay.MAXORDINAL - 3652057 < Z.of_nat 3)%Z)
    by (unfold TradingDay.MAXORDINAL; simpl; lia).
  split; [exact A|]. split; [exact B|].
  exact (next_trading_day_terminates (fun _ => false) 3 3652057 A B).
Defined.

(** ** contact_price_calculator.py: what the verifier accepts *)

Section VerifierWindow.
Import Binary64.

Lemma envelope_lt S19 p (c : Z) :
  1 <= S19 + inject_Z p -> (0 <= p < 2 ^ 53)%Z -> (0 < c < 2 ^ 47)%Z ->
  S19 + inject_Z p <= inject_Z (25 * c - 1) -> envelope S19 p < inject_Z c.
Proof.
  intros H Hp Hc L. unfold envelope.
  destruct (envelope_chain S19 p H Hp) as (Et & Ht & Hma).
  set (t := fadd fl S19 (of_int fl p)) in *.
  set (ma := fdiv fl t 20) in *.
  assert (Pc : 1 <= inject_Z c)
    by (change 1 with (inject_Z 1); rewrite <- Zle_Qle; lia).
  assert (Lt : t <= inject_Z (25 * c - 1)).
  { rewrite Et. apply fl_le_repr; [lra | exact L | apply is_float_int; lia]. }
  rewrite inject_Z_minus, inject_Z_mult in Lt. change (inject_Z 25) with 25 in Lt.
  change (inject_Z 1) with 1 in Lt.
  assert (Lma : ma <= (5 # 4) * inject_Z c - (1 # 32)).
  { unfold ma, fdiv. apply fl_le_repr.
    - apply Qlt_shift_div_l; lra.
    - apply Qle_shift_div_r; [lra|]. lra.
    - apply (is_float_comp (inject_Z (40 * c - 1) * pow2 (-5))).
      + assert (pow2 (-5) == 1 # 32) as -> by reflexivity.
        rewrite inject_Z_minus, inject_Z_mult. change (inject_Z 40) with 40.
        change (inject_Z 1) with 1. field.
      + apply is_float_dyadic; lia. }
  apply Qle_lt_trans with (inject_Z c - (1 # 64)); [|lra].
  unfold fmul. apply fl_le_repr.
  - rewrite fl_08. pose proof (pow2_pos (-54)). nra.
  - rewrite fl_08.
    assert (P54 : pow2 (-54) == 1 # 18014398509481984) by reflexivity.
    rewrite P54.
    assert (Cb : inject_Z c <= 140737488355328).
    { change 140737488355328 with (inject_Z (2 ^ 47)). rewrite <- Zle_Qle. lia. }
    nra.
  - apply (is_float_comp (inject_Z (64 * c - 1) * pow2 (-6))).
    + assert (pow2 (-6) == 1 # 64) as -> by reflexivity.
      rewrite inject_Z_minus, inject_Z_mult. change (inject_Z 64) with 64.
      change (inject_Z 1) with 1. field.
    + apply is_float_dyadic; lia.
Qed.

(** The integer part of the envelope of two integers. *)
Lemma envelope_floor (s p : Z) :
  (1 <= s + p)%Z -> (0 <= p < 2 ^ 53)%Z -> (s + p < 2 ^ 51)%Z ->
  0 <= envelope (inject_Z s) p /\
  Qfloor (envelope (inject_Z s) p) = ((s + p) / 25)%Z.
Proof.
  intros Hn Hp Hb.
  assert (H1 : 1 <= inject_Z s + inject_Z p).
  { rewrite <- inject_Z_plus. change 1 with (inject_Z 1). rewrite <- Zle_Qle. lia. }
  pose proof (Z.div_mod (s + p) 25 ltac:(lia)) as E.
  pose proof (Z.mod_pos_bound (s + p) 25 ltac:(lia)) as B.
  set (k := ((s + p) / 25)%Z) in *.
  assert (Hk : (0 <= k < 2 ^ 47 - 1)%Z) by lia.
  assert (Lo : inject_Z k <= envelope (inject_Z s) p).
  { destruct (Z.eq_dec k 0%Z) as [Ek | Nk].
    - rewrite Ek. unfold envelope, fmul. apply fl_nonneg.
      destruct (envelope_chain (inject_Z s) p H1 Hp) as (_ & _ & Hma).
      cbv zeta in Hma. rewrite fl_08. pose proof (pow2_pos (-54)).
      apply Qmult_le_0_compat; [lra | nra].
    - apply envelope_ge; [exact H1 | lia | lia |].
      rewrite <- inject_Z_plus, <- Zle_Qle. lia. }
  split.
  { assert (0 <= inject_Z k) by (apply inject_Z_nonneg; lia). lra. }
  apply Qfloor_unique; [exact Lo|].
  assert (envelope (inject_Z s) p < inject_Z (k + 1)) as U.
  { apply envelope_lt; [exact H1 | lia | lia |].
    rewrite <- inject_Z_plus, <- Zle_Qle. lia. }
  rewrite inject_Z_plus in U. exact U.
Qed.

End VerifierWindow.

(** X23.  For an integer sum s (1 <= s <= 10^15) and an integer price p
    (0 <= p <= 10^14), [verify_contact_price] accepts p exactly when, with
    d the tick size at the integer part (s + p) div 25 of the envelope, p
    is a multiple of d and 25 * (p - d) < s + p <= 25 * p: the binary64
    envelope [((S19 + p) / 20) * 0.8] decides as the exact quotient
    (s + p) / 25 does. *)
Theorem verify_contact_price_integer_window (s p : Z) :
  (1 <= s <= 1000000000000000)%Z -> (0 <= p <= 100000000000000)%Z ->
  Contact.verify_contact_price Binary64.fl (inject_Z s) p = true <->
  ((p mod tickZ ((s + p) / 25) = 0)%Z /\
   (25 * (p - tickZ ((s + p) / 25)) < s + p)%Z /\ (s + p <= 25 * p)%Z).
Proof.
  intros Hs Hp.
  destruct (envelope_floor s p ltac:(lia) ltac:(lia) ltac:(lia)) as [He0 Hf].
  unfold Contact.verify_contact_price. fold (envelope (inject_Z s) p).
  set (env := envelope (inject_Z s) p) in *.
  assert (H1 : 1 <= inject_Z s + inject_Z p).
  { rewrite <- inject_Z_plus. change 1 with (inject_Z 1). rewrite <- Zle_Qle. lia. }
  assert (He1 : env < Binary64.pow2 52).
  { pose proof (Qlt_floor env) as F. rewrite Hf in F.
    eapply Qlt_trans; [exact F|]. rewrite pow2_Z by lia. rewrite <- Zlt_Qlt.
    assert ((s + p) / 25 <= 1100000000000000 / 25)%Z by (apply Z.div_le_mono; lia).
    change (1100000000000000 / 25)%Z with 44000000000000%Z in *. lia. }
  destruct (contact_ceil_tick_spec env He0 He1) as (Hk & A & B).
  rewrite get_tick_size_floor, Hf in Hk, A.
  pose proof (tickZ_range ((s + p) / 25)) as Hd.
  set (d := tickZ ((s + p) / 25)) in *.
  set (P := Contact.ceil_tick Binary64.fl env) in *.
  rewrite Z.eqb_eq. split.
  - intros EP. rewrite <- EP in Hk, A, B. clear EP.
    split; [|split].
    + destruct Hk as [j Hj]. rewrite Hj. apply Z.mod_mul. lia.
    + destruct (Z_lt_le_dec (25 * (p - d)) (s + p)) as [l|l]; [exact l|exfalso].
      assert (env <= inject_Z (p - d)) as U; [|rewrite inject_Z_minus in U; lra].
      apply envelope_le; [exact H1 | lia | lia |].
      rewrite <- inject_Z_plus, <- Zle_Qle. lia.
    + destruct (Z_le_gt_dec (s + p) (25 * p)) as [l|l]; [exact l|exfalso].
      assert (inject_Z p < env); [|lra].
      apply envelope_gt; [exact H1 | lia | lia |].
      rewrite <- inject_Z_plus, <- Zle_Qle. lia.
  - intros (M & W1 & W2).
    assert (Hg : exists j, p = (j * d)%Z).
    { exists (p / d)%Z. rewrite Z.mul_comm. apply Z.div_exact; [lia | exact M]. }
    assert (Hdp : (d <= p)%Z).
    { destruct Hg as [j Hj]. assert (0 < j)%Z by nia. nia. }
    apply (ceil_unique d p P env); try assumption; try lia.
    + rewrite <- inject_Z_minus. apply envelope_gt; [exact H1 | lia | lia |].
      rewrite <- inject_Z_plus, <- Zle_Qle. lia.
    + apply envelope_le; [exact H1 | lia | lia |].
      rewrite <- inject_Z_plus, <- Zle_Qle. lia.
Qed.

Lemma verify_contact_price_integer_window_witness :
  (1 <= 1653800 <= 1000000000000000)%Z /\ (0 <= 69000 <= 100000000000000)%Z /\
  (Contact.verify_contact_price Binary64.fl (inject_Z 1653800) 69000 = true <->
   ((69000 mod tickZ ((1653800 + 69000) / 25) = 0)%Z /\
    (25 * (69000 - tickZ ((1653800 + 69000) / 25)) < 1653800 + 69000)%Z /\
    (1653800 + 69000 <= 25 * 69000)%Z)).
Proof.
  assert (A : (1 <= 1653800 <= 1000000000000000)%Z) by lia.
  assert (B : (0 <= 69000 <= 100000000000000)%Z) by lia.
  split; [exact A|]. split; [exact B|].
  exact (verify_contact_price_integer_window 1653800 69000 A B).
Defined.

(** ** Trading_Signal_System_S1.py: the order of the sell lines *)

Section SellLineFacts.
Import Binary64.

(** The factors [1 + SELL_LEVELS[k] / 100] ascend. *)
Lemma sell_factors_ascend :
  0 < fadd fl 1 (fdiv fl (nth 0 Signal.SELL_LEVELS 0) 100) /\
  fadd fl 1 (fdiv fl (nth 0 Signal.SELL_LEVELS 0) 100)
  <= fadd fl 1 (fdiv fl (nth 1 Signal.SELL_LEVELS 0) 100) /\
  fadd fl 1 (fdiv fl (nth 1 Signal.SELL_LEVELS 0) 100)
  <= fadd fl 1 (fdiv fl (nth 2 Signal.SELL_LEVELS 0) 100).
Proof.
  split; [|split].
  - apply Qlt_alt. vm_compute. reflexivity.
  - apply Qle_bool_imp_le. vm_compute. reflexivity.
  - apply Qle_bool_imp_le. vm_compute. reflexivity.
Qed.

Lemma sell_line_positive avg k :
  0 < avg ->
  Signal.sell_line fl avg k
  = fmul fl avg (fadd fl 1 (fdiv fl (nth k Signal.SELL_LEVELS 0) 100)).
Proof.
  intros H. unfold Signal.sell_line, Qltb.
  destruct (Qle_bool avg 0) eqn:E; [|reflexivity].
  apply Qle_bool_imp_le in E. lra.
Qed.

Lemma sell_lines_ascend_aux avg :
  0 < avg ->
  Signal.sell_line fl avg 0 <= Signal.sell_line fl avg 1 /\
  Signal.sell_line fl avg 1 <= Signal.sell_line fl avg 2.
Proof.
  intros H. rewrite !sell_line_positive by exact H.
  destruct sell_factors_ascend as (P & A & B).
  unfold fmul. split; apply fl_mono; nra.
Qed.

End SellLineFacts.

(** X24.  For every positive average buy price the sell lines of
    [analyze_stock], [avg_price * (1 + SELL_LEVELS[k] / 100)] in binary64,
    ascend: sell1 <= sell2 <= sell3.  Hence whenever [check_sell_retouch]
    holds for the +5% line it holds for the +3% line with the same prices:
    the +5% branch of the sell test never decides alone. *)
Theorem retouch_above_5_percent_is_retouch_above_3_percent
    (high close max_high : option Q) (avg_price : Q) :
  0 < avg_price ->
  Signal.sell_line Binary64.fl avg_price 0 <= Signal.sell_line Binary64.fl avg_price 1 /\
  Signal.sell_line Binary64.fl avg_price 1 <= Signal.sell_line Binary64.fl avg_price 2 /\
  (Signal.check_sell_retouch Binary64.fl high close
     (Some (Signal.sell_line Binary64.fl avg_price 1)) max_high (Some avg_price)
   = Returned true ->
   Signal.check_sell_retouch Binary64.fl high close
     (Some (Signal.sell_line Binary64.fl avg_price 0)) max_high (Some avg_price)
   = Returned true).
Proof.
  intros H. destruct (sell_lines_ascend_aux avg_price H) as [A B].
  split; [exact A|]. split; [exact B|].
  unfold Signal.check_sell_retouch.
  destruct max_high as [mh|]; [|discriminate].
  destruct high as [h|]; [|discriminate].
  destruct close as [c|]; [|discriminate].
  destruct (Qle_bool (Signal.sell_line Binary64.fl avg_price 1) mh) eqn:E2; [|discriminate].
  apply Qle_bool_imp_le in E2.
  assert (E1 : Qle_bool (Signal.sell_line Binary64.fl avg_price 0) mh = true).
  { apply Qle_bool_iff. lra. }
  rewrite E1. intros R. exact R.
Qed.

Lemma retouch_above_5_percent_is_retouch_above_3_percent_witness :
  0 < 69000 /\
  Signal.sell_line Binary64.fl 69000 0 <= Signal.sell_line Binary64.fl 69000 1 /\
  Signal.sell_line Binary64.fl 69000 1 <= Signal.sell_line Binary64.fl 69000 2 /\
  (Signal.check_sell_retouch Binary64.fl (Some 72500) (Some 69500)
     (Some (Signal.sell_line Binary64.fl 69000 1)) (Some 72500) (Some 69000)
   = Returned true ->
   Signal.check_sell_retouch Binary64.fl (Some 72500) (Some 69500)
     (Some (Signal.sell_line Binary64.fl 69000 0)) (Some 72500) (Some 69000)
   = Returned true).
Proof.
  assert (A : 0 < 69000) by reflexivity.
  split; [exact A|].
  exact (retouch_above_5_percent_is_retouch_above_3_percent
           (Some 72500) (Some 69500) (Some 72500) 69000 A).
Defined.

(** ** trading_day_utils.py: weekends *)

Section WeekendFacts.
Import TradingDay.
Variable kr_holidays : Z -> bool.

Lemma weekday_range d : (0 <= weekday d < 7)%Z.
Proof. unfold weekday. apply Z.mod_pos_bound. lia. Qed.

Lemma weekday_shift d n : weekday (d + n) = ((weekday d + n) mod 7)%Z.
Proof.
  unfold weekday. rewrite Zplus_mod_idemp_l. f_equal. lia.
Qed.

Lemma is_trading_day_no_holiday d :
  kr_holidays d = false -> is_trading_day kr_holidays d = (weekday d <? 5)%Z.
Proof.
  intros H. unfold is_trading_day, is_weekend, is_holiday. rewrite H.
  destruct (Z.leb_spec 5 (weekday d)), (Z.ltb_spec (weekday d) 5); try reflexivity; lia.
Qed.

Lemma previous_loop_found (fuel : nat) (start prev r : Z) :
  (MINORDINAL <= r)%Z -> (r <= prev <= MAXORDINAL)%Z -> (start - 7 <= r)%Z ->
  is_trading_day kr_holidays r = true ->
  (forall d, (r < d <= prev)%Z -> is_trading_day kr_holidays d = false) ->
  (prev - r < Z.of_nat fuel)%Z ->
  previous_trading_day_loop kr_holidays fuel start prev = Returned r.
Proof.
  intros Hr. revert prev. induction fuel as [|fuel IH]; intros prev Hp H7 T Hno Hf.
  - simpl in Hf. lia.
  - cbn [previous_trading_day_loop].
    destruct (Z.eq_dec prev r) as [E|N].
    + rewrite E, T. reflexivity.
    + rewrite (Hno prev) by lia.
      rewrite add_days_returned by (unfold MINORDINAL in *; lia).
      destruct (Z.ltb_spec 7 (start - (prev + -1))) as [L|_]; [lia|].
      apply IH; [lia | exact H7 | exact T | | lia].
      intros d Hd. apply Hno. lia.
Qed.

(** Without holidays from two days before to three days after a date, the
    trading days among these six dates are given by the weekday alone. *)
Lemma week_without_holidays (start : Z) :
  (forall d, (start - 2 <= d <= start + 3)%Z -> kr_holidays d = false) ->
  forall d, (start - 2 <= d <= start + 3)%Z ->
  is_trading_day kr_holidays d = ((weekday start + (d - start)) mod 7 <? 5)%Z.
Proof.
  intros Hno d Hd. rewrite is_trading_day_no_holiday by (apply Hno; exact Hd).
  rewrite <- weekday_shift. do 2 f_equal. lia.
Qed.

End WeekendFacts.

(** X25.  When no date from two days before to three days after the start
    date is a holiday, and the budget is at least 3 passes:
    [get_previous_trading_day] returns the start date on Monday to Friday,
    the Friday before on a Saturday or Sunday; [get_next_trading_day]
    returns the following Monday on a Friday, Saturday or Sunday, and the
    next day otherwise. *)
Theorem trading_days_around_a_weekend
    (kr_holidays : Z -> bool) (fuel : nat) (start_date : Z) :
  (TradingDay.MINORDINAL + 2 <= start_date <= TradingDay.MAXORDINAL - 3)%Z ->
  (forall d, (start_date - 2 <= d <= start_date + 3)%Z -> kr_holidays d = false) ->
  (3 <= fuel)%nat ->
  TradingDay.get_previous_trading_day kr_holidays fuel start_date
  = Returned (start_date - Z.max 0 (TradingDay.weekday start_date - 4))%Z /\
  TradingDay.get_next_trading_day kr_holidays fuel start_date
  = Returned (start_date
              + (if (TradingDay.weekday start_date =? 4)%Z then 3
                 else if (TradingDay.weekday start_date =? 5)%Z then 2
                 else 1))%Z.
Proof.
  intros Hs Hno Hf.
  pose proof (week_without_holidays kr_holidays start_date Hno) as T.
  pose proof (weekday_range start_date) as Hw.
  unfold TradingDay.get_previous_trading_day, TradingDay.get_next_trading_day.
  unfold TradingDay.MINORDINAL, TradingDay.MAXORDINAL in Hs.
  assert (Day : forall d w, (start_date - 2 <= d <= start_date + 3)%Z ->
            (TradingDay.weekday start_date + (d - start_date) = w)%Z ->
            TradingDay.is_trading_day kr_holidays d = (w mod 7 <? 5)%Z).
  { intros d w Hd <-. apply T. exact Hd. }
  assert (W : (TradingDay.weekday start_date = 0 \/ TradingDay.weekday start_date = 1 \/
               TradingDay.weekday start_date = 2 \/ TradingDay.weekday start_date = 3 \/
               TradingDay.weekday start_date = 4 \/ TradingDay.weekday start_date = 5 \/
               TradingDay.weekday start_date = 6)%Z) by lia.
  split.
  - apply previous_loop_found;
      try (unfold TradingDay.MINORDINAL, TradingDay.MAXORDINAL; lia).
    + destruct W as [E|[E|[E|[E|[E|[E|E]]]]]]; rewrite E.
      1-5: rewrite (Day _ (TradingDay.weekday start_date)) by lia; rewrite E; reflexivity.
      * rewrite (Day _ 4%Z) by lia. reflexivity.
      * rewrite (Day _ 4%Z) by lia. reflexivity.
    + intros d Hd.
      assert (d = start_date \/ d = start_date - 1)%Z as [-> | ->] by lia.
      * rewrite (Day _ (TradingDay.weekday start_date)) by lia.
        destruct W as [E|[E|[E|[E|[E|[E|E]]]]]]; rewrite E in *; try lia; reflexivity.
      * rewrite (Day _ 5%Z) by lia. reflexivity.
  - apply next_loop_spec;
      try (unfold TradingDay.MINORDINAL, TradingDay.MAXORDINAL; lia).
    + unfold TradingDay.MAXORDINAL.
      destruct W as [E|[E|[E|[E|[E|[E|E]]]]]]; rewrite E; cbn [Z.eqb Pos.eqb]; lia.
    + destruct W as [E|[E|[E|[E|[E|[E|E]]]]]]; rewrite E;
        cbn [Z.eqb Pos.eqb];
        rewrite (Day _ (TradingDay.weekday start_date
                        + (if (TradingDay.weekday start_date =? 4)%Z then 3
                           else if (TradingDay.weekday start_date =? 5)%Z then 2
                           else 1))%Z) by (rewrite ?E; cbn [Z.eqb Pos.eqb]; lia);
        rewrite E; reflexivity.
    + intros d Hd.
      destruct W as [E|[E|[E|[E|[E|[E|E]]]]]]; rewrite E in Hd;
        cbn [Z.eqb Pos.eqb] in Hd; try lia.
      * assert (d = start_date + 1 \/ d = start_date + 2)%Z as [-> | ->] by lia.
        -- rewrite (Day _ 5%Z) by lia. reflexivity.
        -- rewrite (Day _ 6%Z) by lia. reflexivity.
      * assert (d = start_date + 1)%Z as -> by lia.
        rewrite (Day _ 6%Z) by lia. reflexivity.
    + destruct W as [E|[E|[E|[E|[E|[E|E]]]]]]; rewrite E; cbn [Z.eqb Pos.eqb]; lia.
Qed.

Lemma trading_days_around_a_weekend_witness :
  (TradingDay.MINORDINAL + 2 <= 739191 <= TradingDay.MAXORDINAL - 3)%Z /\
  (forall d, (739191 - 2 <= d <= 739191 + 3)%Z -> (fun _ : Z => false) d = false) /\
  (3 <= 3)%nat /\
  TradingDay.get_previous_trading_day (fun _ => false) 3 739191
  = Returned (739191 - Z.max 0 (TradingDay.weekday 739191 - 4))%Z /\
  TradingDay.get_next_trading_day (fun _ => false) 3 739191
  = Returned (739191
              + (if (TradingDay.weekday 739191 =? 4)%Z then 3
                 else if (TradingDay.weekday 739191 =? 5)%Z then 2
                 else 1))%Z.
Proof.
  assert (A : (TradingDay.MINORDINAL + 2 <= 739191 <= TradingDay.MAXORDINAL - 3)%Z)
    by (unfold TradingDay.MINORDINAL, TradingDay.MAXORDINAL; lia).
  assert (B : forall d, (739191 - 2 <= d <= 739191 + 3)%Z ->
                        (fun _ : Z => false) d = false) by (intros; reflexivity).
  assert (C : (3 <= 3)%nat) by lia.
  split; [exact A|]. split; [exact B|]. split; [exact C|].
  exact (trading_days_around_a_weekend (fun _ => false) 3 739191 A B C).
Defined.
